(** * TankRepeater: the GUI pages' JavaScript and the setup script

    A shallow embedding of the executable parts of the package:

    - [tanksensor.js]: volume formats, SI conversion, volume formatting and
      the custom-shape string codec;
    - [PageTankShape.qml] / [PageTankShapeAddPoint.qml]: the custom-shape
      editor (add / remove a point);
    - [FileSets/v2.40/TileTank.qml]: the tank tile (title, level bar, status
      text) and, further down in the same file, the tank page of the GUI
      (title, fluid-type text), here [PageTankSensor], and the connection
      values with their phase lines, here [TileConnection];
    - [PageTankSetup.qml]: the capacity spin box;
    - [setup]: the install / uninstall script, as a transformer of the
      settings store.

    JavaScript numbers are IEEE 754 binary64 values: they are modelled by
    Rocq's primitive floats, whose operations are the same binary64
    operations (round to nearest, ties to even). *)

From Stdlib Require Import Reals Lra.
From Stdlib Require Import ZArith List String Ascii Bool Lia Sorted.
From Stdlib Require Import Floats DecimalString.
From Stdlib Require DecimalPos DecimalN DecimalFacts.
From stdpp Require Import gmap strings list.

Set Warnings "-inexact-float".
Local Open Scope string_scope.

(** ** JavaScript numbers and their conversions to and from strings *)

Module JS.

(** The Number type. *)
Definition number : Set := float.
Bind Scope float_scope with number.

(** [undefined] (an invalid bus item, a missing array element) or a value. *)
Definition undefinedOr (A : Type) : Type := option A.

(** *** Correctly rounded numbers from exact quotients *)

(** The Number value of the rational [n / d] (round to nearest, ties to
    even), with sign [neg]. *)
Definition round_ratio (neg : bool) (n d : positive) : number :=
  let '(q, e, l) := SFdiv_core_binary prec emax (Zpos n) 0 (Zpos d) 0 in
  SF2Prim (binary_round_aux prec emax neg q e l).

(** The Number value of [m * 10^e10], with sign [neg]. *)
Definition of_decimal (neg : bool) (m : N) (e10 : Z) : number :=
  match m with
  | N0 => if neg then neg_zero else zero
  | Npos p =>
      match e10 with
      | Z0 => round_ratio neg p 1
      | Zpos e => round_ratio neg (p * 10 ^ e) 1
      | Zneg e => round_ratio neg p (10 ^ e)
      end
  end.

Definition of_Z (z : Z) : number :=
  match z with
  | Z0 => zero
  | Zpos p => round_ratio false p 1
  | Zneg p => round_ratio true p 1
  end.

(** The exact value of a positive finite number, as a fraction. *)
Definition exact_fraction (x : number) : option (positive * positive) :=
  match Prim2SF x with
  | S754_finite _ m (Zpos e) => Some (Pos.shiftl m (Npos e), 1%positive)
  | S754_finite _ m Z0 => Some (m, 1%positive)
  | S754_finite _ m (Zneg e) => Some (m, Pos.shiftl 1 (Npos e))
  | _ => None
  end.

(** *** Characters *)

Definition is_digit (c : ascii) : bool :=
  let n := nat_of_ascii c in (48 <=? n)%nat && (n <=? 57)%nat.

Definition digit_value (c : ascii) : N := N.of_nat (nat_of_ascii c - 48).

Definition hex_value (c : ascii) : option N :=
  let n := nat_of_ascii c in
  if (48 <=? n)%nat && (n <=? 57)%nat then Some (N.of_nat (n - 48))
  else if (65 <=? n)%nat && (n <=? 70)%nat then Some (N.of_nat (n - 55))
  else if (97 <=? n)%nat && (n <=? 102)%nat then Some (N.of_nat (n - 87))
  else None.

(** StrWhiteSpaceChar, restricted to the one-byte characters: TAB, LF, VT,
    FF, CR and SP. *)
Definition is_space (c : ascii) : bool :=
  let n := nat_of_ascii c in
  ((9 <=? n)%nat && (n <=? 13)%nat) || (n =? 32)%nat.

Fixpoint drop_spaces (s : string) : string :=
  match s with
  | String c s' => if is_space c then drop_spaces s' else s
  | EmptyString => EmptyString
  end.

Fixpoint rev_string (s acc : string) : string :=
  match s with
  | String c s' => rev_string s' (String c acc)
  | EmptyString => acc
  end.

Definition trim (s : string) : string :=
  rev_string (drop_spaces (rev_string (drop_spaces s) "")) "".

(** *** ToNumber applied to a string (the unary [+] of the pages) *)

(** Reads a run of decimal digits: the accumulated value, the number of
    digits read and the rest of the string. *)
Fixpoint read_digits (s : string) (acc : N) (cnt : nat) : N * nat * string :=
  match s with
  | String c s' =>
      if is_digit c then read_digits s' (acc * 10 + digit_value c)%N (S cnt)
      else (acc, cnt, s)
  | EmptyString => (acc, cnt, s)
  end.

(** HexDigit+ up to the end of the string. *)
Fixpoint read_hex (s : string) (acc : N) : option N :=
  match s with
  | String c s' =>
      match hex_value c with
      | Some d => read_hex s' (acc * 16 + d)%N
      | None => None
      end
  | EmptyString => Some acc
  end.

(** ExponentPart_opt up to the end of the string: the exponent, or [None]
    when what is left is not an exponent part. *)
Definition read_exponent (s : string) : option Z :=
  match s with
  | EmptyString => Some 0%Z
  | String c s' =>
      if (Ascii.eqb c "e" || Ascii.eqb c "E")%bool then
        let '(neg, s'') :=
          match s' with
          | String "-" t => (true, t)
          | String "+" t => (false, t)
          | _ => (false, s')
          end in
        match read_digits s'' 0 0 with
        | (_, O, _) => None
        | (v, _, EmptyString) => Some (if neg then (- Z.of_N v)%Z else Z.of_N v)
        | _ => None
        end
      else None
  end.

(** StrUnsignedDecimalLiteral other than [Infinity]. *)
Definition read_unsigned_decimal (neg : bool) (s : string) : number :=
  let '(ip, ni, rest) := read_digits s 0 0 in
  let '(m, nf, rest') :=
    match rest with
    | String "." t => read_digits t ip 0
    | _ => (ip, O, rest)
    end in
  match (ni + nf)%nat with
  | O => nan
  | _ =>
      match read_exponent rest' with
      | Some e => of_decimal neg m (e - Z.of_nat nf)
      | None => nan
      end
  end.

Definition read_decimal (s : string) : number :=
  let '(neg, body) :=
    match s with
    | String "-" t => (true, t)
    | String "+" t => (false, t)
    | _ => (false, s)
    end in
  if String.eqb body "Infinity" then (if neg then neg_infinity else infinity)
  else read_unsigned_decimal neg body.

(** [ToNumber(s)], ECMA-262 5.1 section 9.3.1: blank is [+0], a
    StrNumericLiteral is its rounded value, anything else is [NaN]. *)
Definition toNumber (s : string) : number :=
  match trim s with
  | EmptyString => zero
  | String "0" (String x h) as t =>
      if (Ascii.eqb x "x" || Ascii.eqb x "X")%bool then
        match h with
        | EmptyString => nan
        | _ => match read_hex h 0 with
               | Some v => of_decimal false v 0
               | None => nan
               end
        end
      else read_decimal t
  | t => read_decimal t
  end.

(** *** ToString applied to a number (used by [join] and string [+]) *)

Definition digits_of (n : N) : string := NilZero.string_of_uint (N.to_uint n).

Definition zeros (n : Z) : string :=
  Nat.iter (Z.to_nat n) (String "0") "".

Definition pow10 (e : Z) : positive :=
  match e with Zpos p => (10 ^ p)%positive | _ => 1%positive end.

(** The [n] with [10^(n-1) <= num/den < 10^n]. *)
Definition decimal_exponent (num den : positive) : Z :=
  if (den <=? num)%positive then
    Z.of_nat (String.length (digits_of (Npos num / Npos den)))
  else
    let j := (Z.of_nat (String.length (digits_of (Npos den)))
              - Z.of_nat (String.length (digits_of (Npos num))))%Z in
    if (den <=? num * pow10 j)%positive then (1 - j)%Z else (- j)%Z.

(** The [k]-digit decimals next to [num/den] that read back as [x]: of
    those, the closest one, as its digits [s] and the exponent [n] with
    value [s * 10^(n-k)]. *)
Definition candidate (x : number) (num den : positive) (n0 k : Z)
  : option (N * Z) :=
  let a := (num * pow10 (k - n0))%positive in
  let b := (den * pow10 (n0 - k))%positive in
  let lo := (Npos a / Npos b)%N in
  let r := (Npos a mod Npos b)%N in
  let hi := (lo + 1)%N in
  let ok s := Leibniz.eqb (of_decimal false s (n0 - k)) x in
  let up := if (hi =? Npos (pow10 k))%N
            then (Npos (pow10 (k - 1)), (n0 + 1)%Z) else (hi, n0) in
  match ok lo, ok hi with
  | true, true =>
      match (2 * r ?= Npos b)%N with
      | Lt => Some (lo, n0)
      | Gt => Some up
      | Eq => if N.even lo then Some (lo, n0) else Some up
      end
  | true, false => Some (lo, n0)
  | false, true => Some up
  | false, false => None
  end.

(** The least number of digits that identifies [x]: [k] from 1 up. *)
Fixpoint shortest (fuel : nat) (x : number) (num den : positive) (n0 k : Z)
  : N * Z :=
  match fuel with
  | O => (0%N, 0%Z)
  | S fuel' =>
      match candidate x num den n0 k with
      | Some r => r
      | None => shortest fuel' x num den n0 (k + 1)
      end
  end.

(** Steps 6 to 10 of ECMA-262 5.1 section 9.8.1, from the digits and [n]. *)
Definition format_digits (ds : string) (n : Z) : string :=
  let k := Z.of_nat (String.length ds) in
  if ((k <=? n) && (n <=? 21))%Z then ds ++ zeros (n - k)
  else if ((0 <? n) && (n <=? 21))%Z then
    substring 0 (Z.to_nat n) ds ++ "." ++ substring (Z.to_nat n) (Z.to_nat (k - n)) ds
  else if ((-6 <? n) && (n <=? 0))%Z then "0." ++ zeros (- n) ++ ds
  else
    let e := (n - 1)%Z in
    let es := (if (e <? 0)%Z then "-" else "+") ++ digits_of (Z.abs_N e) in
    if (k =? 1)%Z then ds ++ "e" ++ es
    else substring 0 1 ds ++ "." ++ substring 1 (Z.to_nat (k - 1)) ds ++ "e" ++ es.

(** [ToString(x)], ECMA-262 5.1 section 9.8.1. *)
Definition toString (x : number) : string :=
  if is_nan x then "NaN"
  else if (x =? 0)%float then "0"
  else
    let sign := if (x <? 0)%float then "-" else "" in
    match exact_fraction x with
    | None => sign ++ "Infinity"
    | Some (num, den) =>
        let '(s, n) := shortest 17 (abs x) num den (decimal_exponent num den) 1 in
        sign ++ format_digits (digits_of s) n
    end.

(** [Number.prototype.toFixed(f)], ECMA-262 5.1 section 15.7.4.5, for the
    fraction digits 0 to 20 (the pages pass 0 or 3). *)
Definition toFixed (x : number) (f : nat) : string :=
  if is_nan x then "NaN"
  else
    let s := if (x <? 0)%float then "-" else "" in
    let ax := abs x in
    if (1e21 <=? ax)%float then s ++ toString ax
    else
      let n :=
        match exact_fraction ax with
        | Some (num, den) =>
            ((2 * Npos (num * 10 ^ Pos.of_succ_nat f) + 10 * Npos den)
               / (20 * Npos den))%N
        | None => 0%N
        end in
      let m := digits_of n in
      match f with
      | O => s ++ m
      | _ =>
          let k := String.length m in
          let m' := if (k <=? f)%nat then zeros (Z.of_nat (f + 1 - k)) ++ m else m in
          let k' := String.length m' in
          s ++ substring 0 (k' - f) m' ++ "." ++ substring (k' - f) f m'
      end.

(** *** Truthiness and comparisons with [undefined] *)

(** [ToBoolean] of a Number: false for [+0], [-0] and [NaN]. *)
Definition truthy (x : number) : bool := negb ((x =? 0)%float || is_nan x).

(** [ToBoolean] of a value that may be [undefined]. *)
Definition truthy_opt (v : undefinedOr number) : bool :=
  match v with Some x => truthy x | None => false end.

(** A string item that is invalid or holds the empty string. *)
Definition emptyOrInvalid (v : undefinedOr string) : Prop :=
  v = None \/ v = Some EmptyString.

(** [ToNumber] of a value that may be [undefined]: [undefined] is [NaN]. *)
Definition num (v : undefinedOr number) : number :=
  match v with Some x => x | None => nan end.

End JS.

(** ** tanksensor.js *)

Module TankSensor.
Import JS.

(** The object built by [getVolumeFormat]. *)
Record volumeFormat : Set := {
  precision : nat;
  stepSize : number;
  unit : string;
  factor : number
}.

(** [getVolumeFormat(unit)]: the [switch] on the volume-unit setting, an
    integer; an undefined setting takes the [default] branch, as every
    selector other than 1, 2 and 3 does. *)
Definition getVolumeFormat (unit : Z) : volumeFormat :=
  match unit with
  | 1%Z => {| precision := 0; stepSize := 1; unit := "L"; factor := 1000.0 |}
  | 2%Z => {| precision := 0; stepSize := 1; unit := "gal"; factor := 219.969157 |}
  | 3%Z => {| precision := 0; stepSize := 1; unit := "gal"; factor := 264.172052 |}
  | _ => {| precision := 3; stepSize := 0.005; unit := "m<sup>3</sup>";
            factor := 1.0 |}
  end.

(** [volumeConvertToSI(unit, volume)]: [volume /= factor]. *)
Definition volumeConvertToSI (unit : Z) (volume : number) : number :=
  (volume / (getVolumeFormat unit).(factor))%float.

(** [volumeConvertFromSI(unit, volume)]: [volume *= factor]. *)
Definition volumeConvertFromSI (unit : Z) (volume : number) : number :=
  (volume * (getVolumeFormat unit).(factor))%float.

(** [formatVolume(unit, volume)]: bus format to display format. *)
Definition formatVolume (unit : Z) (volume : undefinedOr number) : string :=
  let fmt := getVolumeFormat unit in
  match volume with
  | None => "--"
  | Some v =>
      let volume := volumeConvertFromSI unit v in
      toFixed volume fmt.(precision) ++ fmt.(TankSensor.unit)
  end.

(** [String.prototype.split] with a one-character separator. *)
Fixpoint split (sep : ascii) (s : string) : list string :=
  match s with
  | EmptyString => [EmptyString]
  | String c s' =>
      if Ascii.eqb c sep then EmptyString :: split sep s'
      else match split sep s' with
           | h :: t => String c h :: t
           | [] => [String c EmptyString]
           end
  end.

(** [Array.prototype.join] on an array of strings. *)
Fixpoint join (sep : ascii) (l : list string) : string :=
  match l with
  | [] => EmptyString
  | [x] => x
  | x :: l' => x ++ String sep (join sep l')
  end.

(** A point array: an array of arrays of numbers. *)
Definition pointArray : Set := list (list number).

(** [stringToPointArray(str)]. *)
Definition stringToPointArray (str : undefinedOr string) : pointArray :=
  match str with
  | Some (String _ _ as s) =>
      map (fun s => map (fun x => toNumber x) (split ":" s)) (split "," s)
  | _ => []
  end.

(** [pointArrayToString(a)]. *)
Definition pointArrayToString (a : pointArray) : string :=
  join "," (map (fun x => join ":" (map toString x)) a).

End TankSensor.

(** ** PageTankShapeAddPoint.qml *)

Module PageTankShapeAddPoint.
Import JS.

(** What a handler does to the page: a toast, or a new value for the
    [/Shape] item followed by [pageStack.pop()]. *)
Inductive outcome : Set :=
| Toast (message : string)
| SetValue (shape : string).

(** [p[i][j]] read where a number is expected: a missing element is
    [undefined], which the relational and arithmetic operators take as
    [NaN]. *)
Definition at_ (j : nat) (point : list number) : number := nth j point nan.

(** The comparison function handed to [sort]. *)
Definition byLevel (a b : list number) : number := (at_ 0 a - at_ 0 b)%float.

(** [Array.prototype.sort(comparefn)], as a stable insertion sort: [x] goes
    before the first element it compares below. *)
Fixpoint insert (comparefn : list number -> list number -> number)
  (x : list number) (l : list (list number)) : list (list number) :=
  match l with
  | [] => [x]
  | y :: l' =>
      if (comparefn x y <? 0)%float then x :: y :: l'
      else y :: insert comparefn x l'
  end.

Definition sort (comparefn : list number -> list number -> number)
  (l : list (list number)) : list (list number) :=
  fold_left (fun acc x => insert comparefn x acc) l [].

(** The [for] loop of [addPoint], from index [i] on with [prev = p[i-1]]:
    the toast of the first failed check, if any. *)
Fixpoint checkIncreasing (prev : list number) (rest : list (list number))
  : option string :=
  match rest with
  | [] => None
  | cur :: rest' =>
      if (at_ 0 cur <=? at_ 0 prev)%float then
        Some "Duplicate sensor level values not allowed"
      else if (at_ 1 cur <=? at_ 1 prev)%float then
        Some "Volume values must be increasing"
      else checkIncreasing cur rest'
  end.

(** [addPoint()], from the value of the [/Shape] item and the texts of the
    two edit boxes. *)
Definition addPoint (shapeItem : undefinedOr string) (level volume : string)
  : outcome :=
  let lvl := toNumber level in
  let vol := toNumber volume in
  if ((lvl <? 1) || (99 <? lvl))%float then Toast "Invalid sensor level"
  else if ((vol <? 1) || (99 <? vol))%float then Toast "Invalid volume"
  else
    let p := TankSensor.stringToPointArray shapeItem in
    let p := (p ++ [[lvl; vol]])%list in
    let p := sort byLevel p in
    match (match p with
           | [] => None
           | first :: rest => checkIncreasing first rest
           end) with
    | Some message => Toast message
    | None => SetValue (TankSensor.pointArrayToString p)
    end.

(** The value of the [/Shape] item after the handler. *)
Definition shapeAfter (shapeItem : undefinedOr string) (o : outcome)
  : undefinedOr string :=
  match o with
  | Toast _ => shapeItem
  | SetValue s => Some s
  end.

End PageTankShapeAddPoint.

(** ** PageTankShape.qml *)

Module PageTankShape.
Import JS.

(** What the [Add] button does: a toast, or the add-point page pushed. *)
Inductive addOutcome : Set :=
| MaxPoints (message : string)
| PushSubpage.

(** The page's [model]. *)
Definition model (shapeItem : undefinedOr string) : TankSensor.pointArray :=
  TankSensor.stringToPointArray shapeItem.

(** [addPoint(isMouse)]. *)
Definition addPoint (shapeItem : undefinedOr string) : addOutcome :=
  if (9 <? length (model shapeItem))%nat then MaxPoints "Max 10 points allowed"
  else PushSubpage.

(** [Array.prototype.splice(start, 1)]: a negative [start] counts from the
    end. *)
Definition splice1 {A : Type} (start : Z) (l : list A) : list A :=
  let len := Z.of_nat (length l) in
  let i := if (start <? 0)%Z then Z.max (len + start) 0 else Z.min start len in
  (firstn (Z.to_nat i) l ++ skipn (S (Z.to_nat i)) l)%list.

(** [removePoint()]: the new value of the [/Shape] item. *)
Definition removePoint (shapeItem : undefinedOr string) (currentIndex : Z)
  : string :=
  let p := model shapeItem in
  let p := splice1 currentIndex p in
  TankSensor.pointArrayToString p.

(** The [Add] button followed by the add-point page's [Add], the [/Shape]
    item being the same on both pages: its value afterwards. *)
Definition addThroughPages (shapeItem : undefinedOr string)
  (level volume : string) : undefinedOr string :=
  match addPoint shapeItem with
  | MaxPoints _ => shapeItem
  | PushSubpage =>
      PageTankShapeAddPoint.shapeAfter shapeItem
        (PageTankShapeAddPoint.addPoint shapeItem level volume)
  end.

End PageTankShape.

(** ** TileTank.qml *)

Module TileTank.
Import JS.

(** The values the tile binds to: the tile's size, the bus items of the
    tank service (an invalid item has the value [undefined]) and the volume
    unit setting. [levelText] is the text of the [/Level] item, as the bus
    item formats it. *)
Record tile : Type := {
  width : number;
  remainingItem : undefinedOr number;
  volumeUnit : Z;
  levelItem : undefinedOr number;
  levelText : string;
  fluidTypeItem : undefinedOr Z;
  connectedItem : undefinedOr number;
  nameItem : undefinedOr string
}.

(** [item.valid]. *)
Definition valid {A : Type} (item : undefinedOr A) : bool :=
  match item with Some _ => true | None => false end.

(** [[2, 5].indexOf(tank) > -1]. *)
Definition isWasteOrBlack (tank : undefinedOr Z) : bool :=
  match tank with
  | Some 2%Z | Some 5%Z => true
  | _ => false
  end.

Definition fullWarningLevel (t : tile) : number :=
  if isWasteOrBlack t.(fluidTypeItem) then 80 else 101.

Definition emptyWarningLevel (t : tile) : number :=
  if negb (isWasteOrBlack t.(fluidTypeItem)) then 20 else (-1).

Definition fluidTypes : list string :=
  ["FUEL"; "FRESH WATER"; "WASTE WATER"; "LIVE WELL"; "OIL"; "BLACK WATER"].

Definition fluidColor : list string :=
  ["#1abc9c"; "#4aa3df"; "#95a5a6"; "#dcc6e0"; "#f1a9a0"; "#7f8c8d"].

(** [array[tank]]: [undefined] outside the array. *)
Definition index {A : Type} (array : list A) (tank : undefinedOr Z)
  : undefinedOr A :=
  match tank with
  | Some i => if (i <? 0)%Z then None else nth_error array (Z.to_nat i)
  | None => None
  end.

(** [root.color]. *)
Definition color (t : tile) : undefinedOr string :=
  if valid t.(fluidTypeItem) then index fluidColor t.(fluidTypeItem)
  else Some "#4aa3df".

(** [titleField.text]. *)
Definition titleText (t : tile) : undefinedOr string :=
  match t.(nameItem) with
  | Some (String _ _ as name) => Some name
  | _ =>
      if valid t.(fluidTypeItem) then index fluidTypes t.(fluidTypeItem)
      else Some "TANK ?"
  end.

(** [valueBar.width], [parent.width] being [root.width - 10]. *)
Definition valueBarWidth (t : tile) : number :=
  if (0 <=? num t.(levelItem))%float
  then (num t.(levelItem) / 100 * (t.(width) - 10) - 2)%float
  else 0.

(** [valueBar.color]. *)
Definition valueBarColor (t : tile) : string :=
  if ((fullWarningLevel t <=? num t.(levelItem))
      || (num t.(levelItem) <=? emptyWarningLevel t))%float
  then "#e74c3c" else "#34495e".

(** [valueBar.opacity]. *)
Definition valueBarOpacity (t : tile) : number :=
  if truthy_opt t.(connectedItem) then 1 else 0.2.

(** The text over the bar: tank fullness or error. *)
Definition statusText (t : tile) : string :=
  if negb (truthy_opt t.(connectedItem)) then "NO RESPONSE"
  else if (0 <=? num t.(levelItem))%float then
    t.(levelText) ++ " "
      ++ TankSensor.formatVolume t.(volumeUnit) t.(remainingItem)
  else "ERROR".

(** The colour of the text over the bar. *)
Definition statusColor (t : tile) : string :=
  if negb (truthy_opt t.(connectedItem)) then "red"
  else if (num t.(levelItem) <=? emptyWarningLevel t)%float then "red"
  else "white".

End TileTank.

(** ** The tank page (the [MbPage] that follows the tile in TileTank.qml) *)

Module PageTankSensor.
Import JS.

Record MbOption : Set := { description : string; value : Z }.

Definition fluidTypes : list MbOption := [
  {| description := "Fuel"; value := 0 |};
  {| description := "Fresh water"; value := 1 |};
  {| description := "Waste water"; value := 2 |};
  {| description := "Live well"; value := 3 |};
  {| description := "Oil"; value := 4 |};
  {| description := "Black water (sewage)"; value := 5 |}
].

(** The page's properties: the service's description and the bus items
    [/Mgmt/Connection], [/CustomName] and [/FluidType]. *)
Record page : Type := {
  serviceDescription : string;
  connection : undefinedOr string;
  customName : undefinedOr string;
  fluidType : undefinedOr Z
}.

(** The loop of [fluidTypeText], over the options left to visit. *)
Fixpoint fluidTypeTextFrom (options : list MbOption) (v : Z) : string :=
  match options with
  | [] => "Unknown"
  | option :: options' =>
      if (option.(value) =? v)%Z then option.(description)
      else fluidTypeTextFrom options' v
  end.

(** [fluidTypeText(value)]. *)
Definition fluidTypeText (v : Z) : string := fluidTypeTextFrom fluidTypes v.

(** [s.replace(/\D/g, '')]: the decimal digits of [s]. *)
Fixpoint digitsOnly (s : string) : string :=
  match s with
  | EmptyString => EmptyString
  | String c s' => if is_digit c then String c (digitsOnly s') else digitsOnly s'
  end.

(** The [inputNumberStr] of [getTitle]: the input number of the
    connection, in brackets, when it has one. *)
Definition inputNumberStr (p : page) : string :=
  let inputNumber :=
    match p.(connection) with
    | Some c => digitsOnly c
    | None => ""
    end in
  match inputNumber with
  | EmptyString => ""
  | _ => " (" ++ inputNumber ++ ")"
  end.


End PageTankSensor.

(** ** setup *)

Module Setup.

Inductive action : Set := NONE | INSTALL | UNINSTALL.

(** Venus files that need to be updated to activate the package. *)
Definition qmlDir : string := "/opt/victronenergy/gui/qml".
Definition overviewMobileFile : string := qmlDir ++ "/OverviewMobile.qml".
Definition reasonMessageFile : string := qmlDir ++ "/SystemReasonMessage.qml".

(** The version that obsoletes the package: from it on CommonResources sets
    [scriptAction] to [UNINSTALL] and prevents the installation. *)
Definition obsoleteVersion : string := "v2.70~12".

Definition packageLogFile : string := "/var/log/TankRepeater/current".

(** The settings store [com.victronenergy.settings], by path under
    [/Settings]. *)
Abbreviation settingsStore := (gmap string string).

Definition incomingTankService : string :=
  "Devices/TankRepeater/IncomingTankService".
Definition incomingTankProductId : string :=
  "Devices/TankRepeater/IncomingTankProductId".

(** The two lists handed to [RemoveSettings]. *)
Definition bindingSettings : list string :=
  [incomingTankService; incomingTankProductId].

Definition customNameSettings : list string := [
  "Devices/TankRepeater/Tank0/CustomName"; "Devices/TankRepeater/Tank1/CustomName";
  "Devices/TankRepeater/Tank2/CustomName"; "Devices/TankRepeater/Tank3/CustomName";
  "Devices/TankRepeater/Tank4/CustomName"; "Devices/TankRepeater/Tank5/CustomName";
  "Devices/TankRepeater/Tank6/CustomName"; "Devices/TankRepeater/Tank7/CustomName";
  "Devices/TankRepeater/Tank8/CustomName"; "Devices/TankRepeater/Tank9/CustomName";
  "Devices/TankRepeater/Tank10/CustomName"; "Devices/TankRepeater/Tank11/CustomName";
  "Devices/TankRepeater/Tank12/CustomName"; "Devices/TankRepeater/Tank13/CustomName"
].

(** [dbus -y com.victronenergy.settings /Settings RemoveSettings '%[...]']. *)
Definition removeSettings (paths : list string) (s : settingsStore)
  : settingsStore :=
  foldr (fun path acc => delete path acc) s paths.

(** What [dbus ... GetValue] prints for a setting, as the script takes it:
    the value between two quotes, the two quotes alone for an empty value;
    nothing for a setting that does not exist. *)
Definition getValue (path : string) (s : settingsStore) : string :=
  match s !! path with
  | Some value => "'" ++ value ++ "'"
  | None => ""
  end.

(** The characters of [IFS]: space, tab and newline. *)
Definition isIFS (c : ascii) : bool :=
  (Ascii.eqb c " " || Ascii.eqb c "009" || Ascii.eqb c "010")%bool.

(** A text cut at every character of [IFS]. *)
Fixpoint fields (s : string) : list string :=
  match s with
  | EmptyString => [EmptyString]
  | String c s' =>
      if isIFS c then EmptyString :: fields s'
      else match fields s' with
           | h :: t => String c h :: t
           | [] => [String c EmptyString]
           end
  end.

(** The words the shell makes of an expansion that is not quoted: its
    fields, the empty ones left out. *)
Definition words (s : string) : list string :=
  filter (fun w => negb (String.eqb w "")) (fields s).

(** The characters that make a word a pattern for the names of files. *)
Definition isGlob (c : ascii) : bool :=
  (Ascii.eqb c "*" || Ascii.eqb c "?" || Ascii.eqb c "[")%bool.

(** A word that the shell takes for a pattern, and replaces by the names of
    the files that match it, when there are any. *)
Definition isPattern (w : string) : bool :=
  existsb isGlob (list_ascii_of_string w).

Section Script.

(** Everything the script reaches through SetupHelper's CommonResources
    (which it sources and which is not part of this package): the shell
    variables, the file system, the services and the log. The helpers
    act on it; the settings store is reached through [dbus] only. *)
Context {host : Type}.
Variable scriptAction : host -> action.
Variables notCompatible filesUpdated : host -> bool.
Variable standardActionPrompt : host -> host.
Variable logMessage : string -> host -> host.
Variables updateActiveFile restoreActiveFile : string -> host -> host.
Variables installService removeService : string -> host -> host.
Variable setRestartGui : host -> host.
Variable packageName : string.

(** The [[] builtin where its answer depends on the files of the host: on
    words of which one is a pattern for the names of files, and on four words
    or more, which it reads as an expression whose primaries may look at the
    file system. *)
Variable testBuiltin : list string -> host -> bool.

Record system : Type := {
  settings : settingsStore;
  shell : host
}.

Definition onShell (f : host -> host) (st : system) : system :=
  {| settings := st.(settings); shell := f st.(shell) |}.

Definition onSettings (f : settingsStore -> settingsStore) (st : system)
  : system :=
  {| settings := f st.(settings); shell := st.(shell) |}.

(** Running manually and OK to proceed: prompt for input. *)
Definition prompt (st : system) : system :=
  match scriptAction st.(shell) with
  | NONE => onShell standardActionPrompt st
  | _ => st
  end.

Definition restartIfUpdated (st : system) : system :=
  if filesUpdated st.(shell) then onShell setRestartGui st else st.

(** The [INSTALL] branch. *)
Definition install (st : system) : system :=
  match scriptAction st.(shell) with
  | INSTALL =>
      let st := onShell (logMessage "++ Installing repeater") st in
      let st := onShell (updateActiveFile overviewMobileFile) st in
      let st := onShell (installService packageName) st in
      restartIfUpdated st
  | _ => st
  end.

(** The shell after the first two steps of the [UNINSTALL] branch. *)
Definition afterRemoveService (h : host) : host :=
  removeService packageName (logMessage "++ Uninstalling repeater" h).

(** [[ $serviceName != "''" ]], where [serviceName] is what [GetValue]
    printed and its expansion is not quoted, so that the shell cuts it into
    words. On one word the test compares it with the two quotes. With no word
    ([[ != "''" ]]) and with two the builtin fails with a syntax error, and
    the [if] takes it as false. Three words are an expression only when the
    second one is [-a] or [-o], the first one being a string that is not
    empty and the third one being compared with the two quotes. A word that
    is a pattern is first replaced by the names of the files it matches. *)
Definition serviceNameTest (st : system) : bool :=
  let ws := words (getValue incomingTankService st.(settings)) in
  if existsb isPattern ws then testBuiltin (ws ++ ["!="; "''"])%list st.(shell)
  else
    match ws with
    | [] => false
    | [word] => negb (String.eqb word "''")
    | [_; _] => false
    | [_; operator; word] =>
        if String.eqb operator "-a" then negb (String.eqb word "''")
        else String.eqb operator "-o"
    | several => testBuiltin (several ++ ["!="; "''"])%list st.(shell)
    end.

(** The [UNINSTALL] branch: [scriptAction] is read again, an install step
    that failed having set it. *)
Definition uninstall (st : system) : system :=
  match scriptAction st.(shell) with
  | UNINSTALL =>
      let st := onShell (logMessage "++ Uninstalling repeater") st in
      let st := onShell (removeService packageName) st in
      let st :=
        if notCompatible st.(shell) then
          let st :=
            onShell (logMessage "removing all TankRepeater dBus settings") st in
          onSettings (removeSettings (bindingSettings ++ customNameSettings)%list) st
        else
          let st :=
            if serviceNameTest st
            then onShell (logMessage "unhiding original Tank dBus service") st
            else st in
          onSettings (removeSettings bindingSettings) st in
      onShell (restoreActiveFile overviewMobileFile) st
  | _ => st
  end.

(** The script, up to [endScript]. *)
Definition setup (st : system) : system :=
  restartIfUpdated (uninstall (install (prompt st))).

End Script.

End Setup.

(** ** The tank registry of the repeater service *)

(** Modelled from the spec: the repeater service itself (the registry of
    section 4.3 and the coordinator's update path of section 4.6) is not among
    the package's files; the setup script only names its settings, for the
    slots [Tank0] to [Tank13]. *)
Module Registry.

(** Modelled from the spec: the registry's key type, "the stable identity
    extracted from an update", here the instance number of the feed. *)
Definition TankKey : Set := Z.

(** Modelled from the spec: the registry entry of section 3; its slot is its
    index in the registry. *)
Record RegistryEntry : Set := {
  key : TankKey;
  customName : string;
  lastSeenMonotonic : Z;
  connected : bool
}.

(** The fixed table of slot records, by slot number. *)
Abbreviation registry := (gmap nat RegistryEntry).

(** Modelled from the spec: the slots 0 to 13. *)
Definition slots : list nat := seq 0 14.

(** Modelled from the spec: the registry's one failure. *)
Inductive error : Set := CapacityExceeded.

(** Modelled from the spec: the slot holding [k], if any. *)
Definition slotOf (k : TankKey) (r : registry) : option nat :=
  find (fun i => match r !! i with
                 | Some e => (e.(key) =? k)%Z
                 | None => false
                 end) slots.

(** Modelled from the spec: the first free slot, if any ("a free slot (0-13)
    exists"; slots are given out from slot 0 on). *)
Definition freeSlot (r : registry) : option nat :=
  find (fun i => match r !! i with
                 | Some _ => false
                 | None => true
                 end) slots.

(** Modelled from the spec: [lookupOrCreate(key) -> (slot, created)], which
    "fails with CapacityExceeded when all 14 slots are occupied by different
    live keys and key is new". *)
Definition lookupOrCreate (k : TankKey) (now : Z) (r : registry)
  : error + (nat * bool * registry) :=
  match slotOf k r with
  | Some i => inr (i, false, r)
  | None =>
      match freeSlot r with
      | Some i =>
          inr (i, true,
               <[i := {| key := k; customName := ""; lastSeenMonotonic := now;
                         connected := true |}]> r)
      | None => inl CapacityExceeded
      end
  end.

(** Modelled from the spec: [touch(slot)] "refreshes lastSeenMonotonic", and
    the next successful touch "sets connected back to true". *)
Definition touch (i : nat) (now : Z) (r : registry) : registry :=
  alter (fun e => {| key := e.(key); customName := e.(customName);
                     lastSeenMonotonic := now; connected := true |}) i r.

(** Modelled from the spec: [remove(slot)], the explicit teardown. *)
Definition remove (i : nat) (r : registry) : registry := delete i r.

(** Modelled from the spec: the coordinator's state, that is the registry,
    the published level of each slot and whether the capacity warning has been
    surfaced. *)
Record coordinator : Type := {
  entries : registry;
  published : gmap nat Z;
  warned : bool
}.

(** Modelled from the spec: one incoming update, through registry, publisher
    and [touch]; on [CapacityExceeded] "the update is then dropped and a
    one-time warning surfaced upward". *)
Definition processUpdate (k : TankKey) (level : Z) (now : Z) (c : coordinator)
  : coordinator :=
  match lookupOrCreate k now c.(entries) with
  | inl CapacityExceeded =>
      {| entries := c.(entries); published := c.(published); warned := true |}
  | inr (i, _, r) =>
      {| entries := touch i now r;
         published := <[i := level]> c.(published);
         warned := c.(warned) |}
  end.

(** Modelled from the spec: [teardown(slot)] with the entry's removal. *)
Definition teardown (i : nat) (c : coordinator) : coordinator :=
  {| entries := remove i c.(entries);
     published := delete i c.(published);
     warned := c.(warned) |}.

End Registry.

(** ** The connection values (the [Item] that follows the tile in TileTank.qml) *)

Module TileConnection.
Import JS.

(** The [connection] property: the formatted powers ([power.format(0)] and
    the like, as the bus items format them) and the [phaseCount] item. *)
Record connection : Type := {
  power : string;
  powerL1 : string;
  powerL2 : string;
  powerL3 : string;
  phaseCount : undefinedOr number
}.

(** The text of the first [TileText]. *)
Definition powerText (c : undefinedOr connection) : string :=
  match c with
  | Some c => c.(power)
  | None => ""
  end.

(** The texts of the phase lines. *)
Definition textL1 (c : undefinedOr connection) : string :=
  match c with
  | Some c => "L1: " ++ c.(powerL1)
  | None => ""
  end.

Definition textL2 (c : undefinedOr connection) : string :=
  match c with
  | Some c => "L2: " ++ c.(powerL2)
  | None => ""
  end.

Definition textL3 (c : undefinedOr connection) : string :=
  match c with
  | Some c => "L3: " ++ c.(powerL3)
  | None => ""
  end.

(** [visible] of the line L1: [phaseCount.value > 1]. *)
Definition visibleL1 (c : undefinedOr connection) : bool :=
  match c with
  | Some c =>
      TileTank.valid c.(phaseCount) && (1 <? num c.(phaseCount))%float
  | None => false
  end.

(** [visible] of the line L2: [phaseCount.value >= 2]. *)
Definition visibleL2 (c : undefinedOr connection) : bool :=
  match c with
  | Some c =>
      TileTank.valid c.(phaseCount) && (2 <=? num c.(phaseCount))%float
  | None => false
  end.

(** [visible] of the line L3: [phaseCount.value >= 3]. *)
Definition visibleL3 (c : undefinedOr connection) : bool :=
  match c with
  | Some c =>
      TileTank.valid c.(phaseCount) && (3 <=? num c.(phaseCount))%float
  | None => false
  end.

End TileConnection.

(** ** PageTankSetup.qml: the capacity spin box *)

Module PageTankSetup.
Import JS.

(** The spin box and its bus item: the cached value of [/Capacity]
    ([undefined] when invalid), the value shown in the box, and the value
    last handed to [capacity.setValue], if any. The cached value changes when
    the bus reports a change, not when [setValue] is called. *)
Record capacityItem : Type := {
  capacity : undefinedOr number;
  localValue : number;
  written : undefinedOr number
}.

(** [update()]: from SI to the local value; 0.0 when undefined. *)
Definition update (volumeUnit : Z) (st : capacityItem) : capacityItem :=
  {| capacity := st.(capacity);
     localValue :=
       match st.(capacity) with
       | Some c => TankSensor.volumeConvertFromSI volumeUnit c
       | None => 0.0
       end;
     written := st.(written) |}.

(** [onExitEditMode]: to SI and to the bus item when [changed], then the
    local value back from the cached bus value. *)
Definition onExitEditMode (volumeUnit : Z) (changed : bool) (st : capacityItem)
  : capacityItem :=
  let st :=
    if changed then
      {| capacity := st.(capacity);
         localValue := st.(localValue);
         written := Some (TankSensor.volumeConvertToSI volumeUnit st.(localValue)) |}
    else st in
  update volumeUnit st.

(** [onValueChanged] of the bus item, the bus reporting the value [v]. *)
Definition onValueChanged (volumeUnit : Z) (v : undefinedOr number)
  (st : capacityItem) : capacityItem :=
  update volumeUnit
    {| capacity := v; localValue := st.(localValue); written := st.(written) |}.

(** [onValueChanged] of the volume unit: the unit is now [volumeUnit]. *)
Definition onUnitChanged (volumeUnit : Z) (st : capacityItem) : capacityItem :=
  update volumeUnit st.

(** The properties of the spin box that follow the unit. *)
Definition unit (volumeUnit : Z) : string :=
  (TankSensor.getVolumeFormat volumeUnit).(TankSensor.unit).
Definition stepSize (volumeUnit : Z) : number :=
  (TankSensor.getVolumeFormat volumeUnit).(TankSensor.stepSize).
Definition numOfDecimals (volumeUnit : Z) : nat :=
  (TankSensor.getVolumeFormat volumeUnit).(TankSensor.precision).

End PageTankSetup.

(** * The vocabulary of the properties *)

Section DisplayVocabulary.
Import JS.
Local Open Scope float_scope.

(** A tile that differs from [t] in its [/Connected] item only. *)
Definition withConnected (c : undefinedOr number) (t : TileTank.tile)
  : TileTank.tile :=
  {| TileTank.width := t.(TileTank.width);
     TileTank.remainingItem := t.(TileTank.remainingItem);
     TileTank.volumeUnit := t.(TileTank.volumeUnit);
     TileTank.levelItem := t.(TileTank.levelItem);
     TileTank.levelText := t.(TileTank.levelText);
     TileTank.fluidTypeItem := t.(TileTank.fluidTypeItem);
     TileTank.connectedItem := c;
     TileTank.nameItem := t.(TileTank.nameItem) |}.

(** A fresh-water tank at 55 %, with 50 litres left, that stopped
    answering. *)
Definition tile_example : TileTank.tile :=
  {| TileTank.width := 110;
     TileTank.remainingItem := Some 0.05;
     TileTank.volumeUnit := 1;
     TileTank.levelItem := Some 55;
     TileTank.levelText := "55%";
     TileTank.fluidTypeItem := Some 1%Z;
     TileTank.connectedItem := Some 0;
     TileTank.nameItem := Some ""%string |}.

(** The page of a fresh-water tank on the third analog input, without a
    custom name. *)
Definition page_example : PageTankSensor.page :=
  {| PageTankSensor.serviceDescription := "Tank sensor";
     PageTankSensor.connection := Some "Analog input 3"%string;
     PageTankSensor.customName := Some ""%string;
     PageTankSensor.fluidType := Some 1%Z |}.

End DisplayVocabulary.

Section SetupVocabulary.

(** A text that the shell leaves as one word: not empty, without a
    character of [IFS], and no pattern for the names of files. *)
Definition isWord (s : string) : bool :=
  negb (String.eqb s "")
  && forallb (fun c => negb (Setup.isIFS c)) (list_ascii_of_string s)
  && negb (Setup.isPattern s).

(** A compatible platform with a bound incoming service and a custom name for
    the first tank: the shell is its log, and its variables ask for an
    uninstall. *)
Definition installed_example : @Setup.system (list string) :=
  {| Setup.settings :=
       <[ "Devices/TankRepeater/Tank0/CustomName" := "Galley" ]>
         (<[ Setup.incomingTankService := "com.victronenergy.tank.seelevel" ]>
            (<[ Setup.incomingTankProductId := "41312" ]> ∅));
     Setup.shell := [] |}.

(** That platform after the [UNINSTALL] branch, the helpers doing nothing
    but logging. *)
Definition uninstalled_example : @Setup.system (list string) :=
  Setup.uninstall (fun _ => Setup.UNINSTALL) (fun _ => false)
    (fun message log => message :: log) (fun _ log => log) (fun _ log => log)
    "TankRepeater" (fun _ _ => false) installed_example.

End SetupVocabulary.

Section RegistryVocabulary.
Import Registry.

(** Every slot is taken, by a key other than [k]. *)
Definition fullWithout (k : TankKey) (r : gmap nat RegistryEntry) : Prop :=
  forall i : nat, i < 14 -> exists e, r !! i = Some e /\ e.(key) <> k.

(** Fourteen tanks, keyed 0 to 13, each in the slot of its number. *)
Definition full_example : gmap nat RegistryEntry :=
  list_to_map
    (map (fun i => (i, {| key := Z.of_nat i; customName := "";
                          lastSeenMonotonic := 0; connected := true |}))
       slots).

End RegistryVocabulary.

Section ShapeVocabulary.
Import JS TankSensor PageTankShapeAddPoint.

(** No character of [s] is [sep]. *)
Fixpoint lacks (sep : ascii) (s : string) : bool :=
  match s with
  | EmptyString => true
  | String c s' => negb (Ascii.eqb c sep) && lacks sep s'
  end.

(** [c] occurs in [s]. *)
Fixpoint occurs (c : ascii) (s : string) : bool :=
  match s with
  | EmptyString => false
  | String d s' => Ascii.eqb c d || occurs c s'
  end.

(** Every character of [s] occurs in [alphabet]. *)
Fixpoint over (alphabet s : string) : bool :=
  match s with
  | EmptyString => true
  | String c s' => occurs c alphabet && over alphabet s'
  end.

(** The characters [ToString] writes a number with. *)
Definition numeric : string := "0123456789.e+-NaInfity".

(** [x] is read back from its own text. *)
Definition roundTrips (x : number) : Prop := toNumber (toString x) = x.

(** A [level, volume] pair. *)
Definition isPair (point : list number) : Prop :=
  exists level volume : number, point = [level; volume].

(** The text of one point. *)
Definition pointToString (point : list number) : string :=
  join ":" (map toString point).

(** Reading a number back from its text, as a test. *)
Definition readsBack (x : number) : bool :=
  Leibniz.eqb (toNumber (toString x)) x.

(** A point of whole percentages, and the array element it stands for. *)
Definition pointOf (p : Z * Z) : list number := [of_Z (fst p); of_Z (snd p)].

(** Both coordinates are integers from 1 to 99. *)
Definition inRange (p : Z * Z) : Prop :=
  (1 <= fst p <= 99)%Z /\ (1 <= snd p <= 99)%Z.

(** [q] is above [p] in sensor level and in volume. *)
Definition below (p q : Z * Z) : Prop :=
  (fst p < fst q)%Z /\ (snd p < snd q)%Z.

(** The shape invariant: coordinates in range, and the sequence strictly
    increasing in both coordinates. *)
Definition validShape (zs : list (Z * Z)) : Prop :=
  Forall inRange zs /\ Sorted below zs.

(** The [/Shape] item holds the points [zs]. *)
Definition holds (shapeItem : undefinedOr string) (zs : list (Z * Z)) : Prop :=
  stringToPointArray shapeItem = map pointOf zs.

(** What the edit boxes of the add-point page can hold: at most two
    characters ([maximumLength]), decimal digits only ([matchString]). *)
Definition isEditBoxText (s : string) : bool :=
  (String.length s <=? 2)%nat && over "0123456789" s.

(** The number an edit-box text stands for. *)
Definition editBoxValue (s : string) : Z := Z.of_N (fst (fst (read_digits s 0 0))).

(** [p] put before the first point of a higher level. *)
Fixpoint insertByLevel (p : Z * Z) (zs : list (Z * Z)) : list (Z * Z) :=
  match zs with
  | [] => [p]
  | q :: zs' =>
      if (fst p <? fst q)%Z then p :: q :: zs' else q :: insertByLevel p zs'
  end.

(** What the installer does on the custom-shape page. *)
Inductive operation : Set :=
| Add (level volume : string)
| Remove (currentIndex : Z).

(** The texts come from the edit boxes. *)
Definition fromEditBoxes (o : operation) : Prop :=
  match o with
  | Add level volume => isEditBoxText level = true /\ isEditBoxText volume = true
  | Remove _ => True
  end.

(** The value of the [/Shape] item after an operation. *)
Definition perform (shapeItem : undefinedOr string) (o : operation)
  : undefinedOr string :=
  match o with
  | Add level volume => PageTankShape.addThroughPages shapeItem level volume
  | Remove currentIndex => Some (PageTankShape.removePoint shapeItem currentIndex)
  end.

(** The [/Shape] item holds a valid shape of at most 10 points. *)
Definition editorInvariant (shapeItem : undefinedOr string) : Prop :=
  exists zs : list (Z * Z),
    holds shapeItem zs /\ validShape zs /\ (length zs <= 10)%nat.

End ShapeVocabulary.

Section DisplayExamples.
Import JS.

(** No character of [s] is a decimal digit. *)
Fixpoint noDigit (s : string) : bool :=
  match s with
  | EmptyString => true
  | String c s' => negb (is_digit c) && noDigit s'
  end.

(** A tile on which only the fluid type and the level matter. *)
Definition tileOf (fluidType : undefinedOr Z) (level : undefinedOr number)
  : TileTank.tile :=
  {| TileTank.width := 110;
     TileTank.remainingItem := Some 0.05%float;
     TileTank.volumeUnit := 1;
     TileTank.levelItem := level;
     TileTank.levelText := "";
     TileTank.fluidTypeItem := fluidType;
     TileTank.connectedItem := Some 1%float;
     TileTank.nameItem := None |}.

(** A three-phase connection. *)
Definition connection_example : TileConnection.connection :=
  {| TileConnection.power := "1200W";
     TileConnection.powerL1 := "400W";
     TileConnection.powerL2 := "500W";
     TileConnection.powerL3 := "300W";
     TileConnection.phaseCount := Some 3%float |}.

End DisplayExamples.

Section ShapeTextVocabulary.
Import JS TankSensor.

(** [t] is written the way [ToString] writes the number it stands for. *)
Definition canonicalText (t : string) : Prop := toString (toNumber t) = t.

(** The number of characters [c] in [s]. *)
Fixpoint countChar (c : ascii) (s : string) : nat :=
  match s with
  | EmptyString => 0
  | String d s' => if Ascii.eqb d c then S (countChar c s') else countChar c s'
  end.

End ShapeTextVocabulary.

Section SetupExamples.

(** A spin box that shows 0.25 over a cached capacity of 0.2 cubic metres. *)
Definition capacity_example : PageTankSetup.capacityItem :=
  {| PageTankSetup.capacity := Some 0.2%float;
     PageTankSetup.localValue := 0.25%float;
     PageTankSetup.written := None |}.

(** The script run for an install on [installed_example], the helpers doing
    nothing but logging. *)
Definition reinstalled_example : @Setup.system (list string) :=
  Setup.setup (fun _ => Setup.INSTALL) (fun _ => false) (fun _ => true)
    (fun log => log) (fun message log => message :: log)
    (fun _ log => log) (fun _ log => log) (fun _ log => log) (fun _ log => log)
    (fun log => log) "TankRepeater" (fun _ _ => false) installed_example.

End SetupExamples.

Section RoundingVocabulary.
Import JS.
Local Open Scope R_scope.

(** Powers of two and of ten, as real numbers. *)
Definition bpow (e : Z) : R := powerRZ 2 e.

Definition p10 (e : Z) : R := powerRZ 10 e.

(** The record [(m, r, s)] at the number [y]: [m] is its integer part, and
    the round and sticky bits tell where [y] lies between [m] and [m + 1]. *)
Definition inbits (y : R) (m : Z) (r s : bool) : Prop :=
  (0 <= m)%Z /\ IZR m <= y < IZR m + 1
  /\ match r, s with
     | false, false => y = IZR m
     | false, true => IZR m < y < IZR m + / 2
     | true, false => y = IZR m + / 2
     | true, true => IZR m + / 2 < y
     end.

(** The shift record [mrs] stands for the number [v] at the exponent [E]. *)
Definition stands (v : R) (E : Z) (mrs : shr_record) : Prop :=
  inbits (v * bpow (- E)) (shr_m mrs) (shr_r mrs) (shr_s mrs).

(** The second half of [binary_round_aux]: rounding the record to the
    nearest integer, ties to even, and the result. *)
Definition finish (sx : bool) (mrs : shr_record) (e : Z) : spec_float :=
  let '(mrs'', e'') :=
    shr_fexp prec emax
      (round_nearest_even (shr_m mrs) (loc_of_shr_record mrs)) e loc_Exact in
  match shr_m mrs'' with
  | Z0 => S754_zero sx
  | Zpos m => if (e'' <=? emax - prec)%Z then S754_finite sx m e''
              else S754_infinity sx
  | Zneg _ => S754_nan
  end.

(** The exponent at which the number [v] is rounded. *)
Definition target (v : R) (t : Z) : Prop :=
  (v < bpow (-1074) /\ t = (-1074)%Z)
  \/ exists L : Z, bpow (L - 1) <= v < bpow L /\ t = fexp prec emax L.

(** [x] is the Number that the positive real [v], with the sign [neg], is
    rounded to. *)
Definition rounds (v : R) (neg : bool) (x : float) : Prop :=
  exists (t : Z) (mrs : shr_record),
    target v t /\ stands v t mrs /\ x = SF2Prim (finish neg mrs t).

(** [num / den] is in the decade from [10^(n0-1)] to [10^n0]. *)
Definition inDecade (num den : positive) (n0 : Z) : Prop :=
  IZR (Zpos den) * p10 (n0 - 1) <= IZR (Zpos num) < IZR (Zpos den) * p10 n0.

(** The digits [fst r], [k] of them, with the exponent [snd r], read back
    as [x]. *)
Definition reads (x : number) (k : Z) (r : N * Z) : Prop :=
  of_decimal false (fst r) (snd r - k) = x
  /\ (10 ^ (k - 1) <= Z.of_N (fst r) < 10 ^ k)%Z.

(** The real number a Number stands for; 0 for the infinities and NaN. *)
Definition valueOf (x : number) : R :=
  match Prim2SF x with
  | S754_finite s m e => (if s then - IZR (Zpos m) else IZR (Zpos m)) * bpow e
  | _ => 0
  end.

End RoundingVocabulary.

Section TextVocabulary.
Import JS.

(** The value of a run of digits, after the digits of [acc]. *)
Fixpoint horner (s : string) (acc : N) : N :=
  match s with
  | String c s' => horner s' (acc * 10 + digit_value c)%N
  | EmptyString => acc
  end.

(** Every character of [s] is a decimal digit. *)
Fixpoint all_digits (s : string) : bool :=
  match s with
  | String c s' => is_digit c && all_digits s'
  | EmptyString => true
  end.

(** What is left of a numeral after its digits: nothing, or an exponent
    part. *)
Definition exponentText (ex : string) : Prop :=
  ex = "" \/ exists t : string, ex = String "e" t.

(** The digits of an integer: "0", or digits that do not start with 0. *)
Definition decimalInteger (ip : string) : Prop :=
  all_digits ip = true
  /\ (ip = "0" \/ exists (c : ascii) (s : string), ip = String c s /\ c <> "0"%char).

(** A number with the sign of a zero dropped: what [ToString] keeps of it. *)
Definition unsignedZero (x : number) : number :=
  if (x =? 0)%float then 0%float else x.

End TextVocabulary.

(** * Properties *)

(** ** The number conversions, on examples *)

Section Conversions.
Import JS.
Local Open Scope float_scope.

Example toNumber_examples :
  map toNumber ["12"; " 0.5 "; ""; "abc"; "1e3"; ".5"; "0x1F"; "-Infinity"; "1 2"]%string
  = [12; 0.5; 0; nan; 1000; 0.5; 31; neg_infinity; nan].
Proof. vm_compute. reflexivity. Qed.

Example toString_examples :
  map toString [0.1; 100; -12.5; 1e21; 1.5e-7; 0.000001; 0.1 + 0.2; nan; infinity]
  = ["0.1"; "100"; "-12.5"; "1e+21"; "1.5e-7"; "0.000001"; "0.30000000000000004";
     "NaN"; "Infinity"]%string.
Proof. vm_compute. reflexivity. Qed.

Example toFixed_examples :
  [toFixed 0.5 0; toFixed 2.5 0; toFixed 1.005 2; toFixed 0.05 3; toFixed (-0.4) 0;
   toFixed 999.9996 3; toFixed 1e21 3; toFixed nan 0]
  = ["1"; "3"; "1.00"; "0.050"; "-0"; "1000.000"; "1e+21"; "NaN"]%string.
Proof. vm_compute. reflexivity. Qed.

End Conversions.

(** ** Volume formats and conversions *)

Section VolumeFormat.
Import JS TankSensor.
Local Open Scope float_scope.

(** C2. [getVolumeFormat] is a fixed table: litre (1) has factor 1000,
    precision 0 and step 1; imperial gallon (2) factor 219.969157, precision
    0, step 1; US gallon (3) factor 264.172052, precision 0, step 1; every
    other selector (cubic metre) factor 1, precision 3, step 0.005. The two
    conversions divide, respectively multiply, by that factor, for every
    selector and every number. *)
Theorem getVolumeFormat_table :
  getVolumeFormat 1 =
    {| precision := 0; stepSize := 1; unit := "L"; factor := 1000 |}
  /\ getVolumeFormat 2 =
    {| precision := 0; stepSize := 1; unit := "gal"; factor := 219.969157 |}
  /\ getVolumeFormat 3 =
    {| precision := 0; stepSize := 1; unit := "gal"; factor := 264.172052 |}
  /\ (forall u : Z,
        u = 1%Z \/ u = 2%Z \/ u = 3%Z
        \/ getVolumeFormat u =
             {| precision := 3; stepSize := 0.005; unit := "m<sup>3</sup>";
                factor := 1 |})
  /\ (forall (u : Z) (v : number),
        volumeConvertToSI u v = v / (getVolumeFormat u).(factor))
  /\ (forall (u : Z) (v : number),
        volumeConvertFromSI u v = v * (getVolumeFormat u).(factor)).
Proof.
  repeat split.
  intros u.
  destruct u as [|p|p]; [tauto| |tauto].
  destruct p as [[p|p|]|[p|p|]|]; tauto.
Qed.

Example formatVolume_litres : formatVolume 1 (Some 0.05) = "50L"%string.
Proof. vm_compute. reflexivity. Qed.

Example formatVolume_cubic_metres :
  formatVolume 0 (Some 0.05) = "0.050m<sup>3</sup>"%string.
Proof. vm_compute. reflexivity. Qed.

Example formatVolume_gallons : formatVolume 3 (Some 0.05) = "13gal"%string.
Proof. vm_compute. reflexivity. Qed.

End VolumeFormat.

(** ** The tank tile and the tank page *)

Section Display.
Import JS.
Local Open Scope float_scope.

(** C5. A tile whose [/Connected] value is 0 reads "NO RESPONSE" in red, and
    its level bar is still drawn from [/Level]: dimmed to opacity 0.2, with
    the width and the colour it has when the tank is connected. *)
Theorem tile_no_response :
  forall t : TileTank.tile,
    t.(TileTank.connectedItem) = Some 0 ->
    TileTank.statusText t = "NO RESPONSE"%string
    /\ TileTank.statusColor t = "red"%string
    /\ TileTank.valueBarOpacity t = 0.2
    /\ TileTank.valueBarWidth t =
         TileTank.valueBarWidth (withConnected (Some 1) t)
    /\ TileTank.valueBarColor t =
         TileTank.valueBarColor (withConnected (Some 1) t)
    /\ TileTank.valueBarWidth t =
         (if 0 <=? num t.(TileTank.levelItem)
          then num t.(TileTank.levelItem) / 100 * (t.(TileTank.width) - 10) - 2
          else 0).
Proof.
  intros t Hc.
  unfold TileTank.statusText, TileTank.statusColor, TileTank.valueBarOpacity.
  rewrite Hc. repeat split.
Qed.

Lemma tile_no_response_witness :
  TileTank.statusText tile_example = "NO RESPONSE"%string
  /\ TileTank.valueBarOpacity tile_example = 0.2
  /\ TileTank.valueBarWidth tile_example = 53.000000000000007
  /\ TileTank.statusText (withConnected (Some 1) tile_example) = "55% 50L"%string.
Proof.
  pose proof (tile_no_response tile_example eq_refl) as H.
  split; [apply H|]. split; [apply H|]. split; vm_compute; reflexivity.
Defined.

(** A tank that never answered has an undefined [/Connected]: the status
    text is the same. *)
Lemma tile_no_response_undefined :
  forall t : TileTank.tile,
    t.(TileTank.connectedItem) = None ->
    TileTank.statusText t = "NO RESPONSE"%string.
Proof.
  intros t Hc. unfold TileTank.statusText. rewrite Hc. reflexivity.
Qed.

(** C6. [fluidTypeText] is defined on every integer code, and a code outside
    0 to 5 gives "Unknown". *)
Theorem fluidTypeText_unknown :
  forall v : Z,
    (v < 0 \/ 5 < v)%Z ->
    PageTankSensor.fluidTypeText v = "Unknown"%string.
Proof.
  intros v Hv.
  unfold PageTankSensor.fluidTypeText, PageTankSensor.fluidTypes.
  cbn [PageTankSensor.fluidTypeTextFrom PageTankSensor.value
       PageTankSensor.description].
  repeat match goal with
         | |- context [(?c =? v)%Z] =>
             destruct (Z.eqb_spec c v) as [E|_]; [exfalso; lia|]
         end.
  reflexivity.
Qed.

Lemma fluidTypeText_unknown_witness :
  PageTankSensor.fluidTypeText 6 = "Unknown"%string
  /\ PageTankSensor.fluidTypeText (-1) = "Unknown"%string.
Proof.
  split; apply fluidTypeText_unknown; lia.
Defined.

(** The enumerated codes have their own texts. *)
Lemma fluidTypeText_enumerated :
  map PageTankSensor.fluidTypeText [0; 1; 2; 3; 4; 5]%Z =
    ["Fuel"; "Fresh water"; "Waste water"; "Live well"; "Oil";
     "Black water (sewage)"]%string.
Proof. reflexivity. Qed.




End Display.

(** ** The setup script *)

Section SetupProperties.
Context {host : Type}.
Variable scriptAction : host -> Setup.action.
Variable notCompatible : host -> bool.
Variable logMessage : string -> host -> host.
Variable restoreActiveFile : string -> host -> host.
Variable removeService : string -> host -> host.
Variable packageName : string.
Variable testBuiltin : list string -> host -> bool.

Lemma removeSettings_lookup :
  forall (paths : list string) (s : gmap string string) (path : string),
    Setup.removeSettings paths s !! path =
      if decide (path ∈ paths) then None else s !! path.
Proof.
  induction paths as [|p paths IH]; intros s path; cbn [Setup.removeSettings foldr].
  - destruct (decide (path ∈ [])) as [Hin|_]; [inversion Hin|reflexivity].
  - fold (Setup.removeSettings paths s).
    destruct (decide (p = path)) as [->|Hne].
    + rewrite lookup_delete_eq.
      destruct (decide (path ∈ path :: paths)) as [_|Hn]; [reflexivity|].
      exfalso. apply Hn. left.
    + rewrite lookup_delete_ne by assumption. rewrite IH.
      destruct (decide (path ∈ paths)) as [Hin|Hnin];
        destruct (decide (path ∈ p :: paths)) as [Hin'|Hnin']; try reflexivity.
      * exfalso. apply Hnin'. right. assumption.
      * exfalso. inversion Hin'; subst; [congruence|contradiction].
Qed.

(** A text without a character of [IFS] is one field. *)
Lemma fields_one :
  forall s : string,
    forallb (fun c => negb (Setup.isIFS c)) (list_ascii_of_string s) = true ->
    Setup.fields s = [s].
Proof.
  induction s as [|c s IH]; [reflexivity|].
  cbn [list_ascii_of_string forallb Setup.fields]. intros H.
  apply andb_true_iff in H as [Hc Hs]. apply negb_true_iff in Hc.
  rewrite Hc, (IH Hs). reflexivity.
Qed.

Lemma isPattern_quoted :
  forall name : string,
    Setup.isPattern name = false -> Setup.isPattern (name ++ "'") = false.
Proof.
  unfold Setup.isPattern.
  induction name as [|c name IH]; [reflexivity|].
  change (String c name ++ "'") with (String c (name ++ "'")).
  cbn [list_ascii_of_string existsb]. intros H.
  apply orb_false_iff in H as [Hc Hname]. rewrite Hc. apply IH. exact Hname.
Qed.

(** What [GetValue] prints for a value that is one word is one word, other
    than the two quotes, and no pattern. *)
Lemma words_quoted :
  forall name : string,
    isWord name = true ->
    Setup.words ("'" ++ name ++ "'") = ["'" ++ name ++ "'"]
    /\ String.eqb ("'" ++ name ++ "'") "''" = false
    /\ existsb Setup.isPattern ["'" ++ name ++ "'"] = false.
Proof.
  intros name H. unfold isWord in H. apply andb_true_iff in H as [H Hpat].
  apply andb_true_iff in H as [Hne Hifs]. apply negb_true_iff in Hpat.
  assert (Hall : forallb (fun c => negb (Setup.isIFS c))
                   (list_ascii_of_string ("'" ++ name ++ "'")) = true).
  { change ("'" ++ name ++ "'") with (String "'" (name ++ "'")).
    cbn [list_ascii_of_string forallb]. apply andb_true_iff. split; [reflexivity|].
    clear Hne Hpat. induction name as [|c name IH]; [reflexivity|].
    cbn [list_ascii_of_string forallb] in Hifs.
    apply andb_true_iff in Hifs as [Hc Hifs].
    change (String c name ++ "'") with (String c (name ++ "'")).
    cbn [list_ascii_of_string forallb]. rewrite Hc. apply IH. exact Hifs. }
  assert (Hq : existsb Setup.isPattern ["'" ++ name ++ "'"] = false).
  { cbn [existsb]. rewrite orb_false_r.
    change ("'" ++ name ++ "'") with (String "'" (name ++ "'")).
    pose proof (isPattern_quoted name Hpat) as Hn. unfold Setup.isPattern in *.
    cbn [list_ascii_of_string existsb]. rewrite Hn. reflexivity. }
  destruct name as [|c name]; [discriminate Hne|].
  split; [|split; [|exact Hq]].
  - unfold Setup.words. rewrite (fields_one _ Hall). reflexivity.
  - change ("'" ++ String c name ++ "'") with (String "'" (String c (name ++ "'"))).
    cbn [String.eqb]. rewrite Ascii.eqb_refl.
    destruct (Ascii.eqb c "'"); [|reflexivity].
    destruct name; reflexivity.
Qed.

Local Abbreviation afterRemoveService :=
  (Setup.afterRemoveService logMessage removeService packageName).

(** C4, as the script has it. The [UNINSTALL] branch, from any state, removes
    the service, deletes the [IncomingTankService] / [IncomingTankProductId]
    binding and restores the overview page. When the platform is no longer
    compatible it also deletes the [CustomName] settings of the 14 tanks, and
    the only line it logs after the removal of the service is the one about
    removing all settings: nothing is logged about the original service. On
    a compatible platform every setting other than the binding, the custom
    names included, is kept, and the unhiding of the original service is
    logged when the test of the service name succeeds: it does for a bound
    name that is one word and no pattern for the names of files, and it does
    not for an empty name or a setting that does not exist. *)
Theorem uninstall_settings :
  forall st : Setup.system,
    scriptAction st.(Setup.shell) = Setup.UNINSTALL ->
    let st' :=
      Setup.uninstall scriptAction notCompatible logMessage restoreActiveFile
        removeService packageName testBuiltin st in
    let h := afterRemoveService st.(Setup.shell) in
    (forall path, path ∈ Setup.bindingSettings ->
                  st'.(Setup.settings) !! path = None)
    /\ (notCompatible h = true ->
        (forall path, path ∈ Setup.customNameSettings ->
                      st'.(Setup.settings) !! path = None)
        /\ st'.(Setup.shell) =
             restoreActiveFile Setup.overviewMobileFile
               (logMessage "removing all TankRepeater dBus settings" h))
    /\ (notCompatible h = false ->
        (forall path, path ∉ Setup.bindingSettings ->
                      st'.(Setup.settings) !! path = st.(Setup.settings) !! path)
        /\ st'.(Setup.shell) =
             restoreActiveFile Setup.overviewMobileFile
               (if Setup.serviceNameTest testBuiltin
                     {| Setup.settings := st.(Setup.settings); Setup.shell := h |}
                then logMessage "unhiding original Tank dBus service" h
                else h)
        /\ (forall name : string,
              st.(Setup.settings) !! Setup.incomingTankService = Some name ->
              isWord name = true ->
              st'.(Setup.shell) =
                restoreActiveFile Setup.overviewMobileFile
                  (logMessage "unhiding original Tank dBus service" h))
        /\ (st.(Setup.settings) !! Setup.incomingTankService = None
            \/ st.(Setup.settings) !! Setup.incomingTankService = Some "" ->
            st'.(Setup.shell) = restoreActiveFile Setup.overviewMobileFile h)).
Proof.
  intros st Hact st' h. subst st' h. unfold Setup.uninstall. rewrite Hact.
  cbn [Setup.onShell Setup.shell Setup.settings].
  fold (afterRemoveService st.(Setup.shell)).
  destruct (notCompatible (afterRemoveService st.(Setup.shell))) eqn:Hnc.
  - cbn [Setup.onShell Setup.onSettings Setup.shell Setup.settings].
    split; [|split; [intros _; split|discriminate]].
    + intros path Hin. rewrite removeSettings_lookup.
      destruct (decide _) as [_|Hn]; [reflexivity|].
      exfalso. apply Hn. apply elem_of_app. left. assumption.
    + intros path Hin. rewrite removeSettings_lookup.
      destruct (decide _) as [_|Hn]; [reflexivity|].
      exfalso. apply Hn. apply elem_of_app. right; assumption.
    + reflexivity.
  - set (tested := {| Setup.settings := Setup.settings st;
                      Setup.shell := afterRemoveService (Setup.shell st) |}).
    change (Setup.onShell (removeService packageName)
              (Setup.onShell (logMessage "++ Uninstalling repeater") st))
      with tested.
    split; [|split; [discriminate|intros _; split; [|split; [|split]]]].
    + intros path Hin.
      destruct (Setup.serviceNameTest testBuiltin tested); subst tested;
        cbn [Setup.onShell Setup.onSettings Setup.shell Setup.settings];
        rewrite removeSettings_lookup;
        (destruct (decide _) as [_|Hn]; [reflexivity|contradiction]).
    + intros path Hnin.
      destruct (Setup.serviceNameTest testBuiltin tested); subst tested;
        cbn [Setup.onShell Setup.onSettings Setup.shell Setup.settings];
        rewrite removeSettings_lookup;
        (destruct (decide _) as [Hin|_]; [contradiction|reflexivity]).
    + destruct (Setup.serviceNameTest testBuiltin tested); reflexivity.
    + intros name Hname Hword.
      assert (Htest : Setup.serviceNameTest testBuiltin tested = true).
      { unfold Setup.serviceNameTest, Setup.getValue. cbn [tested Setup.settings].
        rewrite Hname. cbv zeta.
        destruct (words_quoted name Hword) as (-> & Hne & ->).
        rewrite Hne. reflexivity. }
      rewrite Htest. reflexivity.
    + intros Hnone.
      assert (Htest : Setup.serviceNameTest testBuiltin tested = false).
      { unfold Setup.serviceNameTest, Setup.getValue. cbn [tested Setup.settings].
        destruct Hnone as [-> | ->]; reflexivity. }
      rewrite Htest. reflexivity.
Qed.

End SetupProperties.

(** The custom-name settings are those of the slots 0 to 13. *)
Lemma customNameSettings_slots :
  Setup.customNameSettings =
    map (fun slot => "Devices/TankRepeater/Tank" ++ JS.digits_of (N.of_nat slot)
                     ++ "/CustomName")
      Registry.slots.
Proof. vm_compute. reflexivity. Qed.

(** C4, counterexample: on a compatible platform the uninstall leaves the
    custom name of tank 0 in the settings store. *)
Lemma uninstall_keeps_custom_name :
  uninstalled_example.(Setup.settings) !! "Devices/TankRepeater/Tank0/CustomName"
    = Some "Galley"
  /\ uninstalled_example.(Setup.settings) !! Setup.incomingTankService = None
  /\ uninstalled_example.(Setup.shell) =
       ["unhiding original Tank dBus service"; "++ Uninstalling repeater"].
Proof. vm_compute. repeat split. Qed.

(** A bound name of two words: the test fails on its four words, whatever
    the builtin makes of longer expressions, and nothing is logged about the
    original service. *)
Lemma uninstall_of_split_name :
  (Setup.uninstall (fun _ => Setup.UNINSTALL) (fun _ => false)
     (fun message log => message :: log) (fun _ log => log) (fun _ log => log)
     "TankRepeater" (fun _ _ => true)
     {| Setup.settings := <[ Setup.incomingTankService := "tank sender" ]> ∅;
        Setup.shell := [] |}).(Setup.shell)
  = ["++ Uninstalling repeater"].
Proof. vm_compute. reflexivity. Qed.

Lemma uninstall_settings_witness :
  uninstalled_example.(Setup.settings) !! Setup.incomingTankProductId = None
  /\ uninstalled_example.(Setup.settings) !! "Devices/TankRepeater/Tank0/CustomName"
     = installed_example.(Setup.settings) !! "Devices/TankRepeater/Tank0/CustomName".
Proof.
  destruct (uninstall_settings (fun _ => Setup.UNINSTALL) (fun _ => false)
              (fun message log => message :: log) (fun _ log => log)
              (fun _ log => log) "TankRepeater" (fun _ _ => false)
              installed_example eq_refl)
    as (Hbinding & _ & Hkept).
  split.
  - apply Hbinding. right. left.
  - apply Hkept; [reflexivity|].
    intros Hin. apply list_elem_of_In in Hin. cbn in Hin.
    destruct Hin as [H|[H|[]]]; discriminate H.
Defined.

(** ** The tank registry *)

Section RegistryProperties.
Import Registry.

Lemma find_all_false :
  forall (A : Type) (f : A -> bool) (l : list A),
    (forall x, In x l -> f x = false) -> find f l = None.
Proof.
  intros A f l. induction l as [|x l IH]; intros H; [reflexivity|].
  cbn [find]. rewrite (H x (or_introl eq_refl)).
  apply IH. intros y Hy. apply H. right. assumption.
Qed.

Lemma find_seq_first :
  forall (f : nat -> bool) (n a i : nat),
    a <= i < a + n -> f i = true ->
    (forall j, a <= j < i -> f j = false) ->
    find f (seq a n) = Some i.
Proof.
  intros f n. induction n as [|n IH]; intros a i Hi Hf Hbefore; [lia|].
  cbn [seq find].
  destruct (Nat.eq_dec a i) as [->|Hne].
  - rewrite Hf. reflexivity.
  - rewrite (Hbefore a) by lia. apply IH; [lia|assumption|].
    intros j Hj. apply Hbefore. lia.
Qed.

Lemma in_slots : forall i : nat, In i slots <-> i < 14.
Proof.
  intros i. unfold slots. rewrite in_seq. lia.
Qed.

(** C3. With the 14 slots taken by other keys, [lookupOrCreate] of a new key
    fails with [CapacityExceeded], and the update leaves the registry and the
    published slots as they were; once a slot has been freed by teardown, the
    new key is accepted, in that slot, its update is published, and the other
    slots are untouched. *)
Theorem registry_capacity :
  forall (r : gmap nat RegistryEntry) (k : TankKey) (now : Z),
    fullWithout k r ->
    lookupOrCreate k now r = inl CapacityExceeded
    /\ (forall (c : coordinator) (level : Z),
          c.(entries) = r ->
          (processUpdate k level now c).(entries) = r
          /\ (processUpdate k level now c).(published) = c.(published))
    /\ (forall i : nat,
          i < 14 ->
          exists r' : gmap nat RegistryEntry,
            lookupOrCreate k now (remove i r) = inr (i, true, r')
            /\ (exists e, r' !! i = Some e /\ e.(key) = k)
            /\ (forall j : nat, j <> i -> r' !! j = r !! j))
    /\ (forall (c : coordinator) (level : Z) (i : nat),
          c.(entries) = r -> i < 14 ->
          let c' := processUpdate k level now (teardown i c) in
          (exists e, c'.(entries) !! i = Some e /\ e.(key) = k)
          /\ c'.(published) !! i = Some level
          /\ (forall j : nat, j <> i -> c'.(entries) !! j = r !! j)).
Proof.
  intros r k now Hfull.
  assert (Hslot : slotOf k r = None).
  { apply find_all_false. intros i Hi. apply in_slots in Hi.
    destruct (Hfull i Hi) as (e & -> & Hk).
    apply Z.eqb_neq. exact Hk. }
  assert (Hfree : freeSlot r = None).
  { apply find_all_false. intros i Hi. apply in_slots in Hi.
    destruct (Hfull i Hi) as (e & -> & _). reflexivity. }
  assert (Hfail : lookupOrCreate k now r = inl CapacityExceeded).
  { unfold lookupOrCreate. rewrite Hslot, Hfree. reflexivity. }
  assert (Hafter : forall i : nat,
             i < 14 ->
             lookupOrCreate k now (remove i r) =
               inr (i, true,
                    <[i := {| key := k; customName := ""; lastSeenMonotonic := now;
                              connected := true |}]> (delete i r))).
  { intros i Hi. unfold remove.
    assert (Hslot' : slotOf k (delete i r) = None).
    { apply find_all_false. intros j Hj. apply in_slots in Hj.
      destruct (Nat.eq_dec i j) as [->|Hne].
      - rewrite lookup_delete_eq. reflexivity.
      - rewrite lookup_delete_ne by assumption.
        destruct (Hfull j Hj) as (e & -> & Hk). apply Z.eqb_neq. exact Hk. }
    assert (Hfree' : freeSlot (delete i r) = Some i).
    { apply find_seq_first; [lia| |].
      - rewrite lookup_delete_eq. reflexivity.
      - intros j Hj. rewrite lookup_delete_ne by lia.
        destruct (Hfull j) as (e & -> & _); [lia|reflexivity]. }
    unfold lookupOrCreate. rewrite Hslot', Hfree'. reflexivity. }
  split; [exact Hfail|]. split; [|split].
  - intros c level Hc. unfold processUpdate. rewrite Hc, Hfail.
    cbn [entries published]. split; reflexivity.
  - intros i Hi. eexists. split; [apply Hafter; assumption|]. split.
    + eexists. rewrite lookup_insert_eq. split; reflexivity.
    + intros j Hj. rewrite lookup_insert_ne by congruence.
      apply lookup_delete_ne. congruence.
  - intros c level i Hc Hi c'. subst c'. unfold processUpdate, teardown.
    cbn [entries published]. rewrite Hc, (Hafter i Hi).
    cbn [entries published]. unfold touch. split; [|split].
    + eexists. rewrite lookup_alter_eq, lookup_insert_eq. cbn [fmap option_fmap option_map].
      split; reflexivity.
    + apply lookup_insert_eq.
    + intros j Hj. rewrite lookup_alter_ne by congruence.
      rewrite lookup_insert_ne by congruence.
      apply lookup_delete_ne. congruence.
Qed.

Lemma registry_capacity_witness :
  lookupOrCreate 14%Z 100%Z full_example = inl CapacityExceeded
  /\ exists r' : gmap nat RegistryEntry,
       lookupOrCreate 14%Z 100%Z (remove 5 full_example) = inr (5, true, r').
Proof.
  assert (Hfull : fullWithout 14%Z full_example).
  { intros i Hi.
    exists {| key := Z.of_nat i; customName := "";
              lastSeenMonotonic := 0; connected := true |}.
    split; [|cbn; lia].
    do 14 (destruct i as [|i]; [vm_compute; reflexivity|]). lia. }
  destruct (registry_capacity full_example 14%Z 100%Z Hfull) as (Hfail & _ & Hfree & _).
  split; [exact Hfail|].
  destruct (Hfree 5 ltac:(lia)) as (r' & Hr' & _).
  exists r'. exact Hr'.
Defined.

End RegistryProperties.

(** ** The custom-shape string codec *)

Section ShapeCodec.
Import JS TankSensor.

Lemma append_nil : forall t : string, ("" ++ t)%string = t.
Proof. reflexivity. Qed.

Lemma append_cons :
  forall (c : ascii) (s t : string),
    (String c s ++ t)%string = String c (s ++ t)%string.
Proof. reflexivity. Qed.

Lemma lacks_app :
  forall (sep : ascii) (s t : string),
    lacks sep (s ++ t) = lacks sep s && lacks sep t.
Proof.
  intros sep s t. induction s as [|c s IH]; [reflexivity|].
  rewrite append_cons. cbn [lacks]. rewrite IH. apply andb_assoc.
Qed.

Lemma lacks_substring :
  forall (sep : ascii) (s : string) (n m : nat),
    lacks sep s = true -> lacks sep (substring n m s) = true.
Proof.
  intros sep s. induction s as [|c s IH]; intros n m H.
  - destruct n, m; reflexivity.
  - cbn [lacks] in H. apply andb_true_iff in H as [Hc Hs].
    destruct n as [|n]; cbn [substring].
    + destruct m as [|m]; [reflexivity|].
      cbn [lacks]. rewrite Hc. apply (IH 0%nat m Hs).
    + apply IH. assumption.
Qed.

(** [split] undoes [join] on pieces that do not hold the separator. *)
Lemma split_piece :
  forall (sep : ascii) (s : string),
    lacks sep s = true -> split sep s = [s].
Proof.
  intros sep s. induction s as [|c s IH]; intros H; [reflexivity|].
  cbn [lacks] in H. apply andb_true_iff in H as [Hc Hs].
  cbn [split]. apply negb_true_iff in Hc. rewrite Hc, (IH Hs). reflexivity.
Qed.

Lemma split_piece_sep :
  forall (sep : ascii) (s rest : string),
    lacks sep s = true ->
    split sep (s ++ String sep rest) = s :: split sep rest.
Proof.
  intros sep s rest. induction s as [|c s IH]; intros H.
  - rewrite append_nil. cbn [split]. rewrite Ascii.eqb_refl. reflexivity.
  - cbn [lacks] in H. apply andb_true_iff in H as [Hc Hs].
    rewrite append_cons. cbn [split]. apply negb_true_iff in Hc.
    rewrite Hc, (IH Hs). reflexivity.
Qed.

Lemma split_join :
  forall (sep : ascii) (l : list string),
    l <> [] -> Forall (fun s => lacks sep s = true) l ->
    split sep (join sep l) = l.
Proof.
  intros sep l. induction l as [|x l IH]; intros Hne Hl; [contradiction|].
  inversion Hl as [|? ? Hx Hl']; subst.
  destruct l as [|y l].
  - cbn [join]. apply split_piece. assumption.
  - change (join sep (x :: y :: l)) with (x ++ String sep (join sep (y :: l)))%string.
    rewrite split_piece_sep by assumption.
    rewrite IH; [reflexivity|discriminate|assumption].
Qed.

Lemma lacks_join :
  forall (sep other : ascii) (l : list string),
    Ascii.eqb sep other = false ->
    Forall (fun s => lacks other s = true) l ->
    lacks other (join sep l) = true.
Proof.
  intros sep other l Hso. induction l as [|x l IH]; intros Hl; [reflexivity|].
  inversion Hl as [|? ? Hx Hl']; subst.
  destruct l as [|y l]; [exact Hx|].
  change (join sep (x :: y :: l)) with (x ++ String sep (join sep (y :: l)))%string.
  rewrite lacks_app, Hx. cbn [lacks andb]. rewrite Hso. cbn [negb andb].
  apply IH. assumption.
Qed.

Lemma occurs_lacks :
  forall (c sep : ascii) (alphabet : string),
    occurs c alphabet = true -> lacks sep alphabet = true ->
    Ascii.eqb c sep = false.
Proof.
  intros c sep alphabet. induction alphabet as [|d alphabet IH]; intros Ho Hl.
  - discriminate Ho.
  - cbn [occurs] in Ho. cbn [lacks] in Hl.
    apply andb_true_iff in Hl as [Hd Hl]. apply negb_true_iff in Hd.
    apply orb_true_iff in Ho as [Hcd|Ho]; [|exact (IH Ho Hl)].
    apply Ascii.eqb_eq in Hcd. subst d. exact Hd.
Qed.

Lemma over_lacks :
  forall (sep : ascii) (alphabet s : string),
    over alphabet s = true -> lacks sep alphabet = true -> lacks sep s = true.
Proof.
  intros sep alphabet s. induction s as [|c s IH]; intros Ho Hl; [reflexivity|].
  cbn [over] in Ho. apply andb_true_iff in Ho as [Hc Hs].
  cbn [lacks]. rewrite (occurs_lacks c sep alphabet Hc Hl). exact (IH Hs Hl).
Qed.

Lemma over_app :
  forall alphabet s t : string,
    over alphabet (s ++ t) = over alphabet s && over alphabet t.
Proof.
  intros alphabet s t. induction s as [|c s IH]; [reflexivity|].
  rewrite append_cons. cbn [over]. rewrite IH. apply andb_assoc.
Qed.

Lemma over_substring :
  forall (alphabet s : string) (n m : nat),
    over alphabet s = true -> over alphabet (substring n m s) = true.
Proof.
  intros alphabet s. induction s as [|c s IH]; intros n m H.
  - destruct n, m; reflexivity.
  - cbn [over] in H. apply andb_true_iff in H as [Hc Hs].
    destruct n as [|n]; cbn [substring].
    + destruct m as [|m]; [reflexivity|].
      cbn [over]. rewrite Hc. apply (IH 0%nat m Hs).
    + apply IH. assumption.
Qed.

Lemma over_zeros : forall n : Z, over numeric (zeros n) = true.
Proof.
  intros n. unfold zeros. induction (Z.to_nat n) as [|k IH]; [reflexivity|].
  rewrite Nat.iter_succ. cbn [over]. rewrite IH. reflexivity.
Qed.

Lemma over_string_of_uint :
  forall d : Decimal.uint, over numeric (NilEmpty.string_of_uint d) = true.
Proof.
  induction d; cbn [NilEmpty.string_of_uint over]; try rewrite IHd; reflexivity.
Qed.

Lemma over_digits_of : forall n : N, over numeric (digits_of n) = true.
Proof.
  intros n. unfold digits_of, NilZero.string_of_uint.
  destruct (N.to_uint n); try reflexivity; apply over_string_of_uint.
Qed.

Ltac over_pieces :=
  repeat rewrite over_app;
  repeat (apply andb_true_intro; split);
  first [ reflexivity | apply over_zeros | apply over_digits_of
        | apply over_substring; assumption | assumption ].

Lemma over_format_digits :
  forall (ds : string) (n : Z),
    over numeric ds = true -> over numeric (format_digits ds n) = true.
Proof.
  intros ds n H. unfold format_digits.
  repeat match goal with
         | |- context [if ?b then _ else _] => destruct b
         end; over_pieces.
Qed.

(** [ToString] writes a number with the characters of [numeric] only. *)
Lemma over_toString : forall x : number, over numeric (toString x) = true.
Proof.
  intros x. unfold toString.
  destruct (is_nan x); [reflexivity|].
  destruct (x =? 0)%float; [reflexivity|].
  destruct (exact_fraction x) as [[num den]|].
  - destruct (shortest 17 (abs x) num den (decimal_exponent num den) 1) as [s n].
    pose proof (over_format_digits (digits_of s) n (over_digits_of s)) as H.
    destruct (x <? 0)%float; over_pieces.
  - destruct (x <? 0)%float; reflexivity.
Qed.

(** A number's text holds neither separator of the shape string. *)
Lemma toString_lacks_separators :
  forall x : number,
    lacks ":" (toString x) = true /\ lacks "," (toString x) = true.
Proof.
  intros x. split; apply (over_lacks _ numeric); try apply over_toString; reflexivity.
Qed.

Lemma pointToString_lacks_comma :
  forall point : list number, lacks "," (pointToString point) = true.
Proof.
  intros point. apply lacks_join; [reflexivity|].
  apply Forall_map. apply Forall_forall. intros x _.
  apply toString_lacks_separators.
Qed.

Lemma point_roundtrip :
  forall point : list number,
    point <> [] ->
    map toNumber (split ":" (pointToString point))
    = map (fun x => toNumber (toString x)) point.
Proof.
  intros point Hne. unfold pointToString.
  rewrite split_join.
  - apply map_map.
  - destruct point; [contradiction|discriminate].
  - apply Forall_map. apply Forall_forall. intros x _.
    apply toString_lacks_separators.
Qed.

Lemma pair_text_not_empty :
  forall point : list number, isPair point -> pointToString point <> ""%string.
Proof.
  intros point (l & v & ->). unfold pointToString. cbn [map join].
  destruct (toString l); discriminate.
Qed.

(** Writing and reading an array of pairs writes and reads each number. *)
Lemma pointArray_written_and_read :
  forall a : pointArray,
    Forall isPair a ->
    stringToPointArray (Some (pointArrayToString a))
    = map (map (fun x => toNumber (toString x))) a.
Proof.
  intros a Ha. destruct a as [|point a]; [reflexivity|].
  unfold pointArrayToString.
  change (fun x : list number => join ":" (map toString x)) with pointToString.
  assert (Hsplit : split "," (join "," (map pointToString (point :: a)))
                   = map pointToString (point :: a)).
  { apply split_join; [discriminate|].
    apply Forall_map. apply Forall_forall. intros pt _.
    apply pointToString_lacks_comma. }
  assert (Hne : exists c s, join "," (map pointToString (point :: a)) = String c s).
  { inversion Ha as [|? ? Hp _]; subst.
    pose proof (pair_text_not_empty point Hp) as Hpt.
    cbn [map]. destruct (map pointToString a) as [|y l]; cbn [join].
    - destruct (pointToString point) as [|c s]; [contradiction|eauto].
    - destruct (pointToString point) as [|c s]; [contradiction|].
      rewrite append_cons. eauto. }
  destruct Hne as (c & s & Hcs).
  unfold stringToPointArray. rewrite Hcs. rewrite <- Hcs. rewrite Hsplit.
  rewrite map_map.
  apply map_ext_Forall. eapply Forall_impl; [exact Ha|].
  intros pt (l & v & ->). apply point_roundtrip. discriminate.
Qed.

Lemma pointArray_roundtrip_pairs :
  forall a : pointArray,
    Forall (fun point => isPair point /\ Forall roundTrips point) a ->
    stringToPointArray (Some (pointArrayToString a)) = a.
Proof.
  intros a Ha. rewrite pointArray_written_and_read.
  - rewrite <- (map_id a) at 2. apply map_ext_Forall.
    eapply Forall_impl; [exact Ha|]. intros pt [_ Hrt].
    rewrite <- (map_id pt) at 2. apply map_ext_Forall. exact Hrt.
  - eapply Forall_impl; [exact Ha|]. intros pt [Hp _]. exact Hp.
Qed.

Lemma readsBack_roundTrips :
  forall x : number, readsBack x = true -> roundTrips x.
Proof.
  intros x H. apply FloatAxioms.Leibniz.eqb_spec. exact H.
Qed.

(** A test that holds on [lo], [lo + 1], ..., [lo + n - 1] holds on every
    integer of that range. *)
Lemma forall_range :
  forall (P : Z -> bool) (lo : Z) (n : nat),
    forallb (fun k => P (lo + Z.of_nat k)%Z) (seq 0 n) = true ->
    forall z : Z, (lo <= z < lo + Z.of_nat n)%Z -> P z = true.
Proof.
  intros P lo n H z Hz. rewrite forallb_forall in H.
  specialize (H (Z.to_nat (z - lo))).
  replace (lo + Z.of_nat (Z.to_nat (z - lo)))%Z with z in H by lia.
  apply H. apply in_seq. lia.
Qed.

(** The integers from 0 to 1000 are read back from their text. *)
Lemma roundTrips_small_integers :
  forall z : Z, (0 <= z <= 1000)%Z -> roundTrips (of_Z z).
Proof.
  intros z Hz. apply readsBack_roundTrips.
  apply (forall_range (fun z => readsBack (of_Z z)) 0 1001); [|lia].
  vm_compute. reflexivity.
Qed.

(** So are fractions, the infinities, [NaN], the largest and the smallest
    number. *)
Lemma roundTrips_samples :
  Forall roundTrips
    [0.5; 0.1; 219.969157; 1e21; 123456789012345680000; infinity;
     neg_infinity; nan; 1.7976931348623157e308; 5e-324; -0.000001234]%float.
Proof.
  repeat (apply List.Forall_cons;
          [apply readsBack_roundTrips; vm_compute; reflexivity|]).
  apply List.Forall_nil.
Qed.

(** The negative zero is written "0" and read back as the positive zero,
    which [==] and [===] take for the same number. *)
Lemma negative_zero_text :
  toString (-0)%float = "0"%string
  /\ toNumber (toString (-0)%float) = 0%float
  /\ (toNumber (toString (-0)%float) =? (-0))%float = true.
Proof. vm_compute. repeat split. Qed.

End ShapeCodec.

(** ** The custom-shape editor *)

Section ShapeEditor.
Import JS TankSensor PageTankShapeAddPoint.

(** *** Numbers and integers agree from 0 to 99 *)

Lemma range_check_agrees :
  forall z : Z,
    (0 <= z <= 99)%Z ->
    ((of_Z z <? 1) || (99 <? of_Z z))%float = negb ((1 <=? z) && (z <=? 99))%Z.
Proof.
  intros z Hz.
  apply Bool.eqb_prop.
  apply (forall_range
           (fun z => Bool.eqb ((of_Z z <? 1) || (99 <? of_Z z))%float
                       (negb ((1 <=? z) && (z <=? 99))%Z)) 0 100); [|lia].
  vm_compute. reflexivity.
Qed.

Lemma comparisons_agree :
  forall a b : Z,
    (1 <= a <= 99)%Z -> (1 <= b <= 99)%Z ->
    (of_Z a - of_Z b <? 0)%float = (a <? b)%Z
    /\ (of_Z a <=? of_Z b)%float = (a <=? b)%Z.
Proof.
  intros a b Ha Hb.
  assert (H : (Bool.eqb (of_Z a - of_Z b <? 0)%float (a <? b)%Z
               && Bool.eqb (of_Z a <=? of_Z b)%float (a <=? b)%Z) = true).
  { apply (forall_range
             (fun b => Bool.eqb (of_Z a - of_Z b <? 0)%float (a <? b)%Z
                       && Bool.eqb (of_Z a <=? of_Z b)%float (a <=? b)%Z) 1 99);
      [|lia].
    apply (forall_range
             (fun a => forallb
                         (fun k => let b := (1 + Z.of_nat k)%Z in
                                   Bool.eqb (of_Z a - of_Z b <? 0)%float (a <? b)%Z
                                   && Bool.eqb (of_Z a <=? of_Z b)%float (a <=? b)%Z)
                         (seq 0 99)) 1 99); [|lia].
    vm_compute. reflexivity. }
  apply andb_true_iff in H as [H1 H2].
  split; apply Bool.eqb_prop; assumption.
Qed.

Lemma digit_cases :
  forall c : ascii,
    occurs c "0123456789" = true ->
    In c ["0"; "1"; "2"; "3"; "4"; "5"; "6"; "7"; "8"; "9"]%char.
Proof.
  intros c H. cbn [occurs] in H.
  repeat (apply orb_true_iff in H as [H|H];
          [apply Ascii.eqb_eq in H; subst c; cbn; tauto|]).
  discriminate H.
Qed.

(** An edit-box text reads as its value, an integer from 0 to 99. *)
Lemma editBox_number :
  forall s : string,
    isEditBoxText s = true ->
    toNumber s = of_Z (editBoxValue s) /\ (0 <= editBoxValue s <= 99)%Z.
Proof.
  intros s H. unfold isEditBoxText in H.
  apply andb_true_iff in H as [Hlen Hdigits].
  destruct s as [|c1 [|c2 [|c3 s]]]; [| | |discriminate Hlen].
  - vm_compute. split; [reflexivity|split; discriminate].
  - cbn [over] in Hdigits. apply andb_true_iff in Hdigits as [H1 _].
    apply digit_cases in H1. cbn [In] in H1.
    repeat (destruct H1 as [<-|H1];
            [vm_compute; split; [reflexivity|split; discriminate]|]).
    contradiction.
  - cbn [over] in Hdigits. apply andb_true_iff in Hdigits as [H1 Hdigits].
    apply andb_true_iff in Hdigits as [H2 _].
    apply digit_cases in H1. apply digit_cases in H2. cbn [In] in H1, H2.
    repeat (destruct H1 as [<-|H1];
            [repeat (destruct H2 as [<-|H2];
                     [vm_compute; split; [reflexivity|split; discriminate]|]);
             contradiction|]).
    contradiction.
Qed.

(** *** The sort and the check of [addPoint], on points of whole percentages *)

Lemma insert_pointOf :
  forall (p : Z * Z) (zs : list (Z * Z)),
    inRange p -> Forall inRange zs ->
    insert byLevel (pointOf p) (map pointOf zs) = map pointOf (insertByLevel p zs).
Proof.
  intros p zs Hp. induction zs as [|q zs IH]; intros Hzs; [reflexivity|].
  inversion Hzs as [|? ? Hq Hzs']; subst.
  cbn [map insert insertByLevel]. unfold byLevel at 1.
  change (at_ 0 (pointOf p)) with (of_Z (fst p)).
  change (at_ 0 (pointOf q)) with (of_Z (fst q)).
  rewrite (proj1 (comparisons_agree (fst p) (fst q) (proj1 Hp) (proj1 Hq))).
  destruct (fst p <? fst q)%Z; [reflexivity|].
  cbn [map]. f_equal. apply IH. assumption.
Qed.

Lemma insertByLevel_last :
  forall (p : Z * Z) (zs : list (Z * Z)),
    Forall (fun q => (fst q < fst p)%Z) zs -> insertByLevel p zs = (zs ++ [p])%list.
Proof.
  intros p zs. induction zs as [|q zs IH]; intros H; [reflexivity|].
  inversion H as [|? ? Hq Hzs]; subst. cbn [insertByLevel].
  destruct (Z.ltb_spec (fst p) (fst q)) as [Hlt|_]; [lia|].
  rewrite (IH Hzs). reflexivity.
Qed.

Lemma insertByLevel_split :
  forall (p : Z * Z) (zs : list (Z * Z)),
    exists before after : list (Z * Z),
      zs = (before ++ after)%list /\ insertByLevel p zs = (before ++ p :: after)%list.
Proof.
  intros p zs. induction zs as [|q zs (before & after & Hzs & Hins)].
  - exists [], []. split; reflexivity.
  - cbn [insertByLevel]. destruct (fst p <? fst q)%Z.
    + exists [], (q :: zs). split; reflexivity.
    + exists (q :: before), after. rewrite Hins, Hzs at 1. split; reflexivity.
Qed.

Lemma below_transitive : forall p q r : Z * Z, below p q -> below q r -> below p r.
Proof.
  unfold below. intros p q r [H1 H2] [H3 H4]. lia.
Qed.

Lemma sorted_strongly :
  forall zs : list (Z * Z), Sorted below zs -> StronglySorted below zs.
Proof.
  apply Sorted_StronglySorted. intros p q r. apply below_transitive.
Qed.

(** Inserting the points of an increasing sequence one after the other
    leaves it as it is. *)
Lemma fold_insert_sorted :
  forall zs acc : list (Z * Z),
    Forall inRange (acc ++ zs) -> StronglySorted below (acc ++ zs) ->
    fold_left (fun acc x => insert byLevel x acc) (map pointOf zs) (map pointOf acc)
    = map pointOf (acc ++ zs).
Proof.
  induction zs as [|z zs IH]; intros acc Hr Hs.
  - rewrite app_nil_r. reflexivity.
  - cbn [map fold_left].
    assert (Hr' := Hr). apply Forall_app in Hr' as [Hacc Hzs].
    inversion Hzs as [|? ? Hz Hzs']; subst.
    rewrite insert_pointOf by assumption.
    rewrite insertByLevel_last.
    + replace (acc ++ z :: zs)%list with ((acc ++ [z]) ++ zs)%list in *
        by (rewrite <- app_assoc; reflexivity).
      apply IH; assumption.
    + clear - Hs. induction acc as [|a acc IHacc]; [constructor|].
      cbn [app] in Hs. inversion Hs as [|? ? Hs' Ha]; subst.
      constructor; [|apply IHacc; assumption].
      rewrite List.Forall_forall in Ha.
      apply (Ha z). apply in_or_app. right. left. reflexivity.
Qed.

Lemma sort_with_new_point :
  forall (p : Z * Z) (zs : list (Z * Z)),
    inRange p -> validShape zs ->
    sort byLevel (map pointOf zs ++ [pointOf p]) = map pointOf (insertByLevel p zs).
Proof.
  intros p zs Hp [Hr Hs]. unfold sort. rewrite fold_left_app.
  pose proof (fold_insert_sorted zs [] Hr (sorted_strongly zs Hs)) as H.
  cbn [map app] in H. rewrite H. cbn [fold_left].
  apply insert_pointOf; assumption.
Qed.

Lemma checkIncreasing_sorted :
  forall (rest : list (Z * Z)) (prev : Z * Z),
    inRange prev -> Forall inRange rest ->
    checkIncreasing (pointOf prev) (map pointOf rest) = None ->
    Sorted below (prev :: rest).
Proof.
  induction rest as [|cur rest IH]; intros prev Hp Hr Hc.
  - constructor; constructor.
  - inversion Hr as [|? ? Hcur Hr']; subst.
    cbn [map checkIncreasing] in Hc.
    change (at_ 0 (pointOf cur)) with (of_Z (fst cur)) in Hc.
    change (at_ 0 (pointOf prev)) with (of_Z (fst prev)) in Hc.
    change (at_ 1 (pointOf cur)) with (of_Z (snd cur)) in Hc.
    change (at_ 1 (pointOf prev)) with (of_Z (snd prev)) in Hc.
    rewrite (proj2 (comparisons_agree (fst cur) (fst prev) (proj1 Hcur) (proj1 Hp))) in Hc.
    rewrite (proj2 (comparisons_agree (snd cur) (snd prev) (proj2 Hcur) (proj2 Hp))) in Hc.
    destruct (Z.leb_spec (fst cur) (fst prev)) as [|Hl]; [discriminate Hc|].
    destruct (Z.leb_spec (snd cur) (snd prev)) as [|Hv]; [discriminate Hc|].
    constructor; [apply IH; assumption|].
    constructor. split; assumption.
Qed.

Lemma insertByLevel_inRange :
  forall (p : Z * Z) (zs : list (Z * Z)),
    inRange p -> Forall inRange zs -> Forall inRange (insertByLevel p zs).
Proof.
  intros p zs Hp Hzs.
  destruct (insertByLevel_split p zs) as (before & after & -> & ->).
  apply Forall_app in Hzs as [Hb Ha].
  apply Forall_app. split; [assumption|]. constructor; assumption.
Qed.

(** The string of a valid shape is read back as that shape. *)
Lemma holds_encoding :
  forall zs : list (Z * Z),
    Forall inRange zs -> holds (Some (pointArrayToString (map pointOf zs))) zs.
Proof.
  intros zs Hr. unfold holds. apply pointArray_roundtrip_pairs.
  apply Forall_map. eapply Forall_impl; [exact Hr|].
  intros [l v] [Hl Hv]. cbn [fst snd] in Hl, Hv. split.
  - exists (of_Z l), (of_Z v). reflexivity.
  - unfold pointOf. cbn [fst snd].
    apply List.Forall_cons; [apply roundTrips_small_integers; lia|].
    apply List.Forall_cons; [apply roundTrips_small_integers; lia|].
    apply List.Forall_nil.
Qed.

(** One pass through the two pages: the shape is left as it is, or the
    entered point has been put into the sequence, which is still valid and
    has at most 10 points. *)
Lemma addThroughPages_step :
  forall (shapeItem : undefinedOr string) (zs : list (Z * Z))
         (level volume : string),
    isEditBoxText level = true -> isEditBoxText volume = true ->
    holds shapeItem zs -> validShape zs ->
    PageTankShape.addThroughPages shapeItem level volume = shapeItem
    \/ exists before after : list (Z * Z),
         zs = (before ++ after)%list
         /\ PageTankShape.addThroughPages shapeItem level volume =
              Some (pointArrayToString
                      (map pointOf
                         (before ++ (editBoxValue level, editBoxValue volume)
                            :: after)))
         /\ validShape (before ++ (editBoxValue level, editBoxValue volume) :: after)
         /\ (length (before ++ (editBoxValue level, editBoxValue volume) :: after)
              <= 10)%nat.
Proof.
  intros shapeItem zs level volume Hlevel Hvolume Hholds Hvalid.
  destruct (editBox_number level Hlevel) as [Hl Hlr].
  destruct (editBox_number volume Hvolume) as [Hv Hvr].
  set (l := editBoxValue level) in *. set (v := editBoxValue volume) in *.
  unfold PageTankShape.addThroughPages, PageTankShape.addPoint, PageTankShape.model.
  unfold holds in Hholds. rewrite Hholds, length_map.
  destruct (Nat.ltb_spec 9 (length zs)) as [Hfull|Hroom]; [left; reflexivity|].
  unfold addPoint. rewrite Hl, Hv, Hholds.
  rewrite (range_check_agrees l Hlr), (range_check_agrees v Hvr).
  destruct (Z.leb_spec 1 l) as [Hl1|]; [|left; reflexivity].
  destruct (Z.leb_spec l 99) as [Hl2|]; [|left; reflexivity].
  destruct (Z.leb_spec 1 v) as [Hv1|]; [|left; reflexivity].
  destruct (Z.leb_spec v 99) as [Hv2|]; [|left; reflexivity].
  cbn [andb negb].
  assert (Hp : inRange (l, v)) by (split; cbn [fst snd]; lia).
  change [of_Z l; of_Z v] with (pointOf (l, v)).
  rewrite (sort_with_new_point (l, v) zs Hp Hvalid).
  destruct (insertByLevel_split (l, v) zs) as (before & after & Hzs & Hins).
  pose proof (insertByLevel_inRange (l, v) zs Hp (proj1 Hvalid)) as Hr.
  rewrite Hins in *.
  destruct (before ++ (l, v) :: after)%list as [|first rest] eqn:Hnew;
    [destruct before; discriminate Hnew|].
  cbn [map].
  destruct (checkIncreasing (pointOf first) (map pointOf rest)) as [message|] eqn:Hc;
    [left; reflexivity|].
  right. exists before, after. rewrite Hnew.
  pose proof Hr as Hr'. apply Forall_cons in Hr' as [Hfirst Hrest].
  split; [assumption|]. split; [reflexivity|]. split.
  - split; [assumption|]. apply checkIncreasing_sorted; assumption.
  - rewrite <- Hnew, length_app. cbn [length].
    rewrite Hzs, length_app in Hroom. lia.
Qed.

(** *** Removing a point *)

Lemma splice1_map :
  forall (A B : Type) (f : A -> B) (start : Z) (l : list A),
    PageTankShape.splice1 start (map f l) = map f (PageTankShape.splice1 start l).
Proof.
  intros A B f start l. unfold PageTankShape.splice1.
  rewrite length_map, map_app, firstn_map, skipn_map. reflexivity.
Qed.

Lemma strongly_sorted_without :
  forall (A : Type) (R : A -> A -> Prop) (l : list A) (n : nat),
    StronglySorted R l -> StronglySorted R (firstn n l ++ skipn (S n) l).
Proof.
  intros A R l. induction l as [|x l IH]; intros n Hs.
  - destruct n; constructor.
  - inversion Hs as [|? ? Hl Hx]; subst. destruct n as [|n].
    + cbn [firstn skipn app]. assumption.
    + cbn [firstn skipn app]. constructor; [apply IH; assumption|].
      apply Forall_app. split; [apply Forall_take|apply Forall_drop]; assumption.
Qed.

Lemma splice1_valid :
  forall (start : Z) (zs : list (Z * Z)),
    validShape zs ->
    validShape (PageTankShape.splice1 start zs)
    /\ (length (PageTankShape.splice1 start zs) <= length zs)%nat.
Proof.
  intros start zs [Hr Hs]. unfold PageTankShape.splice1.
  set (i := Z.to_nat _). split; [split|].
  - apply Forall_app. split; [apply Forall_take|apply Forall_drop]; assumption.
  - apply StronglySorted_Sorted. apply strongly_sorted_without.
    apply sorted_strongly. assumption.
  - rewrite length_app, length_take, length_drop. lia.
Qed.

Lemma removePoint_step :
  forall (shapeItem : undefinedOr string) (zs : list (Z * Z)) (currentIndex : Z),
    holds shapeItem zs -> validShape zs ->
    PageTankShape.removePoint shapeItem currentIndex =
      pointArrayToString (map pointOf (PageTankShape.splice1 currentIndex zs)).
Proof.
  intros shapeItem zs currentIndex Hholds _.
  unfold PageTankShape.removePoint, PageTankShape.model.
  unfold holds in Hholds. rewrite Hholds, splice1_map. reflexivity.
Qed.

(** *** The editor, from an empty shape *)

Lemma perform_invariant :
  forall (shapeItem : undefinedOr string) (o : operation),
    fromEditBoxes o -> editorInvariant shapeItem ->
    editorInvariant (perform shapeItem o).
Proof.
  intros shapeItem o Ho (zs & Hholds & Hvalid & Hlen).
  destruct o as [level volume|currentIndex]; cbn [perform].
  - destruct Ho as [Hlevel Hvolume].
    destruct (addThroughPages_step shapeItem zs level volume Hlevel Hvolume
                Hholds Hvalid)
      as [->|(before & after & _ & -> & Hvalid' & Hlen')].
    + exists zs. auto.
    + eexists. split; [apply holds_encoding; apply Hvalid'|]. auto.
  - rewrite (removePoint_step shapeItem zs currentIndex Hholds Hvalid).
    destruct (splice1_valid currentIndex zs Hvalid) as [Hvalid' Hlen'].
    eexists. split; [apply holds_encoding; apply Hvalid'|].
    split; [assumption|lia].
Qed.

Lemma editor_invariant :
  forall (operations : list operation) (shapeItem : undefinedOr string),
    Forall fromEditBoxes operations -> editorInvariant shapeItem ->
    editorInvariant (fold_left perform operations shapeItem).
Proof.
  induction operations as [|o operations IH]; intros shapeItem Hops Hinv;
    [assumption|].
  apply Forall_cons in Hops as [Ho Hops]. cbn [fold_left].
  apply IH; [assumption|]. apply perform_invariant; assumption.
Qed.

Lemma empty_shape_invariant :
  editorInvariant None /\ editorInvariant (Some ""%string).
Proof.
  split; exists []; (split; [reflexivity|]); (split; [|cbn; lia]);
    (split; constructor).
Qed.

(** *** Stored points in any order *)

Lemma fold_insert_inRange :
  forall zs acc : list (Z * Z),
    Forall inRange zs -> Forall inRange acc ->
    Forall inRange (fold_left (fun acc x => insertByLevel x acc) zs acc).
Proof.
  induction zs as [|z zs IH]; intros acc Hzs Hacc; [exact Hacc|].
  apply Forall_cons in Hzs as [Hz Hzs]. cbn [fold_left].
  apply IH; [exact Hzs|]. apply insertByLevel_inRange; assumption.
Qed.

Lemma fold_insert_pointOf :
  forall zs acc : list (Z * Z),
    Forall inRange zs -> Forall inRange acc ->
    fold_left (fun acc x => insert byLevel x acc) (map pointOf zs) (map pointOf acc)
    = map pointOf (fold_left (fun acc x => insertByLevel x acc) zs acc).
Proof.
  induction zs as [|z zs IH]; intros acc Hzs Hacc; [reflexivity|].
  apply Forall_cons in Hzs as [Hz Hzs]. cbn [map fold_left].
  rewrite (insert_pointOf z acc Hz Hacc).
  apply IH; [exact Hzs|]. apply insertByLevel_inRange; assumption.
Qed.

Lemma fold_insert_permutation :
  forall zs acc : list (Z * Z),
    fold_left (fun acc x => insertByLevel x acc) zs acc ≡ₚ (acc ++ zs)%list.
Proof.
  induction zs as [|z zs IH]; intros acc; [rewrite app_nil_r; reflexivity|].
  cbn [fold_left]. rewrite IH.
  destruct (insertByLevel_split z acc) as (before & after & -> & ->).
  rewrite <- !app_assoc. cbn [app].
  apply Permutation_app_head. apply Permutation_middle.
Qed.

Lemma addPoint_set_in_range :
  forall (shapeItem : undefinedOr string) (level volume s : string),
    isEditBoxText level = true -> isEditBoxText volume = true ->
    addPoint shapeItem level volume = SetValue s ->
    inRange (editBoxValue level, editBoxValue volume).
Proof.
  intros shapeItem level volume s Hlevel Hvolume Hset.
  destruct (editBox_number level Hlevel) as [Hl Hlr].
  destruct (editBox_number volume Hvolume) as [Hv Hvr].
  unfold addPoint in Hset. rewrite Hl, Hv in Hset.
  rewrite (range_check_agrees _ Hlr), (range_check_agrees _ Hvr) in Hset.
  split; cbn [fst snd].
  - destruct (Z.leb_spec 1 (editBoxValue level));
      destruct (Z.leb_spec (editBoxValue level) 99); try discriminate Hset. lia.
  - destruct (Z.leb_spec 1 (editBoxValue level));
      destruct (Z.leb_spec (editBoxValue level) 99); try discriminate Hset.
    destruct (Z.leb_spec 1 (editBoxValue volume));
      destruct (Z.leb_spec (editBoxValue volume) 99); try discriminate Hset. lia.
Qed.

(** One pass through the two pages over stored points in any order: the
    shape is left as it is, or what is stored is the string of the stored
    points and the entered one put in increasing order, a valid shape of at
    most 10 points. *)
Lemma addThroughPages_any_order :
  forall (shapeItem : undefinedOr string) (zs : list (Z * Z))
         (level volume : string),
    isEditBoxText level = true -> isEditBoxText volume = true ->
    holds shapeItem zs -> Forall inRange zs ->
    PageTankShape.addThroughPages shapeItem level volume = shapeItem
    \/ exists zs' : list (Z * Z),
         PageTankShape.addThroughPages shapeItem level volume
           = Some (pointArrayToString (map pointOf zs'))
         /\ validShape zs'
         /\ zs' ≡ₚ (editBoxValue level, editBoxValue volume) :: zs
         /\ (length zs' <= 10)%nat.
Proof.
  intros shapeItem zs level volume Hlevel Hvolume Hholds Hr.
  unfold PageTankShape.addThroughPages, PageTankShape.addPoint, PageTankShape.model.
  pose proof Hholds as Hread. unfold holds in Hread. rewrite Hread, length_map.
  destruct (Nat.ltb_spec 9 (length zs)) as [Hfull|Hroom]; [left; reflexivity|].
  destruct (addPoint shapeItem level volume) as [message|s] eqn:Hset;
    [left; reflexivity|].
  right. cbn [shapeAfter].
  pose proof (addPoint_set_in_range shapeItem level volume s Hlevel Hvolume Hset)
    as Hp.
  destruct (editBox_number level Hlevel) as [Hl Hlr].
  destruct (editBox_number volume Hvolume) as [Hv Hvr].
  set (p := (editBoxValue level, editBoxValue volume)) in *.
  set (sorted := fold_left (fun acc x => insertByLevel x acc) (zs ++ [p]) []).
  assert (Hall : Forall inRange (zs ++ [p])).
  { apply Forall_app. split; [exact Hr|]. apply List.Forall_cons; [exact Hp|].
    apply List.Forall_nil. }
  assert (Hsorted : Forall inRange sorted).
  { apply fold_insert_inRange; [exact Hall|apply List.Forall_nil]. }
  assert (Hperm : sorted ≡ₚ p :: zs).
  { unfold sorted. rewrite fold_insert_permutation. cbn [app].
    rewrite <- Permutation_cons_append. reflexivity. }
  unfold addPoint in Hset. rewrite Hl, Hv, Hread in Hset.
  rewrite (range_check_agrees _ Hlr), (range_check_agrees _ Hvr) in Hset.
  destruct Hp as [Hpl Hpv]. cbn [fst snd p] in Hpl, Hpv.
  destruct (Z.leb_spec 1 (editBoxValue level)); [|lia].
  destruct (Z.leb_spec (editBoxValue level) 99); [|lia].
  destruct (Z.leb_spec 1 (editBoxValue volume)); [|lia].
  destruct (Z.leb_spec (editBoxValue volume) 99); [|lia].
  cbn [andb negb orb] in Hset.
  change [[of_Z (editBoxValue level); of_Z (editBoxValue volume)]]
    with (map pointOf [p]) in Hset.
  rewrite <- map_app in Hset. unfold sort in Hset.
  pose proof (fold_insert_pointOf (zs ++ [p]) [] Hall (List.Forall_nil _)) as Hfold.
  change (map pointOf []) with (@nil (list number)) in Hfold.
  rewrite Hfold in Hset. clear Hfold. fold sorted in Hset.
  assert (Hlen : (length sorted <= 10)%nat).
  { rewrite (Permutation_length Hperm). cbn [length]. lia. }
  clearbody sorted.
  destruct sorted as [|first rest].
  { exfalso. apply Permutation_nil_l in Hperm. discriminate Hperm. }
  exists (first :: rest). cbn [map] in Hset.
  destruct (checkIncreasing (pointOf first) (map pointOf rest)) eqn:Hcheck;
    [discriminate Hset|].
  injection Hset as <-.
  apply Forall_cons in Hsorted as [Hfirst Hrest].
  split; [reflexivity|]. split; [|split; assumption].
  split; [apply List.Forall_cons; assumption|].
  apply checkIncreasing_sorted; assumption.
Qed.

(** C8. The custom-shape strings stored through the add-point operation. With
    texts from the edit boxes, and stored points that are whole percentages
    from 1 to 99 in any order, the [/Shape] item is left as it is, or it is
    set to the string of the stored points and the entered one put in
    increasing order: that sequence is read back from the string, is sorted
    and strictly increasing in sensor level and in volume with every
    coordinate from 1 to 99, and has at most 10 points. An entry out of range,
    an eleventh point, or a point with which no order of the points is
    strictly increasing is rejected with the item left as it is. On a stored
    shape that is valid already the entered point is put in between the
    stored points, which keep their places, and it is rejected when it fits
    nowhere between them. Hence every shape that the editor reaches from an
    empty one, by adding and removing points, is valid and has at most 10
    points. *)
Theorem addPoint_keeps_shape_valid :
  forall (shapeItem : undefinedOr string) (zs : list (Z * Z))
         (level volume : string),
    isEditBoxText level = true -> isEditBoxText volume = true ->
    holds shapeItem zs -> Forall inRange zs ->
    let p := (editBoxValue level, editBoxValue volume) in
    let shapeItem' := PageTankShape.addThroughPages shapeItem level volume in
    (shapeItem' = shapeItem
     \/ exists zs' : list (Z * Z),
          shapeItem' = Some (pointArrayToString (map pointOf zs'))
          /\ holds shapeItem' zs'
          /\ validShape zs'
          /\ zs' ≡ₚ p :: zs
          /\ (length zs' <= 10)%nat)
    /\ (~ inRange p \/ (10 <= length zs)%nat
        \/ ~ (exists zs' : list (Z * Z), zs' ≡ₚ p :: zs /\ validShape zs') ->
        shapeItem' = shapeItem)
    /\ (validShape zs ->
        (shapeItem' = shapeItem
         \/ exists before after : list (Z * Z),
              zs = (before ++ after)%list
              /\ shapeItem' =
                   Some (pointArrayToString (map pointOf (before ++ p :: after)))
              /\ holds shapeItem' (before ++ p :: after)
              /\ validShape (before ++ p :: after)
              /\ (length (before ++ p :: after) <= 10)%nat)
        /\ (~ (exists before after : list (Z * Z),
                 zs = (before ++ after)%list
                 /\ validShape (before ++ p :: after)) ->
            shapeItem' = shapeItem))
    /\ (forall operations : list operation,
          Forall fromEditBoxes operations ->
          editorInvariant (fold_left perform operations None)).
Proof.
  intros shapeItem zs level volume Hlevel Hvolume Hholds Hr p shapeItem'.
  pose proof (addThroughPages_any_order shapeItem zs level volume Hlevel Hvolume
                Hholds Hr) as Hany.
  fold p in Hany. fold shapeItem' in Hany.
  split; [|split; [|split]].
  - destruct Hany as [Hsame|(zs' & Hset & Hvalid' & Hperm & Hlen)];
      [left; assumption|].
    right. exists zs'. repeat split; try assumption; try apply Hvalid'.
    rewrite Hset. apply holds_encoding. apply Hvalid'.
  - intros Hbad.
    destruct Hany as [Hsame|(zs' & Hset & Hvalid' & Hperm & Hlen)];
      [assumption|].
    exfalso. destruct Hbad as [Hrange|[Hfull|Hnowhere]].
    + apply Hrange. destruct Hvalid' as [Hr' _].
      rewrite List.Forall_forall in Hr'. apply Hr'.
      apply (Permutation_in p (Permutation_sym Hperm)). left. reflexivity.
    + rewrite (Permutation_length Hperm) in Hlen. cbn [length] in Hlen. lia.
    + apply Hnowhere. exists zs'. split; assumption.
  - intros Hvalid.
    pose proof (addThroughPages_step shapeItem zs level volume Hlevel Hvolume
                  Hholds Hvalid) as Hstep.
    fold p in Hstep. fold shapeItem' in Hstep. split.
    + destruct Hstep as [Hsame|(before & after & Hzs & Hset & Hvalid' & Hlen)];
        [left; assumption|].
      right. exists before, after.
      repeat split; try assumption; try apply Hvalid'.
      rewrite Hset. apply holds_encoding. apply Hvalid'.
    + intros Hnowhere.
      destruct Hstep as [Hsame|(before & after & Hzs & Hset & Hvalid' & Hlen)];
        [assumption|].
      exfalso. apply Hnowhere. exists before, after. split; assumption.
  - intros operations Hops. apply editor_invariant; [assumption|].
    apply empty_shape_invariant.
Qed.

Lemma addPoint_keeps_shape_valid_witness :
  PageTankShape.addThroughPages (Some "30:40,10:20"%string) "20" "30"
    = Some "10:20,20:30,30:40"%string
  /\ PageTankShape.addThroughPages (Some "10:20,30:40"%string) "20" "50"
     = Some "10:20,30:40"%string
  /\ editorInvariant
       (fold_left perform [Add "20" "30"; Add "10" "20"; Add "20" "25"; Remove 0]
          None).
Proof.
  split; [vm_compute; reflexivity|]. split; [vm_compute; reflexivity|].
  apply (addPoint_keeps_shape_valid (Some "30:40,10:20"%string)
           [(30, 40); (10, 20)]%Z "20" "30").
  - reflexivity.
  - reflexivity.
  - vm_compute. reflexivity.
  - repeat (apply List.Forall_cons; [split; cbn [fst snd]; lia|]).
    apply List.Forall_nil.
  - repeat (apply List.Forall_cons; [cbn [fromEditBoxes]; auto|]).
    apply List.Forall_nil.
Defined.

(** A whole percentage from 1 to 99 is not the number zero. *)
Lemma percent_not_zero :
  forall z : Z, (1 <= z <= 99)%Z -> of_Z z <> 0%float.
Proof.
  intros z Hz E.
  assert (H : negb (Leibniz.eqb (of_Z z) 0%float) = true).
  { apply (forall_range (fun z => negb (Leibniz.eqb (of_Z z) 0%float)) 1 99); [|lia].
    vm_compute. reflexivity. }
  apply negb_true_iff in H.
  apply FloatAxioms.Leibniz.eqb_spec in E. congruence.
Qed.

(** A remark on shapes that the editor did not write. The points already
    stored are not checked for their range: on a shape that holds the point
    0:0, which the editor refuses to add but another bus client can write,
    adding 30:50 stores a string whose first point has the coordinates 0. *)
Lemma addPoint_trusts_stored_points :
  PageTankShape.addThroughPages (Some "0:0"%string) "30" "50"
    = Some "0:0,30:50"%string
  /\ stringToPointArray (Some "0:0,30:50"%string) = [[0; 0]; [30; 50]]%float
  /\ ~ (exists zs : list (Z * Z),
          holds (Some "0:0,30:50"%string) zs /\ validShape zs).
Proof.
  assert (Hread : stringToPointArray (Some "0:0,30:50"%string)
                  = [[0; 0]; [30; 50]]%float) by (vm_compute; reflexivity).
  split; [vm_compute; reflexivity|]. split; [exact Hread|].
  intros (zs & Hholds & Hrange & _). unfold holds in Hholds.
  rewrite Hread in Hholds.
  destruct zs as [|[l v] zs]; [discriminate Hholds|].
  apply Forall_cons in Hrange as [[Hl _] _]. cbn [fst] in Hl.
  cbn [map] in Hholds.
  pose proof (f_equal (fun a => at_ 0 (hd [] a)) Hholds) as Hzero.
  cbn [hd] in Hzero.
  apply (percent_not_zero l Hl). symmetry. exact Hzero.
Qed.

End ShapeEditor.

(** ** Conversion round trips *)

Section ConversionRoundTrip.
Import JS TankSensor.
Local Open Scope Z_scope.

(** *** Rounding a number that needs no rounding *)

Lemma bounded_facts :
  forall (m : positive) (e : Z),
    bounded prec emax m e = true ->
    fexp prec emax (Zpos (digits2_pos m) + e) = e /\ e <= emax - prec.
Proof.
  intros m e H. unfold bounded, canonical_mantissa in H.
  apply andb_true_iff in H as [H1 H2].
  split; [apply Z.eqb_eq; exact H1|apply Z.leb_le; exact H2].
Qed.

Lemma round_aux_same :
  forall (s : bool) (m : positive) (e : Z),
    bounded prec emax m e = true ->
    binary_round_aux prec emax s (Zpos m) e loc_Exact = S754_finite s m e.
Proof.
  intros s m e H. destruct (bounded_facts m e H) as [Hc He].
  unfold binary_round_aux, shr_fexp. cbn [Zdigits2 shr_record_of_loc].
  rewrite Hc, Z.sub_diag. cbn [shr shr_m loc_of_shr_record round_nearest_even Zdigits2].
  rewrite Hc, Z.sub_diag. cbn [shr shr_m].
  apply Z.leb_le in He. rewrite He. reflexivity.
Qed.

Lemma round_aux_shifted :
  forall (s : bool) (m M k : positive) (e : Z),
    bounded prec emax m e = true ->
    Zpos (digits2_pos M) = Zpos (digits2_pos m) + Zpos k ->
    SpecFloat.iter_pos shr_1 k (Build_shr_record (Zpos M) false false)
      = Build_shr_record (Zpos m) false false ->
    binary_round_aux prec emax s (Zpos M) (e - Zpos k) loc_Exact = S754_finite s m e.
Proof.
  intros s m M k e H Hd Hshr. destruct (bounded_facts m e H) as [Hc He].
  unfold binary_round_aux, shr_fexp. cbn [Zdigits2 shr_record_of_loc].
  rewrite Hd.
  replace (Zpos (digits2_pos m) + Zpos k + (e - Zpos k)) with (Zpos (digits2_pos m) + e) by lia.
  rewrite Hc.
  replace (e - (e - Zpos k)) with (Zpos k) by lia.
  cbn [shr]. rewrite Hshr. cbn [shr_m loc_of_shr_record round_nearest_even].
  replace (e - Zpos k + Zpos k) with e by lia.
  cbn [Zdigits2]. rewrite Hc, Z.sub_diag. cbn [shr shr_m].
  apply Z.leb_le in He. rewrite He. reflexivity.
Qed.

Lemma mul_one_spec :
  forall x : spec_float,
    valid_binary x = true ->
    SF64mul x (Prim2SF 1%float) = x.
Proof.
  intros x Hx.
  change (Prim2SF 1%float) with (S754_finite false 4503599627370496 (-52)).
  destruct x as [s|s| |s m e]; try (destruct s; reflexivity); [reflexivity|].
  cbn [valid_binary] in Hx.
  unfold SF64mul, SFmul. rewrite xorb_false_r.
  change (e + -52) with (e - 52).
  apply round_aux_shifted; [assumption| |].
  - rewrite Pos.mul_comm. cbv [Pos.mul]. cbn [digits2_pos]. lia.
  - rewrite Pos.mul_comm. reflexivity.
Qed.

Lemma div_eucl_pair : forall a b : Z, Z.div_eucl a b = (a / b, a mod b).
Proof.
  intros a b. unfold Z.div, Z.modulo. destruct (Z.div_eucl a b). reflexivity.
Qed.

Lemma div_core_one :
  forall (m : positive) (e : Z),
    bounded prec emax m e = true ->
    SFdiv_core_binary prec emax (Zpos m) e 4503599627370496 (-52) = (Zpos m, e, loc_Exact)
    \/ SFdiv_core_binary prec emax (Zpos m) e 4503599627370496 (-52)
       = (Zpos m~0, e - 1, loc_Exact).
Proof.
  intros m e H. destruct (bounded_facts m e H) as [Hc He].
  unfold SFdiv_core_binary. cbn [Zdigits2].
  change (Zpos (digits2_pos 4503599627370496)) with 53.
  unfold fexp, emin in *. change (3 - emax - prec) with (-1074) in *.
  change prec with 53 in *.
  set (D := Zpos (digits2_pos m)) in *.
  assert (HD : 0 < D) by (unfold D; lia).
  destruct (Z.eq_dec e (-1074)) as [->|Hne].
  - left.
    replace (Z.min (Z.max (D + -1074 - (53 + -52) - 53) (-1074)) (-1074 - -52))
      with (-1074) by lia.
    change (-1074 - -52 - -1074) with 52.
    cbv iota beta. rewrite div_eucl_pair.
    rewrite Z.shiftl_mul_pow2 by lia.
    rewrite Z.div_mul by lia. rewrite Z.mod_mul by lia. reflexivity.
  - right.
    replace (Z.min (Z.max (D + e - (53 + -52) - 53) (-1074)) (e - -52))
      with (e - 1) by lia.
    replace (e - -52 - (e - 1)) with 53 by lia.
    cbv iota beta. rewrite div_eucl_pair.
    rewrite Z.shiftl_mul_pow2 by lia.
    change (2 ^ 53) with (2 * 4503599627370496).
    rewrite Z.mul_assoc.
    rewrite Z.div_mul by lia. rewrite Z.mod_mul by lia.
    replace (Zpos m * 2) with (Zpos m~0) by lia. reflexivity.
Qed.

Lemma div_one_spec :
  forall x : spec_float,
    valid_binary x = true ->
    SF64div x (Prim2SF 1%float) = x.
Proof.
  intros x Hx.
  change (Prim2SF 1%float) with (S754_finite false 4503599627370496 (-52)).
  destruct x as [s|s| |s m e]; try (destruct s; reflexivity); [reflexivity|].
  cbn [valid_binary] in Hx.
  unfold SF64div, SFdiv. rewrite xorb_false_r.
  destruct (div_core_one m e Hx) as [-> | ->].
  - apply round_aux_same. assumption.
  - apply (round_aux_shifted s m (m~0) 1 e); [assumption| |reflexivity].
    cbn [digits2_pos]. lia.
Qed.

(** Multiplying and dividing by one are exact, on every number. *)
Lemma mul_one : forall x : float, (x * 1)%float = x.
Proof.
  intros x. apply Prim2SF_inj. rewrite mul_spec.
  apply mul_one_spec. apply Prim2SF_valid.
Qed.

Lemma div_one : forall x : float, (x / 1)%float = x.
Proof.
  intros x. apply Prim2SF_inj. rewrite div_spec.
  apply div_one_spec. apply Prim2SF_valid.
Qed.

(** C1, as the code has it. For the cubic-metre selector (every unit other
    than 1, 2 and 3, whose factor is 1) the two conversions are inverse to
    each other on every number. *)
Theorem conversions_inverse_cubic_metre :
  forall (u : Z) (v : number),
    u <> 1 -> u <> 2 -> u <> 3 ->
    volumeConvertToSI u (volumeConvertFromSI u v) = v
    /\ volumeConvertFromSI u (volumeConvertToSI u v) = v.
Proof.
  intros u v H1 H2 H3.
  assert (Hf : (getVolumeFormat u).(factor) = 1%float).
  { destruct u as [|p|p]; [reflexivity| |reflexivity].
    destruct p as [[p|p|]|[p|p|]|]; try reflexivity; contradiction. }
  unfold volumeConvertToSI, volumeConvertFromSI. rewrite Hf.
  rewrite mul_one, div_one. rewrite mul_one. split; reflexivity.
Qed.

Lemma conversions_inverse_cubic_metre_witness :
  volumeConvertToSI 0 (volumeConvertFromSI 0 0.1%float) = 0.1%float
  /\ volumeConvertFromSI 0 (volumeConvertToSI 0 0.1%float) = 0.1%float.
Proof.
  apply conversions_inverse_cubic_metre; discriminate.
Defined.

(** C1, counterexample: with the imperial gallon the round trip of 19 from
    SI and back gives the next number above 19; with the litre the round trip
    of 1001 to SI and back, and with the US gallon that of 23, do not give
    the number back either. *)
Lemma conversions_not_inverse :
  volumeConvertToSI 2 (volumeConvertFromSI 2 19%float) = 19.000000000000004%float
  /\ (volumeConvertToSI 2 (volumeConvertFromSI 2 19%float) =? 19)%float = false
  /\ (volumeConvertFromSI 1 (volumeConvertToSI 1 1001%float) =? 1001)%float = false
  /\ (volumeConvertFromSI 3 (volumeConvertToSI 3 23%float) =? 23)%float = false.
Proof. vm_compute. repeat split. Qed.

End ConversionRoundTrip.

(** ** The order of numbers, against constants *)

Section FloatOrder.

Lemma compare_cont_spec :
  forall a b : positive,
    CompareSpec (a = b) (Z.pos a < Z.pos b)%Z (Z.pos b < Z.pos a)%Z
      (PosDef.Pos.compare_cont Eq a b).
Proof.
  intros a b. change (PosDef.Pos.compare_cont Eq a b) with (Pos.compare a b).
  destruct (Pos.compare_spec a b); constructor; auto using Pos2Z.pos_lt_pos.
Qed.

Ltac spec_constant c :=
  let v := eval vm_compute in (Prim2SF c) in change (Prim2SF c) with v.

Ltac compare_exponents :=
  match goal with
  | |- context [Z.compare ?a ?b] => destruct (Z.compare_spec a b)
  end.

Ltac compare_mantissas :=
  match goal with
  | |- context [PosDef.Pos.compare_cont Eq ?a ?b] =>
      destruct (compare_cont_spec a b)
  end.

Ltac order_cases x :=
  destruct (Prim2SF x) as [s|s| |s m e]; try (destruct s);
  cbn [SFleb SFltb SFcompare]; try discriminate; try reflexivity;
  try compare_exponents; try compare_exponents;
  try compare_mantissas; try compare_mantissas;
  intros; try subst; first [reflexivity | discriminate | lia].

Lemma leb_2_of_3 :
  forall x : float, (3 <=? x)%float = true -> (2 <=? x)%float = true.
Proof.
  intros x. rewrite !FloatAxioms.leb_spec. spec_constant 3%float. spec_constant 2%float.
  order_cases x.
Qed.

Lemma ltb_1_of_2 :
  forall x : float, (2 <=? x)%float = true -> (1 <? x)%float = true.
Proof.
  intros x. rewrite FloatAxioms.leb_spec, FloatAxioms.ltb_spec. spec_constant 2%float. spec_constant 1%float.
  order_cases x.
Qed.

Lemma not_leb_101 :
  forall x : float, (x <=? 100)%float = true -> (101 <=? x)%float = false.
Proof.
  intros x. rewrite !FloatAxioms.leb_spec. spec_constant 100%float. spec_constant 101%float.
  order_cases x.
Qed.

Lemma not_leb_minus_1 :
  forall x : float, (0 <=? x)%float = true -> (x <=? -1)%float = false.
Proof.
  intros x. rewrite !FloatAxioms.leb_spec. spec_constant 0%float. spec_constant (-1)%float.
  order_cases x.
Qed.

Lemma not_leb_0 :
  forall x : float, (x <? 0)%float = true -> (0 <=? x)%float = false.
Proof.
  intros x. rewrite FloatAxioms.leb_spec, FloatAxioms.ltb_spec.
  spec_constant 0%float. order_cases x.
Qed.

Lemma leb_20_of_ltb_0 :
  forall x : float, (x <? 0)%float = true -> (x <=? 20)%float = true.
Proof.
  intros x. rewrite FloatAxioms.leb_spec, FloatAxioms.ltb_spec.
  spec_constant 0%float. spec_constant 20%float. order_cases x.
Qed.

End FloatOrder.

(** ** The warnings of the tile and the lines of the connection values *)

Section TileWarnings.
Import JS.
Local Open Scope float_scope.

(** X12. The warning levels of the tile. With a level from 0 to 100, the bar of a
    waste-water or black-water tank is red from 80 up and the level never
    turns its status text red; the bar and the status text of any other tank
    are red up to 20, and a full tank never turns the bar red. A tank that
    does not answer has a red status text in every case. *)
Theorem level_warnings :
  forall (t : TileTank.tile) (level : number),
    t.(TileTank.levelItem) = Some level ->
    (0 <=? level) = true -> (level <=? 100) = true ->
    TileTank.valueBarColor t =
      (if TileTank.isWasteOrBlack t.(TileTank.fluidTypeItem)
       then if 80 <=? level then "#e74c3c" else "#34495e"
       else if level <=? 20 then "#e74c3c" else "#34495e")
    /\ TileTank.statusColor t =
         (if negb (truthy_opt t.(TileTank.connectedItem)) then "red"
          else if TileTank.isWasteOrBlack t.(TileTank.fluidTypeItem) then "white"
          else if level <=? 20 then "red" else "white").
Proof.
  intros t level Hlevel Hlow Hhigh.
  unfold TileTank.valueBarColor, TileTank.statusColor,
    TileTank.fullWarningLevel, TileTank.emptyWarningLevel.
  rewrite Hlevel. cbn [num].
  destruct (TileTank.isWasteOrBlack (TileTank.fluidTypeItem t)); cbn [negb].
  - rewrite (not_leb_minus_1 level Hlow), orb_false_r. split; reflexivity.
  - rewrite (not_leb_101 level Hhigh), orb_false_l. split; reflexivity.
Qed.

Lemma level_warnings_witness :
  TileTank.valueBarColor (tileOf (Some 5%Z) (Some 85)) = "#e74c3c"%string
  /\ TileTank.statusColor (tileOf (Some 5%Z) (Some 85)) = "white"%string.
Proof.
  apply (level_warnings (tileOf (Some 5%Z) (Some 85)) 85); reflexivity.
Defined.

(** X13. A level that is undefined or negative. The bar is empty and the tile of
    a tank that answers shows ERROR. With an undefined level the bar keeps
    its normal colour and the text of a tank that answers is white, whatever
    the fluid type; with a negative level the bar and the text of a tank that
    is neither waste water nor black water are red. *)
Theorem level_error :
  forall t : TileTank.tile,
    (t.(TileTank.levelItem) = None ->
     TileTank.valueBarWidth t = 0
     /\ TileTank.valueBarColor t = "#34495e"
     /\ (truthy_opt t.(TileTank.connectedItem) = true ->
         TileTank.statusText t = "ERROR" /\ TileTank.statusColor t = "white"))
    /\ (forall level : number,
          t.(TileTank.levelItem) = Some level -> (level <? 0) = true ->
          TileTank.valueBarWidth t = 0
          /\ (truthy_opt t.(TileTank.connectedItem) = true ->
              TileTank.statusText t = "ERROR")
          /\ (TileTank.isWasteOrBlack t.(TileTank.fluidTypeItem) = false ->
              TileTank.valueBarColor t = "#e74c3c"
              /\ TileTank.statusColor t = "red")).
Proof.
  intros t.
  unfold TileTank.valueBarWidth, TileTank.valueBarColor, TileTank.statusText,
    TileTank.statusColor, TileTank.fullWarningLevel, TileTank.emptyWarningLevel.
  split.
  - intros Hlevel. rewrite Hlevel. cbn [num].
    split; [reflexivity|]. split.
    + destruct (TileTank.isWasteOrBlack (TileTank.fluidTypeItem t)); reflexivity.
    + intros ->. cbn [negb].
      destruct (TileTank.isWasteOrBlack (TileTank.fluidTypeItem t));
        split; reflexivity.
  - intros level Hlevel Hneg. rewrite Hlevel. cbn [num].
    rewrite (not_leb_0 level Hneg). split; [reflexivity|]. split.
    + intros ->. reflexivity.
    + intros ->. cbn [negb]. rewrite (leb_20_of_ltb_0 level Hneg), orb_true_r.
      split; [reflexivity|].
      destruct (negb (truthy_opt (TileTank.connectedItem t))); reflexivity.
Qed.

Lemma level_error_witness :
  TileTank.valueBarWidth (tileOf (Some 1%Z) None) = 0
  /\ TileTank.statusText (tileOf (Some 1%Z) None) = "ERROR"
  /\ TileTank.statusColor (tileOf (Some 1%Z) (Some (-1))) = "red".
Proof.
  destruct (level_error (tileOf (Some 1%Z) None)) as [Hnone _].
  destruct (Hnone eq_refl) as (Hwidth & _ & Hstatus).
  destruct (level_error (tileOf (Some 1%Z) (Some (-1)))) as [_ Hneg].
  destruct (Hneg (-1) eq_refl eq_refl) as (_ & _ & Hred).
  split; [exact Hwidth|]. split; [apply Hstatus; reflexivity|].
  apply Hred. reflexivity.
Defined.

(** X14. The tile has no colour, and without a name no title, exactly when the
    fluid type is valid and not one of the six types 0 to 5. *)
Theorem tile_colour_defined :
  forall t : TileTank.tile,
    (TileTank.color t = None <->
     exists c : Z, t.(TileTank.fluidTypeItem) = Some c /\ (c < 0 \/ 5 < c)%Z)
    /\ (emptyOrInvalid t.(TileTank.nameItem) ->
        (TileTank.titleText t = None <-> TileTank.color t = None)).
Proof.
  intros t.
  assert (Hindex : forall (A : Type) (l : list A) (c : Z),
             length l = 6%nat ->
             (TileTank.index l (Some c) = None <-> (c < 0 \/ 5 < c)%Z)).
  { intros A l c Hl. unfold TileTank.index.
    destruct (Z.ltb_spec c 0) as [Hneg|Hpos]; [split; [left; lia|reflexivity]|].
    rewrite nth_error_None, Hl. split; lia. }
  assert (Hcolor : TileTank.color t = None <->
                   exists c : Z, t.(TileTank.fluidTypeItem) = Some c
                                 /\ (c < 0 \/ 5 < c)%Z).
  { unfold TileTank.color.
    destruct (TileTank.fluidTypeItem t) as [c|]; cbn [TileTank.valid].
    - rewrite (Hindex _ TileTank.fluidColor c eq_refl). split.
      + intros H. exists c. split; [reflexivity|assumption].
      + intros (c' & [= <-] & H). assumption.
    - split; [discriminate|]. intros (c & [=] & _). }
  split; [exact Hcolor|].
  intros Hname. rewrite Hcolor. unfold TileTank.titleText.
  assert (Hn : TileTank.nameItem t = None \/ TileTank.nameItem t = Some ""%string)
    by exact Hname.
  destruct Hn as [-> | ->];
    (destruct (TileTank.fluidTypeItem t) as [c|]; cbn [TileTank.valid];
     [rewrite (Hindex _ TileTank.fluidTypes c eq_refl); split;
      [intros H; exists c; split; [reflexivity|assumption]
      |intros (c' & [= <-] & H); assumption]
     |split; [discriminate|intros (c & [=] & _)]]).
Qed.

Lemma tile_colour_defined_witness :
  TileTank.titleText (tileOf (Some 7%Z) (Some 55)) = None
  /\ TileTank.color (tileOf (Some 7%Z) (Some 55)) = None.
Proof.
  destruct (tile_colour_defined (tileOf (Some 7%Z) (Some 55))) as [Hcolor Htitle].
  assert (H : TileTank.color (tileOf (Some 7%Z) (Some 55)) = None).
  { apply Hcolor. exists 7%Z. split; [reflexivity|right; lia]. }
  split; [|exact H]. apply Htitle; [left; reflexivity|exact H].
Defined.

(** X15. The search of [fluidTypeText] is a look-up by position: the option at
    position [v] has the value [v], so the page finds the fluid type the way
    the tile indexes its table, and the text is "Unknown" exactly outside 0
    to 5. *)
Theorem fluidTypeText_by_position :
  forall v : Z,
    PageTankSensor.fluidTypeText v =
      match TileTank.index PageTankSensor.fluidTypes (Some v) with
      | Some option => option.(PageTankSensor.description)
      | None => "Unknown"%string
      end
    /\ (PageTankSensor.fluidTypeText v = "Unknown"%string <-> (v < 0 \/ 5 < v)%Z).
Proof.
  intros v.
  destruct (Z.ltb_spec v 0) as [Hneg|Hpos].
  - assert (H : PageTankSensor.fluidTypeText v = "Unknown"%string).
    { unfold PageTankSensor.fluidTypeText, PageTankSensor.fluidTypes.
      cbn [PageTankSensor.fluidTypeTextFrom PageTankSensor.value].
      repeat match goal with
             | |- context [(?a =? v)%Z] =>
                 destruct (Z.eqb_spec a v); [lia|]
             end.
      reflexivity. }
    split.
    + rewrite H. unfold TileTank.index.
      destruct (Z.ltb_spec v 0); [reflexivity|lia].
    + split; [left; assumption|intros _; exact H].
  - destruct (Z.leb_spec v 5) as [Hin|Hout].
    + assert (Hv : In v [0; 1; 2; 3; 4; 5]%Z) by (cbn [In]; lia).
      cbn [In] in Hv.
      repeat (destruct Hv as [<-|Hv];
              [split; [reflexivity|split; [discriminate|lia]]|]).
      contradiction.
    + assert (H : PageTankSensor.fluidTypeText v = "Unknown"%string).
      { unfold PageTankSensor.fluidTypeText, PageTankSensor.fluidTypes.
        cbn [PageTankSensor.fluidTypeTextFrom PageTankSensor.value].
        repeat match goal with
               | |- context [(?a =? v)%Z] =>
                   destruct (Z.eqb_spec a v); [lia|]
               end.
        reflexivity. }
      split.
      * rewrite H. unfold TileTank.index.
        destruct (Z.ltb_spec v 0); [reflexivity|].
        replace (nth_error PageTankSensor.fluidTypes (Z.to_nat v)) with
          (@None PageTankSensor.MbOption); [reflexivity|].
        symmetry. apply nth_error_None. cbn [length PageTankSensor.fluidTypes]. lia.
      * split; [right; assumption|intros _; exact H].
Qed.

(** X17. The phase lines of the connection values: L3 is shown only with L2, and
    L2 only with L1; no line is shown when the connection or its phase countChar
    is undefined. *)
Theorem phase_lines_nested :
  forall c : undefinedOr TileConnection.connection,
    (TileConnection.visibleL3 c = true -> TileConnection.visibleL2 c = true)
    /\ (TileConnection.visibleL2 c = true -> TileConnection.visibleL1 c = true)
    /\ ((c = None
         \/ exists c', c = Some c' /\ c'.(TileConnection.phaseCount) = None) ->
        TileConnection.visibleL1 c = false
        /\ TileConnection.visibleL2 c = false
        /\ TileConnection.visibleL3 c = false).
Proof.
  intros [c|]; cbn [TileConnection.visibleL1 TileConnection.visibleL2
                      TileConnection.visibleL3].
  - split; [|split].
    + intros H. apply andb_true_iff in H as [Hv H]. rewrite Hv.
      apply leb_2_of_3. exact H.
    + intros H. apply andb_true_iff in H as [Hv H]. rewrite Hv.
      apply ltb_1_of_2. exact H.
    + intros [[=]|(c' & [= <-] & Hcount)]. rewrite Hcount.
      repeat split; reflexivity.
  - split; [discriminate|]. split; [discriminate|]. intros _.
    repeat split; reflexivity.
Qed.

Lemma phase_lines_nested_witness :
  TileConnection.visibleL2 (Some connection_example) = true
  /\ TileConnection.visibleL1 (Some connection_example) = true.
Proof.
  destruct (phase_lines_nested (Some connection_example)) as (H32 & H21 & _).
  assert (H2 : TileConnection.visibleL2 (Some connection_example) = true)
    by (apply H32; reflexivity).
  split; [exact H2|apply H21; exact H2].
Defined.

End TileWarnings.

(** ** The input number of the page title *)

Section TitleNumber.
Import JS.

Lemma occurs_is_digit :
  forall c : ascii, occurs c "0123456789" = is_digit c.
Proof.
  intros [b0 b1 b2 b3 b4 b5 b6 b7].
  destruct b0, b1, b2, b3, b4, b5, b6, b7; reflexivity.
Qed.

Lemma digitsOnly_noDigit :
  forall s : string, noDigit s = true -> PageTankSensor.digitsOnly s = "".
Proof.
  induction s as [|c s IH]; [reflexivity|]. cbn [noDigit PageTankSensor.digitsOnly].
  intros H. apply andb_true_iff in H as [Hc Hs]. apply negb_true_iff in Hc.
  rewrite Hc. apply IH. exact Hs.
Qed.

Lemma digitsOnly_digits :
  forall s : string, over "0123456789" s = true -> PageTankSensor.digitsOnly s = s.
Proof.
  induction s as [|c s IH]; [reflexivity|]. cbn [over PageTankSensor.digitsOnly].
  intros H. apply andb_true_iff in H as [Hc Hs]. rewrite occurs_is_digit in Hc.
  rewrite Hc, (IH Hs). reflexivity.
Qed.

Lemma digitsOnly_app :
  forall s t : string,
    PageTankSensor.digitsOnly (s ++ t) =
      PageTankSensor.digitsOnly s ++ PageTankSensor.digitsOnly t.
Proof.
  induction s as [|c s IH]; intros t.
  - rewrite !append_nil. reflexivity.
  - rewrite append_cons. cbn [PageTankSensor.digitsOnly].
    destruct (is_digit c); [rewrite append_cons|]; rewrite IH; reflexivity.
Qed.

(** X16. The input number of the title. It is made of the digits of the
    connection text, in their order, and of nothing else: a text without a
    digit, or an undefined connection, adds nothing to the title; a text
    that ends in a number gives that number in brackets; digits further to
    the left are put before it. *)
Theorem title_input_number :
  forall p : PageTankSensor.page,
    ((p.(PageTankSensor.connection) = None
      \/ exists s, p.(PageTankSensor.connection) = Some s /\ noDigit s = true) ->
     PageTankSensor.inputNumberStr p = "")
    /\ (forall text n : string,
          p.(PageTankSensor.connection) = Some (text ++ n) ->
          over "0123456789" n = true -> n <> "" ->
          PageTankSensor.inputNumberStr p =
            " (" ++ PageTankSensor.digitsOnly text ++ n ++ ")"
          /\ (noDigit text = true ->
              PageTankSensor.inputNumberStr p = " (" ++ n ++ ")"))
    /\ over "0123456789"
         (match p.(PageTankSensor.connection) with
          | Some s => PageTankSensor.digitsOnly s
          | None => ""
          end) = true.
Proof.
  intros p. unfold PageTankSensor.inputNumberStr. split; [|split].
  - intros [->|(s & -> & Hs)]; [reflexivity|].
    rewrite (digitsOnly_noDigit s Hs). reflexivity.
  - intros text n -> Hn Hnot.
    rewrite digitsOnly_app, (digitsOnly_digits n Hn).
    assert (Hshape : forall d : string,
               match (d ++ n)%string with
               | EmptyString => ""
               | String _ _ => " (" ++ (d ++ n) ++ ")"
               end = " (" ++ d ++ n ++ ")").
    { intros d. destruct d as [|c d].
      - rewrite append_nil. destruct n; [contradiction|reflexivity].
      - rewrite append_cons. rewrite <- (append_cons c d n).
        f_equal. clear. set (x := String c d). clearbody x.
        induction x as [|c' x IH]; [rewrite !append_nil; reflexivity|].
        rewrite !append_cons. f_equal. exact IH. }
    split; [apply Hshape|].
    intros Htext. rewrite Hshape, (digitsOnly_noDigit text Htext), append_nil.
    reflexivity.
  - destruct (PageTankSensor.connection p) as [s|]; [|reflexivity].
    induction s as [|c s IH]; [reflexivity|]. cbn [PageTankSensor.digitsOnly].
    destruct (is_digit c) eqn:Hc; [|exact IH].
    cbn [over]. rewrite occurs_is_digit, Hc, IH. reflexivity.
Qed.

Lemma title_input_number_witness :
  PageTankSensor.inputNumberStr page_example = " (3)".
Proof.
  destruct (title_input_number page_example) as (_ & Hnumber & _).
  apply (Hnumber "Analog input " "3"); [reflexivity|reflexivity|discriminate|reflexivity].
Defined.

End TitleNumber.

(** ** What the custom-shape editor answers *)

Section EditorAnswers.
Import JS TankSensor PageTankShapeAddPoint.

(** *** The check of [addPoint], one step at a time *)

Lemma checkIncreasing_step :
  forall (prev cur : Z * Z) (rest : list (list number)),
    inRange prev -> inRange cur ->
    checkIncreasing (pointOf prev) (pointOf cur :: rest) =
      if (fst cur <=? fst prev)%Z then
        Some "Duplicate sensor level values not allowed"
      else if (snd cur <=? snd prev)%Z then
        Some "Volume values must be increasing"
      else checkIncreasing (pointOf cur) rest.
Proof.
  intros prev cur rest Hp Hc. cbn [checkIncreasing].
  change (at_ 0 (pointOf cur)) with (of_Z (fst cur)).
  change (at_ 0 (pointOf prev)) with (of_Z (fst prev)).
  change (at_ 1 (pointOf cur)) with (of_Z (snd cur)).
  change (at_ 1 (pointOf prev)) with (of_Z (snd prev)).
  rewrite (proj2 (comparisons_agree (fst cur) (fst prev) (proj1 Hc) (proj1 Hp))).
  rewrite (proj2 (comparisons_agree (snd cur) (snd prev) (proj2 Hc) (proj2 Hp))).
  reflexivity.
Qed.

Lemma checkIncreasing_messages :
  forall (rest : list (list number)) (prev : list number),
    checkIncreasing prev rest = None
    \/ checkIncreasing prev rest = Some "Duplicate sensor level values not allowed"
    \/ checkIncreasing prev rest = Some "Volume values must be increasing".
Proof.
  induction rest as [|cur rest IH]; intros prev; [left; reflexivity|].
  cbn [checkIncreasing].
  destruct (at_ 0 cur <=? at_ 0 prev)%float; [right; left; reflexivity|].
  destruct (at_ 1 cur <=? at_ 1 prev)%float; [right; right; reflexivity|].
  apply IH.
Qed.

Lemma checkIncreasing_accepts :
  forall (rest : list (Z * Z)) (prev : Z * Z),
    inRange prev -> Forall inRange rest -> Sorted below (prev :: rest) ->
    checkIncreasing (pointOf prev) (map pointOf rest) = None.
Proof.
  induction rest as [|cur rest IH]; intros prev Hp Hr Hs; [reflexivity|].
  apply Forall_cons in Hr as [Hcur Hr].
  inversion Hs as [|? ? Hs' Hhd]; subst.
  inversion Hhd as [|? ? [Hl Hv]]; subst.
  cbn [map]. rewrite (checkIncreasing_step prev cur _ Hp Hcur).
  destruct (Z.leb_spec (fst cur) (fst prev)); [lia|].
  destruct (Z.leb_spec (snd cur) (snd prev)); [lia|].
  apply IH; assumption.
Qed.

Lemma strongly_sorted_around :
  forall (A : Type) (R : A -> A -> Prop) (before after : list A) (x : A),
    StronglySorted R (before ++ x :: after) ->
    Forall (fun y => R y x) before /\ Forall (R x) after
    /\ StronglySorted R (before ++ after).
Proof.
  intros A R before after x. induction before as [|b before IH]; cbn [app]; intros Hs.
  - inversion Hs as [|? ? Hs' Hx]; subst. auto.
  - inversion Hs as [|? ? Hs' Hb]; subst.
    destruct (IH Hs') as (Hbefore & Hafter & Hrest).
    apply Forall_app in Hb as [Hb1 Hb2]. apply Forall_cons in Hb2 as [Hbx Hb2].
    split; [constructor; assumption|]. split; [assumption|].
    constructor; [assumption|]. apply Forall_app. split; assumption.
Qed.

(** In a sequence that is increasing with the new point in it, the new
    point is where [sort] puts it. *)
Lemma insertByLevel_at :
  forall (p : Z * Z) (before after : list (Z * Z)),
    StronglySorted below (before ++ p :: after) ->
    insertByLevel p (before ++ after) = (before ++ p :: after)%list.
Proof.
  intros p before after. induction before as [|b before IH]; cbn [app]; intros Hs.
  - inversion Hs as [|? ? _ Hp]; subst. destruct after as [|q after]; [reflexivity|].
    apply Forall_cons in Hp as [[Hl _] _]. cbn [insertByLevel].
    destruct (Z.ltb_spec (fst p) (fst q)); [reflexivity|lia].
  - inversion Hs as [|? ? Hs' Hb]; subst.
    apply Forall_app in Hb as [_ Hb]. apply Forall_cons in Hb as [[Hl _] _].
    cbn [insertByLevel]. destruct (Z.ltb_spec (fst p) (fst b)); [lia|].
    rewrite (IH Hs'). reflexivity.
Qed.

(** The check stops on a duplicate level exactly when the sequence holds a
    point of the new point's level. *)
Lemma checkIncreasing_inserted :
  forall (p : Z * Z) (zs : list (Z * Z)) (prev : Z * Z),
    inRange p -> inRange prev -> Forall inRange zs ->
    StronglySorted below (prev :: zs) -> (fst prev <= fst p)%Z ->
    checkIncreasing (pointOf prev) (map pointOf (insertByLevel p zs))
      = Some "Duplicate sensor level values not allowed"
    <-> exists q, In q (prev :: zs) /\ fst q = fst p.
Proof.
  intros p zs. induction zs as [|q zs IH]; intros prev Hp Hprev Hr Hs Hle.
  - cbn [insertByLevel map]. rewrite (checkIncreasing_step prev p _ Hprev Hp).
    destruct (Z.leb_spec (fst p) (fst prev)) as [Hdup|Hnew].
    + split; [|reflexivity]. intros _. exists prev. split; [left; reflexivity|lia].
    + split.
      * destruct (snd p <=? snd prev)%Z; discriminate.
      * intros (q & [<-|[]] & Hq). lia.
  - apply Forall_cons in Hr as [Hq Hr].
    inversion Hs as [|? ? Hs' Hall]; subst.
    apply Forall_cons in Hall as [[Hl Hv] Hall].
    inversion Hs' as [|? ? Hs'' Hqall]; subst.
    cbn [insertByLevel]. destruct (Z.ltb_spec (fst p) (fst q)) as [Hlt|Hge].
    + cbn [map]. rewrite (checkIncreasing_step prev p _ Hprev Hp).
      assert (Hnone : forall q', In q' (q :: zs) -> fst q' <> fst p).
      { intros q' [<-|Hin]; [lia|].
        rewrite List.Forall_forall in Hqall. destruct (Hqall q' Hin). lia. }
      destruct (Z.leb_spec (fst p) (fst prev)) as [Hdup|Hnew].
      * split; [|reflexivity]. intros _. exists prev. split; [left; reflexivity|lia].
      * split.
        -- destruct (snd p <=? snd prev)%Z; [discriminate|].
           rewrite (checkIncreasing_step p q _ Hp Hq).
           destruct (Z.leb_spec (fst q) (fst p)); [lia|].
           destruct (snd q <=? snd p)%Z; [discriminate|].
           rewrite (checkIncreasing_accepts zs q Hq Hr)
             by (apply StronglySorted_Sorted; assumption).
           discriminate.
        -- intros (q' & [<-|Hin] & Hq'); [lia|].
           exfalso. apply (Hnone q' Hin Hq').
    + cbn [map]. rewrite (checkIncreasing_step prev q _ Hprev Hq).
      destruct (Z.leb_spec (fst q) (fst prev)); [lia|].
      destruct (Z.leb_spec (snd q) (snd prev)); [lia|].
      rewrite (IH q Hp Hq Hr Hs' Hge). split.
      * intros (q' & Hin & Hq'). exists q'. split; [right; assumption|assumption].
      * intros (q' & [<-|Hin] & Hq'); [lia|]. exists q'. split; assumption.
Qed.

Lemma check_inserted_duplicate :
  forall (p : Z * Z) (zs : list (Z * Z)) (first : Z * Z) (rest : list (Z * Z)),
    inRange p -> Forall inRange zs -> StronglySorted below zs ->
    insertByLevel p zs = first :: rest ->
    checkIncreasing (pointOf first) (map pointOf rest)
      = Some "Duplicate sensor level values not allowed"
    <-> exists q, In q zs /\ fst q = fst p.
Proof.
  intros p zs first rest Hp Hr Hs Hins. destruct zs as [|q zs].
  - cbn [insertByLevel] in Hins. injection Hins as <- <-. cbn [map checkIncreasing].
    split; [discriminate|]. intros (q & [] & _).
  - apply Forall_cons in Hr as [Hq Hr]. cbn [insertByLevel] in Hins.
    destruct (Z.ltb_spec (fst p) (fst q)) as [Hlt|Hge].
    + injection Hins as <- <-. cbn [map].
      rewrite (checkIncreasing_step p q _ Hp Hq).
      destruct (Z.leb_spec (fst q) (fst p)); [lia|].
      inversion Hs as [|? ? Hs' Hall]; subst. split.
      * destruct (snd q <=? snd p)%Z; [discriminate|].
        rewrite (checkIncreasing_accepts zs q Hq Hr)
          by (apply StronglySorted_Sorted; assumption).
        discriminate.
      * intros (q' & [<-|Hin] & Hq'); [lia|].
        rewrite List.Forall_forall in Hall. destruct (Hall q' Hin). lia.
    + injection Hins as <- <-.
      apply (checkIncreasing_inserted p zs q Hp Hq Hr Hs Hge).
Qed.

(** [addPoint] on a valid shape, in whole percentages. *)
Lemma addPoint_percent :
  forall (shapeItem : undefinedOr string) (zs : list (Z * Z))
         (level volume : string) (first : Z * Z) (rest : list (Z * Z)),
    isEditBoxText level = true -> isEditBoxText volume = true ->
    holds shapeItem zs -> validShape zs ->
    inRange (editBoxValue level, editBoxValue volume) ->
    insertByLevel (editBoxValue level, editBoxValue volume) zs = first :: rest ->
    addPoint shapeItem level volume =
      match checkIncreasing (pointOf first) (map pointOf rest) with
      | Some message => Toast message
      | None => SetValue (pointArrayToString (map pointOf (first :: rest)))
      end.
Proof.
  intros shapeItem zs level volume first rest Hlevel Hvolume Hholds Hvalid Hp Hins.
  destruct (editBox_number level Hlevel) as [Hl Hlr].
  destruct (editBox_number volume Hvolume) as [Hv Hvr].
  set (l := editBoxValue level) in *. set (v := editBoxValue volume) in *.
  destruct Hp as [Hpl Hpv]. cbn [fst snd] in Hpl, Hpv.
  unfold addPoint. unfold holds in Hholds. rewrite Hl, Hv, Hholds.
  rewrite (range_check_agrees l Hlr), (range_check_agrees v Hvr).
  destruct (Z.leb_spec 1 l); [|lia]. destruct (Z.leb_spec l 99); [|lia].
  destruct (Z.leb_spec 1 v); [|lia]. destruct (Z.leb_spec v 99); [|lia].
  cbn [andb negb].
  change [of_Z l; of_Z v] with (pointOf (l, v)).
  rewrite (sort_with_new_point (l, v) zs) by (assumption || split; assumption).
  rewrite Hins. reflexivity.
Qed.


(** *** What [addPoint] answers *)

Ltac valid_shape :=
  split;
  [ repeat (apply List.Forall_cons; [vm_compute; repeat split; discriminate|]);
    apply List.Forall_nil
  | repeat constructor ].

(** X1. A point that fits is accepted. When the stored shape with the entered
    point put in somewhere is a valid shape, [addPoint] stores the string of
    that sequence; through the pages this happens as long as fewer than 10
    points are stored. *)
Theorem addPoint_accepts :
  forall (shapeItem : undefinedOr string) (before after : list (Z * Z))
         (level volume : string),
    isEditBoxText level = true -> isEditBoxText volume = true ->
    holds shapeItem (before ++ after) ->
    validShape (before ++ (editBoxValue level, editBoxValue volume) :: after) ->
    let new := (before ++ (editBoxValue level, editBoxValue volume) :: after)%list in
    addPoint shapeItem level volume = SetValue (pointArrayToString (map pointOf new))
    /\ ((length (before ++ after) <= 9)%nat ->
        PageTankShape.addThroughPages shapeItem level volume
          = Some (pointArrayToString (map pointOf new))).
Proof.
  intros shapeItem before after level volume Hlevel Hvolume Hholds [Hr Hs] new.
  set (p := (editBoxValue level, editBoxValue volume)) in *.
  pose proof (sorted_strongly _ Hs) as Hss.
  destruct (strongly_sorted_around _ below before after p Hss) as (_ & _ & Hzs).
  assert (Hp : inRange p).
  { apply Forall_app in Hr as [_ Hr]. apply Forall_cons in Hr as [Hp _]. exact Hp. }
  assert (Hvalid : validShape (before ++ after)).
  { split; [|apply StronglySorted_Sorted; exact Hzs].
    apply Forall_app in Hr as [Hb Ha]. apply Forall_cons in Ha as [_ Ha].
    apply Forall_app. split; assumption. }
  assert (Hadd : addPoint shapeItem level volume
                 = SetValue (pointArrayToString (map pointOf new))).
  { pose proof (insertByLevel_at p before after Hss) as Hins.
    subst new.
    destruct (before ++ p :: after)%list as [|first rest] eqn:Hnew;
      [destruct before; discriminate Hnew|].
    rewrite (addPoint_percent shapeItem (before ++ after) level volume first rest
               Hlevel Hvolume Hholds Hvalid Hp Hins).
    apply Forall_cons in Hr as [Hfirst Hrest].
    rewrite (checkIncreasing_accepts rest first Hfirst Hrest Hs). reflexivity. }
  split; [exact Hadd|]. intros Hroom.
  unfold PageTankShape.addThroughPages, PageTankShape.addPoint, PageTankShape.model.
  unfold holds in Hholds. rewrite Hholds, length_map.
  destruct (Nat.ltb_spec 9 (length (before ++ after))); [lia|].
  rewrite Hadd. reflexivity.
Qed.

Lemma addPoint_accepts_witness :
  addPoint (Some "10:20,30:40") "20" "30" = SetValue "10:20,20:30,30:40".
Proof.
  refine (eq_trans
            (proj1 (addPoint_accepts (Some "10:20,30:40") [(10, 20)]%Z [(30, 40)]%Z
                      "20" "30" eq_refl eq_refl _ _)) _).
  - vm_compute. reflexivity.
  - valid_shape.
  - vm_compute. reflexivity.
Defined.

(** X2. A level that is already stored is refused as a duplicate, whatever the
    volume entered with it. *)
Theorem addPoint_duplicate_level :
  forall (shapeItem : undefinedOr string) (zs : list (Z * Z))
         (level volume : string) (q : Z * Z),
    isEditBoxText level = true -> isEditBoxText volume = true ->
    holds shapeItem zs -> validShape zs ->
    (1 <= editBoxValue volume <= 99)%Z ->
    In q zs -> fst q = editBoxValue level ->
    addPoint shapeItem level volume
      = Toast "Duplicate sensor level values not allowed".
Proof.
  intros shapeItem zs level volume q Hlevel Hvolume Hholds Hvalid Hv Hin Hq.
  set (p := (editBoxValue level, editBoxValue volume)).
  assert (Hp : inRange p).
  { unfold p. split; cbn [fst snd]; [|exact Hv]. rewrite <- Hq.
    destruct Hvalid as [Hr _]. rewrite List.Forall_forall in Hr.
    exact (proj1 (Hr q Hin)). }
  destruct (insertByLevel p zs) as [|first rest] eqn:Hins.
  { destruct (insertByLevel_split p zs) as (b & a & _ & Hsplit).
    rewrite Hins in Hsplit. destruct b; discriminate Hsplit. }
  rewrite (addPoint_percent shapeItem zs level volume first rest
             Hlevel Hvolume Hholds Hvalid Hp Hins).
  destruct Hvalid as [Hr Hs].
  rewrite (proj2 (check_inserted_duplicate p zs first rest Hp Hr
                    (sorted_strongly _ Hs) Hins)); [reflexivity|].
  exists q. split; assumption.
Qed.

Lemma addPoint_duplicate_level_witness :
  addPoint (Some "10:20,30:40") "30" "50"
    = Toast "Duplicate sensor level values not allowed".
Proof.
  apply (addPoint_duplicate_level (Some "10:20,30:40") [(10, 20); (30, 40)]%Z
           "30" "50" (30, 40)%Z).
  - reflexivity.
  - reflexivity.
  - vm_compute. reflexivity.
  - valid_shape.
  - vm_compute. split; discriminate.
  - right. left. reflexivity.
  - reflexivity.
Defined.

(** X3. A new level whose volume is out of order is refused for its volume:
    some stored point is lower in level without being lower in volume, or
    higher in level without being higher in volume. *)
Theorem addPoint_volume_order :
  forall (shapeItem : undefinedOr string) (zs : list (Z * Z))
         (level volume : string) (q : Z * Z),
    isEditBoxText level = true -> isEditBoxText volume = true ->
    holds shapeItem zs -> validShape zs ->
    (1 <= editBoxValue level <= 99)%Z -> (1 <= editBoxValue volume <= 99)%Z ->
    (forall q', In q' zs -> fst q' <> editBoxValue level) ->
    In q zs ->
    (fst q < editBoxValue level /\ editBoxValue volume <= snd q
     \/ editBoxValue level < fst q /\ snd q <= editBoxValue volume)%Z ->
    addPoint shapeItem level volume = Toast "Volume values must be increasing".
Proof.
  intros shapeItem zs level volume q Hlevel Hvolume Hholds Hvalid Hl Hv Hnew Hin Hq.
  set (p := (editBoxValue level, editBoxValue volume)) in *.
  assert (Hp : inRange p) by (split; assumption).
  destruct (insertByLevel p zs) as [|first rest] eqn:Hins.
  { destruct (insertByLevel_split p zs) as (b & a & _ & Hsplit).
    rewrite Hins in Hsplit. destruct b; discriminate Hsplit. }
  rewrite (addPoint_percent shapeItem zs level volume first rest
             Hlevel Hvolume Hholds Hvalid Hp Hins).
  pose proof (insertByLevel_inRange p zs Hp (proj1 Hvalid)) as Hr'.
  rewrite Hins in Hr'. apply Forall_cons in Hr' as [Hfirst Hrest].
  destruct Hvalid as [Hr Hs].
  destruct (checkIncreasing_messages (map pointOf rest) (pointOf first))
    as [Hnone|[Hdup|Hvol]].
  - exfalso.
    pose proof (checkIncreasing_sorted rest first Hfirst Hrest Hnone) as Hsorted.
    rewrite <- Hins in Hsorted.
    destruct (insertByLevel_split p zs) as (b & a & Hzs & Hsplit).
    rewrite Hsplit in Hsorted. apply sorted_strongly in Hsorted.
    destruct (strongly_sorted_around _ below b a p Hsorted) as (Hb & Ha & _).
    rewrite Hzs in Hin. apply in_app_or in Hin as [Hin|Hin].
    + rewrite List.Forall_forall in Hb. destruct (Hb q Hin) as [H1 H2].
      cbn [fst snd p] in H1, H2. lia.
    + rewrite List.Forall_forall in Ha. destruct (Ha q Hin) as [H1 H2].
      cbn [fst snd p] in H1, H2. lia.
  - exfalso.
    apply (check_inserted_duplicate p zs first rest Hp Hr (sorted_strongly _ Hs) Hins)
      in Hdup as (q' & Hin' & Hq').
    apply (Hnew q' Hin' Hq').
  - rewrite Hvol. reflexivity.
Qed.

Lemma addPoint_volume_order_witness :
  addPoint (Some "10:20,30:40") "20" "50" = Toast "Volume values must be increasing".
Proof.
  apply (addPoint_volume_order (Some "10:20,30:40") [(10, 20); (30, 40)]%Z
           "20" "50" (30, 40)%Z).
  - reflexivity.
  - reflexivity.
  - vm_compute. reflexivity.
  - valid_shape.
  - vm_compute. split; discriminate.
  - vm_compute. split; discriminate.
  - intros q' [<-|[<-|[]]]; vm_compute; discriminate.
  - right. left. reflexivity.
  - right. vm_compute. split; [reflexivity|discriminate].
Defined.

(** X4. The range checks come first and do not look at the stored shape: a level
    that is not from 1 to 99 (an empty edit box counts as 0) is refused as an
    invalid sensor level whatever else was entered, and after it a volume
    that is not from 1 to 99 as an invalid volume. *)
Theorem addPoint_range :
  forall (shapeItem : undefinedOr string) (level volume : string),
    isEditBoxText level = true -> isEditBoxText volume = true ->
    (~ (1 <= editBoxValue level <= 99)%Z ->
     addPoint shapeItem level volume = Toast "Invalid sensor level")
    /\ ((1 <= editBoxValue level <= 99)%Z ->
        ~ (1 <= editBoxValue volume <= 99)%Z ->
        addPoint shapeItem level volume = Toast "Invalid volume").
Proof.
  intros shapeItem level volume Hlevel Hvolume.
  destruct (editBox_number level Hlevel) as [Hl Hlr].
  destruct (editBox_number volume Hvolume) as [Hv Hvr].
  unfold addPoint. rewrite Hl, Hv.
  rewrite (range_check_agrees _ Hlr), (range_check_agrees _ Hvr).
  split.
  - intros Hout.
    destruct (Z.leb_spec 1 (editBoxValue level));
      destruct (Z.leb_spec (editBoxValue level) 99); try reflexivity. lia.
  - intros Hin Hout.
    destruct (Z.leb_spec 1 (editBoxValue level)); [|lia].
    destruct (Z.leb_spec (editBoxValue level) 99); [|lia].
    destruct (Z.leb_spec 1 (editBoxValue volume));
      destruct (Z.leb_spec (editBoxValue volume) 99); try reflexivity. lia.
Qed.

Lemma addPoint_range_witness :
  addPoint (Some "10:20") "" "50" = Toast "Invalid sensor level"
  /\ addPoint (Some "10:20") "50" "00" = Toast "Invalid volume".
Proof.
  destruct (addPoint_range (Some "10:20") "" "50" eq_refl eq_refl) as [Hlevel _].
  destruct (addPoint_range (Some "10:20") "50" "00" eq_refl eq_refl) as [_ Hvolume].
  split.
  - apply Hlevel. vm_compute. intros [H _]. apply H. reflexivity.
  - apply Hvolume.
    + vm_compute. split; discriminate.
    + vm_compute. intros [H _]. apply H. reflexivity.
Defined.

(** *** Removing the point of a row *)

Lemma splice1_at :
  forall (A : Type) (before after : list A) (x : A),
    PageTankShape.splice1 (Z.of_nat (length before)) (before ++ x :: after)
    = (before ++ after)%list.
Proof.
  intros A before after x. unfold PageTankShape.splice1.
  rewrite length_app. cbn [length].
  destruct (Z.ltb_spec (Z.of_nat (length before)) 0); [lia|].
  rewrite Z.min_l by lia. rewrite Nat2Z.id.
  rewrite firstn_app, Nat.sub_diag, firstn_all. cbn [firstn].
  rewrite app_nil_r.
  rewrite skipn_app, skipn_all2 by lia.
  replace (S (length before) - length before)%nat with 1%nat by lia.
  reflexivity.
Qed.

Lemma splice1_beyond :
  forall (A : Type) (l : list A) (i : Z),
    (Z.of_nat (length l) <= i)%Z -> PageTankShape.splice1 i l = l.
Proof.
  intros A l i Hi. unfold PageTankShape.splice1.
  destruct (Z.ltb_spec i 0); [lia|].
  rewrite Z.min_r by lia. rewrite Nat2Z.id.
  rewrite firstn_all, skipn_all2 by lia. apply app_nil_r.
Qed.

Lemma splice1_last :
  forall (A : Type) (l : list A), PageTankShape.splice1 (-1) l = removelast l.
Proof.
  intros A l. unfold PageTankShape.splice1.
  change (-1 <? 0)%Z with true. cbv iota.
  rewrite removelast_firstn_len.
  destruct l as [|x l]; [reflexivity|].
  replace (Z.to_nat (Z.max (Z.of_nat (length (x :: l)) + -1) 0))
    with (Init.Nat.pred (length (x :: l))) by (cbn [length]; lia).
  cbn [length Init.Nat.pred].
  rewrite (skipn_all2 (x :: l)) by (cbn [length]; lia).
  apply app_nil_r.
Qed.

(** X5. [removePoint] takes out the point of the current row and nothing else;
    with no current row (index -1) it takes out the last point, and with an
    index past the last row it takes out none. *)
Theorem removePoint_removes :
  forall shapeItem : undefinedOr string,
    (forall (before after : pointArray) (point : list number),
        stringToPointArray shapeItem = (before ++ point :: after)%list ->
        PageTankShape.removePoint shapeItem (Z.of_nat (length before))
        = pointArrayToString (before ++ after)%list)
    /\ PageTankShape.removePoint shapeItem (-1)
       = pointArrayToString (removelast (stringToPointArray shapeItem))
    /\ (forall i : Z,
          (Z.of_nat (length (stringToPointArray shapeItem)) <= i)%Z ->
          PageTankShape.removePoint shapeItem i
          = pointArrayToString (stringToPointArray shapeItem)).
Proof.
  intros shapeItem. unfold PageTankShape.removePoint, PageTankShape.model.
  split; [|split].
  - intros before after point ->. rewrite splice1_at. reflexivity.
  - rewrite splice1_last. reflexivity.
  - intros i Hi. rewrite (splice1_beyond _ _ i Hi). reflexivity.
Qed.

Lemma removePoint_removes_witness :
  PageTankShape.removePoint (Some "10:20,20:30,30:40") 1 = "10:20,30:40".
Proof.
  refine (eq_trans
            (proj1 (removePoint_removes (Some "10:20,20:30,30:40"))
               [[10; 20]]%float [[30; 40]]%float [20; 30]%float _) _);
    vm_compute; reflexivity.
Defined.

(** X6. Adding a point and removing it again restores the stored shape: the
    string that [addPoint] stored has a row whose removal gives the string of
    the points that were stored before. *)
Theorem add_then_remove :
  forall (shapeItem : undefinedOr string) (zs : list (Z * Z))
         (level volume s : string),
    isEditBoxText level = true -> isEditBoxText volume = true ->
    holds shapeItem zs -> validShape zs ->
    addPoint shapeItem level volume = SetValue s ->
    exists row : nat,
      (row <= length zs)%nat
      /\ nth_error (stringToPointArray (Some s)) row
         = Some (pointOf (editBoxValue level, editBoxValue volume))
      /\ PageTankShape.removePoint (Some s) (Z.of_nat row)
         = pointArrayToString (map pointOf zs)
      /\ holds (Some (PageTankShape.removePoint (Some s) (Z.of_nat row))) zs.
Proof.
  intros shapeItem zs level volume s Hlevel Hvolume Hholds Hvalid Hset.
  pose proof (addPoint_set_in_range shapeItem level volume s Hlevel Hvolume Hset)
    as Hp.
  set (p := (editBoxValue level, editBoxValue volume)) in *.
  destruct (insertByLevel_split p zs) as (before & after & Hzs & Hins).
  pose proof (insertByLevel_inRange p zs Hp (proj1 Hvalid)) as Hr.
  rewrite Hins in Hr.
  assert (Hs : s = pointArrayToString (map pointOf (before ++ p :: after))).
  { destruct (before ++ p :: after)%list as [|first rest] eqn:Hnew;
      [destruct before; discriminate Hnew|].
    rewrite (addPoint_percent shapeItem zs level volume first rest
               Hlevel Hvolume Hholds Hvalid Hp Hins) in Hset.
    destruct (checkIncreasing (pointOf first) (map pointOf rest));
      [discriminate Hset|].
    injection Hset as <-. reflexivity. }
  pose proof (holds_encoding _ Hr) as Hread. unfold holds in Hread.
  rewrite <- Hs, map_app in Hread. cbn [map] in Hread.
  assert (Hremoved : PageTankShape.removePoint (Some s) (Z.of_nat (length before))
                     = pointArrayToString (map pointOf zs)).
  { unfold PageTankShape.removePoint, PageTankShape.model. rewrite Hread.
    rewrite <- (length_map pointOf before), splice1_at, Hzs, map_app.
    reflexivity. }
  exists (length before). split; [rewrite Hzs, length_app; lia|]. split; [|split].
  - rewrite Hread, <- (length_map pointOf before).
    rewrite nth_error_app2, Nat.sub_diag by lia. reflexivity.
  - exact Hremoved.
  - rewrite Hremoved. apply holds_encoding. apply Hvalid.
Qed.

Lemma add_then_remove_witness :
  exists row : nat,
    (row <= 2)%nat
    /\ nth_error (stringToPointArray (Some "10:20,20:30,30:40")) row
       = Some (pointOf (20, 30)%Z)
    /\ PageTankShape.removePoint (Some "10:20,20:30,30:40") (Z.of_nat row)
       = "10:20,30:40"
    /\ holds (Some (PageTankShape.removePoint (Some "10:20,20:30,30:40")
                      (Z.of_nat row))) [(10, 20); (30, 40)]%Z.
Proof.
  apply (add_then_remove (Some "10:20,30:40") [(10, 20); (30, 40)]%Z "20" "30"
           "10:20,20:30,30:40").
  - reflexivity.
  - reflexivity.
  - vm_compute. reflexivity.
  - valid_shape.
  - vm_compute. reflexivity.
Defined.

(** X18. Whatever the order of the stored points, a point that [addPoint]
    accepts is stored in a sequence that is strictly increasing in sensor
    level and in volume: with stored points of whole percentages from 1 to
    99, the string that is stored holds the stored points and the entered
    one, put in increasing order, and is a valid shape. *)
Theorem addPoint_stores_increasing :
  forall (shapeItem : undefinedOr string) (zs : list (Z * Z))
         (level volume s : string),
    isEditBoxText level = true -> isEditBoxText volume = true ->
    holds shapeItem zs -> Forall inRange zs ->
    addPoint shapeItem level volume = SetValue s ->
    exists zs' : list (Z * Z),
      s = pointArrayToString (map pointOf zs')
      /\ holds (Some s) zs'
      /\ validShape zs'
      /\ zs' ≡ₚ (editBoxValue level, editBoxValue volume) :: zs.
Proof.
  intros shapeItem zs level volume s Hlevel Hvolume Hholds Hr Hset.
  pose proof (addPoint_set_in_range shapeItem level volume s Hlevel Hvolume Hset)
    as Hp.
  destruct (editBox_number level Hlevel) as [Hl Hlr].
  destruct (editBox_number volume Hvolume) as [Hv Hvr].
  set (p := (editBoxValue level, editBoxValue volume)) in *.
  set (sorted := fold_left (fun acc x => insertByLevel x acc) (zs ++ [p]) []).
  assert (Hall : Forall inRange (zs ++ [p])).
  { apply Forall_app. split; [exact Hr|]. apply List.Forall_cons; [exact Hp|].
    apply List.Forall_nil. }
  assert (Hsorted : Forall inRange sorted).
  { apply fold_insert_inRange; [exact Hall|apply List.Forall_nil]. }
  assert (Hperm : sorted ≡ₚ p :: zs).
  { unfold sorted. rewrite fold_insert_permutation. cbn [app].
    rewrite <- Permutation_cons_append. reflexivity. }
  unfold addPoint in Hset. unfold holds in Hholds.
  rewrite Hl, Hv, Hholds in Hset.
  rewrite (range_check_agrees _ Hlr), (range_check_agrees _ Hvr) in Hset.
  destruct Hp as [Hpl Hpv]. cbn [fst snd p] in Hpl, Hpv.
  destruct (Z.leb_spec 1 (editBoxValue level)); [|lia].
  destruct (Z.leb_spec (editBoxValue level) 99); [|lia].
  destruct (Z.leb_spec 1 (editBoxValue volume)); [|lia].
  destruct (Z.leb_spec (editBoxValue volume) 99); [|lia].
  cbn [andb negb orb] in Hset.
  change [[of_Z (editBoxValue level); of_Z (editBoxValue volume)]]
    with (map pointOf [p]) in Hset.
  rewrite <- map_app in Hset. unfold sort in Hset.
  pose proof (fold_insert_pointOf (zs ++ [p]) [] Hall (List.Forall_nil _)) as Hfold.
  change (map pointOf []) with (@nil (list number)) in Hfold.
  rewrite Hfold in Hset. clear Hfold. fold sorted in Hset.
  clearbody sorted.
  destruct sorted as [|first rest].
  { exfalso. apply Permutation_nil_l in Hperm. discriminate Hperm. }
  exists (first :: rest). cbn [map] in Hset.
  destruct (checkIncreasing (pointOf first) (map pointOf rest)) eqn:Hcheck;
    [discriminate Hset|].
  injection Hset as <-.
  change (pointOf first :: map pointOf rest) with (map pointOf (first :: rest)).
  apply Forall_cons in Hsorted as [Hfirst Hrest].
  split; [reflexivity|]. split; [|split].
  - apply holds_encoding. apply List.Forall_cons; assumption.
  - split; [apply List.Forall_cons; assumption|].
    apply checkIncreasing_sorted; assumption.
  - exact Hperm.
Qed.

Lemma addPoint_stores_increasing_witness :
  exists zs' : list (Z * Z),
    "10:20,20:30,30:40" = pointArrayToString (map pointOf zs')
    /\ holds (Some "10:20,20:30,30:40") zs'
    /\ validShape zs'
    /\ zs' ≡ₚ (editBoxValue "20", editBoxValue "30") :: [(30, 40); (10, 20)]%Z.
Proof.
  apply (addPoint_stores_increasing (Some "30:40,10:20") [(30, 40); (10, 20)]%Z
           "20" "30" "10:20,20:30,30:40").
  - reflexivity.
  - reflexivity.
  - vm_compute. reflexivity.
  - repeat (apply List.Forall_cons; [vm_compute; repeat split; discriminate|]).
    apply List.Forall_nil.
  - vm_compute. reflexivity.
Defined.

End EditorAnswers.

(** ** Shape texts *)

Section ShapeText.
Import JS TankSensor.

Lemma split_not_empty :
  forall (sep : ascii) (s : string), split sep s <> [].
Proof.
  intros sep s. destruct s as [|c s]; cbn [split]; [discriminate|].
  destruct (Ascii.eqb c sep); [discriminate|].
  destruct (split sep s); discriminate.
Qed.

Lemma join_split :
  forall (sep : ascii) (s : string), join sep (split sep s) = s.
Proof.
  intros sep s. induction s as [|c s IH]; [reflexivity|]. cbn [split].
  destruct (Ascii.eqb_spec c sep) as [->|Hc].
  - destruct (split sep s) as [|h t] eqn:Hsplit;
      [exfalso; apply (split_not_empty sep s Hsplit)|].
    change (join sep ("" :: h :: t)) with ("" ++ String sep (join sep (h :: t))).
    rewrite append_nil, IH. reflexivity.
  - destruct (split sep s) as [|h t] eqn:Hsplit;
      [exfalso; apply (split_not_empty sep s Hsplit)|].
    destruct t as [|h' t].
    + cbn [join] in IH |- *. rewrite IH. reflexivity.
    + change (join sep (String c h :: h' :: t))
        with (String c h ++ String sep (join sep (h' :: t))).
      change (join sep (h :: h' :: t))
        with (h ++ String sep (join sep (h' :: t))) in IH.
      rewrite append_cons, IH. reflexivity.
Qed.

Lemma length_split :
  forall (sep : ascii) (s : string), length (split sep s) = S (countChar sep s).
Proof.
  intros sep s. induction s as [|c s IH]; [reflexivity|]. cbn [split countChar].
  destruct (Ascii.eqb c sep); [cbn [length]; rewrite IH; reflexivity|].
  destruct (split sep s) as [|h t] eqn:Hsplit;
    [exfalso; apply (split_not_empty sep s Hsplit)|].
  exact IH.
Qed.

(** X7. Reading a shape text and writing it back gives the text itself, as long
    as every number in it is written the way [ToString] writes it; the empty
    and the undefined shape are written back as the empty text. *)
Theorem shape_text_roundtrip :
  (forall s : string,
      Forall (fun piece => Forall canonicalText (split ":" piece)) (split "," s) ->
      pointArrayToString (stringToPointArray (Some s)) = s)
  /\ pointArrayToString (stringToPointArray None) = "".
Proof.
  split; [|reflexivity].
  intros s Hs. destruct s as [|c s]; [reflexivity|].
  unfold stringToPointArray, pointArrayToString. rewrite map_map.
  rewrite <- (join_split "," (String c s)) at 2. f_equal.
  induction Hs as [|piece pieces Hpiece _ IH]; [reflexivity|].
  cbn [map]. rewrite IH. f_equal.
  rewrite map_map. rewrite <- (join_split ":" piece) at 2. f_equal.
  clear - Hpiece. induction Hpiece as [|t ts Ht _ IH]; [reflexivity|].
  cbn [map]. rewrite IH. f_equal. exact Ht.
Qed.

Lemma shape_text_roundtrip_witness :
  pointArrayToString (stringToPointArray (Some "10:20,30:40.5")) = "10:20,30:40.5".
Proof.
  apply (proj1 shape_text_roundtrip).
  replace (split "," "10:20,30:40.5") with ["10:20"; "30:40.5"]
    by (vm_compute; reflexivity).
  apply List.Forall_cons; [|apply List.Forall_cons; [|apply List.Forall_nil]].
  - replace (split ":" "10:20") with ["10"; "20"] by (vm_compute; reflexivity).
    repeat (apply List.Forall_cons; [vm_compute; reflexivity|]).
    apply List.Forall_nil.
  - replace (split ":" "30:40.5") with ["30"; "40.5"] by (vm_compute; reflexivity).
    repeat (apply List.Forall_cons; [vm_compute; reflexivity|]).
    apply List.Forall_nil.
Defined.

(** X8. The limit of the [Add] button counts the pieces of the shape text, which
    are one more than its commas: a shape text is refused a further point
    exactly when it has 9 commas or more, and an empty or undefined shape is
    never refused one. *)
Theorem add_button_limit :
  (forall s : string,
      s <> "" ->
      length (PageTankShape.model (Some s)) = S (countChar "," s)
      /\ (PageTankShape.addPoint (Some s)
            = PageTankShape.MaxPoints "Max 10 points allowed"
          <-> (9 <= countChar "," s)%nat))
  /\ PageTankShape.addPoint None = PageTankShape.PushSubpage
  /\ PageTankShape.addPoint (Some "") = PageTankShape.PushSubpage.
Proof.
  split; [|split; reflexivity].
  intros s Hs.
  assert (Hlen : length (PageTankShape.model (Some s)) = S (countChar "," s)).
  { unfold PageTankShape.model, stringToPointArray.
    destruct s as [|c s]; [contradiction|].
    rewrite length_map. apply length_split. }
  split; [exact Hlen|].
  unfold PageTankShape.addPoint. rewrite Hlen.
  destruct (Nat.ltb_spec 9 (S (countChar "," s))); split; try reflexivity;
    try discriminate; lia.
Qed.

Lemma add_button_limit_witness :
  PageTankShape.addPoint (Some ",,,,,,,,,")
    = PageTankShape.MaxPoints "Max 10 points allowed".
Proof.
  destruct (proj1 add_button_limit ",,,,,,,,,") as [_ Hlimit]; [discriminate|].
  apply Hlimit. vm_compute. lia.
Defined.

End ShapeText.

(** ** What the conversions keep *)

Section ConversionClasses.
Import JS TankSensor.
Local Open Scope Z_scope.

(** *** Rounding never makes a NaN of a mantissa that is not negative *)

Lemma shr_1_nonneg :
  forall mrs : shr_record, 0 <= shr_m mrs -> 0 <= shr_m (shr_1 mrs).
Proof.
  intros [m r s] H. cbn [shr_m] in H. unfold shr_1.
  destruct m as [|[p|p|]|p]; cbn [shr_m]; lia.
Qed.

Lemma iter_shr_1_nonneg :
  forall (p : positive) (mrs : shr_record),
    0 <= shr_m mrs -> 0 <= shr_m (SpecFloat.iter_pos shr_1 p mrs).
Proof.
  induction p as [p IH|p IH|]; intros mrs H; cbn [SpecFloat.iter_pos].
  - apply IH, IH, shr_1_nonneg, H.
  - apply IH, IH, H.
  - apply shr_1_nonneg, H.
Qed.

Lemma shr_fexp_nonneg :
  forall (m e : Z) (l : location),
    0 <= m -> 0 <= shr_m (fst (shr_fexp prec emax m e l)).
Proof.
  intros m e l H. unfold shr_fexp, shr.
  assert (H0 : 0 <= shr_m (shr_record_of_loc m l))
    by (destruct l as [|[]]; exact H).
  destruct (fexp prec emax (Zdigits2 m + e) - e) as [|p|p]; cbn [fst];
    [exact H0|apply iter_shr_1_nonneg; exact H0|exact H0].
Qed.

Lemma round_nearest_even_nonneg :
  forall (m : Z) (l : location), 0 <= m -> 0 <= round_nearest_even m l.
Proof.
  intros m l H. unfold round_nearest_even.
  destruct l as [|[]]; [lia| |lia|lia]. destruct (Z.even m); lia.
Qed.

Lemma round_aux_not_nan :
  forall (s : bool) (m e : Z) (l : location),
    0 <= m -> binary_round_aux prec emax s m e l <> S754_nan.
Proof.
  intros s m e l H. unfold binary_round_aux.
  pose proof (shr_fexp_nonneg m e l H) as H1.
  destruct (shr_fexp prec emax m e l) as [mrs' e']. cbn [fst] in H1.
  pose proof (shr_fexp_nonneg _ e' loc_Exact
                (round_nearest_even_nonneg _ (loc_of_shr_record mrs') H1)) as H2.
  destruct (shr_fexp prec emax _ e' loc_Exact) as [mrs'' e'']. cbn [fst] in H2.
  destruct (shr_m mrs'') as [|p|p]; [discriminate| |lia].
  destruct (e'' <=? emax - prec); discriminate.
Qed.

(** *** Multiplying and dividing by a finite number other than zero *)

Lemma mul_finite_class :
  forall (x : spec_float) (s : bool) (m : positive) (e : Z),
    (SF64mul x (S754_finite s m e) = S754_nan <-> x = S754_nan)
    /\ ((exists sx, x = S754_zero sx) ->
        exists sz, SF64mul x (S754_finite s m e) = S754_zero sz).
Proof.
  intros x s m e. unfold SF64mul, SFmul. split; [split|].
  - destruct x as [sx|sx| |sx mx ex]; try discriminate; [reflexivity|].
    intros H. exfalso. revert H. apply round_aux_not_nan. lia.
  - intros ->. reflexivity.
  - intros [sx ->]. eexists. reflexivity.
Qed.

Lemma div_core_nonneg :
  forall (mx my : positive) (ex ey : Z),
    0 <= fst (fst (SFdiv_core_binary prec emax (Zpos mx) ex (Zpos my) ey)).
Proof.
  intros mx my ex ey. unfold SFdiv_core_binary.
  set (s := ex - ey - _).
  set (m' := match s with Z0 => Zpos mx | Zpos _ => Z.shiftl (Zpos mx) s
                        | Zneg _ => 0 end).
  assert (Hm : 0 <= m').
  { unfold m'. destruct s; [lia|apply Z.shiftl_nonneg; lia|lia]. }
  rewrite div_eucl_pair. cbn [fst]. apply Z.div_pos; lia.
Qed.

Lemma div_finite_class :
  forall (x : spec_float) (s : bool) (m : positive) (e : Z),
    (SF64div x (S754_finite s m e) = S754_nan <-> x = S754_nan)
    /\ ((exists sx, x = S754_zero sx) ->
        exists sz, SF64div x (S754_finite s m e) = S754_zero sz).
Proof.
  intros x s m e. unfold SF64div, SFdiv. split; [split|].
  - destruct x as [sx|sx| |sx mx ex]; try discriminate; [reflexivity|].
    pose proof (div_core_nonneg mx m ex e) as Hq.
    destruct (SFdiv_core_binary prec emax (Zpos mx) ex (Zpos m) e) as [[q e'] l].
    cbn [fst] in Hq. intros H. exfalso. revert H. apply round_aux_not_nan. exact Hq.
  - intros ->. reflexivity.
  - intros [sx ->]. eexists. reflexivity.
Qed.

(** *** The tests [isNaN] and [== 0], on the specification *)

Lemma compare_same :
  forall x : spec_float, x <> S754_nan -> SFcompare x x = Some Eq.
Proof.
  intros [s|s| |s m e] H; [reflexivity|destruct s; reflexivity|contradiction|].
  cbn [SFcompare]. rewrite Z.compare_refl.
  change (PosDef.Pos.compare_cont Eq m m) with (Pos.compare m m).
  rewrite Pos.compare_refl. destruct s; reflexivity.
Qed.

Lemma is_nan_spec :
  forall x : float, is_nan x = true <-> Prim2SF x = S754_nan.
Proof.
  intros x. unfold is_nan. rewrite FloatAxioms.eqb_spec. unfold SFeqb. split.
  - intros H. destruct (Prim2SF x) as [s|s| |s m e] eqn:Hx; try reflexivity;
      rewrite compare_same in H by discriminate; discriminate H.
  - intros ->. reflexivity.
Qed.

Lemma is_zero_spec :
  forall x : float, (x =? 0)%float = true <-> exists s, Prim2SF x = S754_zero s.
Proof.
  intros x. rewrite FloatAxioms.eqb_spec.
  change (Prim2SF 0%float) with (S754_zero false). unfold SFeqb. split.
  - destruct (Prim2SF x) as [s|s| |s m e]; cbn [SFcompare];
      try (destruct s; discriminate); try discriminate.
    intros _. exists s. reflexivity.
  - intros [s ->]. reflexivity.
Qed.

Lemma factor_finite :
  forall u : Z,
    exists (m : positive) (e : Z),
      Prim2SF (getVolumeFormat u).(factor) = S754_finite false m e.
Proof.
  intros u.
  assert (H : (getVolumeFormat u).(factor) = 1000%float
              \/ (getVolumeFormat u).(factor) = 219.969157%float
              \/ (getVolumeFormat u).(factor) = 264.172052%float
              \/ (getVolumeFormat u).(factor) = 1%float).
  { destruct u as [|p|p]; [tauto| |tauto].
    destruct p as [[p|p|]|[p|p|]|]; tauto. }
  destruct H as [-> |[-> |[-> | ->]]]; do 2 eexists; vm_compute; reflexivity.
Qed.

(** X9. The conversions keep what a number is, in every unit: the converted
    value is NaN exactly when the value is, so no number is ever turned into
    NaN, and a value of zero is converted to zero. *)
Theorem conversions_keep_class :
  forall (u : Z) (v : number),
    is_nan (volumeConvertFromSI u v) = is_nan v
    /\ is_nan (volumeConvertToSI u v) = is_nan v
    /\ ((v =? 0)%float = true ->
        (volumeConvertFromSI u v =? 0)%float = true
        /\ (volumeConvertToSI u v =? 0)%float = true).
Proof.
  intros u v. unfold volumeConvertFromSI, volumeConvertToSI.
  destruct (factor_finite u) as (m & e & Hf).
  destruct (mul_finite_class (Prim2SF v) false m e) as [Hmul Hmul0].
  destruct (div_finite_class (Prim2SF v) false m e) as [Hdiv Hdiv0].
  rewrite <- Hf, <- mul_spec in Hmul, Hmul0.
  rewrite <- Hf, <- div_spec in Hdiv, Hdiv0.
  rewrite <- !is_nan_spec in Hmul, Hdiv.
  split; [|split].
  - apply eq_true_iff_eq. exact Hmul.
  - apply eq_true_iff_eq. exact Hdiv.
  - intros Hzero. apply is_zero_spec in Hzero.
    split; apply is_zero_spec; auto.
Qed.

Lemma conversions_keep_class_witness :
  (volumeConvertFromSI 2 (-0)%float =? 0)%float = true
  /\ (volumeConvertToSI 2 (-0)%float =? 0)%float = true.
Proof.
  apply (conversions_keep_class 2 (-0)%float). reflexivity.
Defined.

End ConversionClasses.

(** ** The capacity spin box *)

Section CapacityBox.
Import JS TankSensor.

(** X10. The capacity spin box in cubic metres. Leaving the edit mode with a
    changed value hands exactly the entered value to the bus item, and when
    the bus reports that value back the box shows the entered value again;
    leaving without a change hands nothing to the bus item. *)
Theorem capacity_edit_cubic_metres :
  forall (u : Z) (st : PageTankSetup.capacityItem),
    u <> 1%Z -> u <> 2%Z -> u <> 3%Z ->
    let edited := PageTankSetup.onExitEditMode u true st in
    edited.(PageTankSetup.written) = Some st.(PageTankSetup.localValue)
    /\ (PageTankSetup.onValueChanged u edited.(PageTankSetup.written) edited)
         .(PageTankSetup.localValue) = st.(PageTankSetup.localValue)
    /\ (PageTankSetup.onExitEditMode u false st).(PageTankSetup.written)
       = st.(PageTankSetup.written).
Proof.
  intros u st H1 H2 H3 edited. subst edited.
  assert (Hfactor : (getVolumeFormat u).(factor) = 1%float).
  { destruct u as [|[p|p|]|]; try reflexivity; try contradiction;
      destruct p; try reflexivity; contradiction. }
  unfold PageTankSetup.onExitEditMode, PageTankSetup.onValueChanged,
    PageTankSetup.update.
  cbn [PageTankSetup.written PageTankSetup.capacity PageTankSetup.localValue].
  unfold volumeConvertToSI, volumeConvertFromSI. rewrite Hfactor.
  rewrite div_one, mul_one. repeat split; reflexivity.
Qed.

Lemma capacity_edit_cubic_metres_witness :
  (PageTankSetup.onExitEditMode 0 true capacity_example).(PageTankSetup.written)
    = Some 0.25%float.
Proof.
  apply (capacity_edit_cubic_metres 0 capacity_example); discriminate.
Defined.

End CapacityBox.

(** ** The script and the settings store *)

Section ScriptSettings.
Context {host : Type}.
Variable scriptAction : host -> Setup.action.
Variables notCompatible filesUpdated : host -> bool.
Variable standardActionPrompt : host -> host.
Variable logMessage : string -> host -> host.
Variables updateActiveFile restoreActiveFile : string -> host -> host.
Variables installService removeService : string -> host -> host.
Variable setRestartGui : host -> host.
Variable packageName : string.
Variable testBuiltin : list string -> host -> bool.

Local Abbreviation prompt := (Setup.prompt scriptAction standardActionPrompt).
Local Abbreviation install :=
  (Setup.install scriptAction filesUpdated logMessage updateActiveFile
     installService setRestartGui packageName).
Local Abbreviation uninstall :=
  (Setup.uninstall scriptAction notCompatible logMessage restoreActiveFile
     removeService packageName testBuiltin).
Local Abbreviation restartIfUpdated :=
  (Setup.restartIfUpdated filesUpdated setRestartGui).
Local Abbreviation setup :=
  (Setup.setup scriptAction notCompatible filesUpdated standardActionPrompt
     logMessage updateActiveFile restoreActiveFile installService removeService
     setRestartGui packageName testBuiltin).

Lemma prompt_settings :
  forall st : Setup.system, (prompt st).(Setup.settings) = st.(Setup.settings).
Proof.
  intros st. unfold Setup.prompt.
  destruct (scriptAction (Setup.shell st)); reflexivity.
Qed.

Lemma restartIfUpdated_settings :
  forall st : Setup.system,
    (restartIfUpdated st).(Setup.settings) = st.(Setup.settings).
Proof.
  intros st. unfold Setup.restartIfUpdated.
  destruct (filesUpdated (Setup.shell st)); reflexivity.
Qed.

Lemma install_settings :
  forall st : Setup.system, (install st).(Setup.settings) = st.(Setup.settings).
Proof.
  intros st. unfold Setup.install.
  destruct (scriptAction (Setup.shell st)); try reflexivity.
  rewrite restartIfUpdated_settings. reflexivity.
Qed.

Lemma uninstall_lookup :
  forall (st : Setup.system) (path : string),
    (uninstall st).(Setup.settings) !! path = st.(Setup.settings) !! path
    \/ (uninstall st).(Setup.settings) !! path = None
       /\ path ∈ (Setup.bindingSettings ++ Setup.customNameSettings)%list.
Proof.
  intros st path. unfold Setup.uninstall.
  destruct (scriptAction (Setup.shell st)); try (left; reflexivity).
  cbn [Setup.onShell Setup.shell Setup.settings].
  destruct (notCompatible _).
  - cbn [Setup.onShell Setup.onSettings Setup.shell Setup.settings].
    rewrite removeSettings_lookup.
    destruct (decide _) as [Hin|_]; [right; split; [reflexivity|exact Hin]|].
    left. reflexivity.
  - destruct (Setup.serviceNameTest _ _);
      cbn [Setup.onShell Setup.onSettings Setup.shell Setup.settings];
      rewrite removeSettings_lookup;
      (destruct (decide _) as [Hin|_];
       [right; split; [reflexivity|apply elem_of_app; left; exact Hin]
       |left; reflexivity]).
Qed.

(** X11. The script and the settings store, whatever the helpers of SetupHelper
    do to the shell. The script writes no setting: every setting keeps its
    value or is deleted, and only the 16 TankRepeater settings are ever
    deleted. A run that does not reach the [UNINSTALL] branch leaves the
    store as it is; a run that reaches it, a failed install included,
    deletes the [IncomingTankService] / [IncomingTankProductId] binding. *)
Theorem setup_settings :
  forall st : Setup.system,
    let action := scriptAction (install (prompt st)).(Setup.shell) in
    (forall path : string,
        (setup st).(Setup.settings) !! path = st.(Setup.settings) !! path
        \/ (setup st).(Setup.settings) !! path = None
           /\ path ∈ (Setup.bindingSettings ++ Setup.customNameSettings)%list)
    /\ (action <> Setup.UNINSTALL ->
        (setup st).(Setup.settings) = st.(Setup.settings))
    /\ (action = Setup.UNINSTALL ->
        forall path : string,
          path ∈ Setup.bindingSettings ->
          (setup st).(Setup.settings) !! path = None).
Proof.
  intros st action. unfold Setup.setup. rewrite restartIfUpdated_settings.
  split; [|split].
  - intros path.
    destruct (uninstall_lookup (install (prompt st)) path) as [Hsame|Hgone].
    + left. rewrite Hsame, install_settings, prompt_settings. reflexivity.
    + right. exact Hgone.
  - intros Hact. unfold Setup.uninstall. fold action.
    destruct action; try contradiction;
      rewrite install_settings, prompt_settings; reflexivity.
  - intros Hact path Hin. unfold Setup.uninstall. fold action. rewrite Hact.
    cbn [Setup.onShell Setup.shell Setup.settings].
    destruct (notCompatible _).
    + cbn [Setup.onShell Setup.onSettings Setup.shell Setup.settings].
      rewrite removeSettings_lookup.
      destruct (decide _) as [_|Hn]; [reflexivity|].
      exfalso. apply Hn. apply elem_of_app. left. exact Hin.
    + destruct (Setup.serviceNameTest _ _);
        cbn [Setup.onShell Setup.onSettings Setup.shell Setup.settings];
        rewrite removeSettings_lookup;
        (destruct (decide _) as [_|Hn]; [reflexivity|contradiction]).
Qed.

End ScriptSettings.

Lemma setup_settings_witness :
  reinstalled_example.(Setup.settings) = installed_example.(Setup.settings).
Proof.
  apply (setup_settings (fun _ => Setup.INSTALL) (fun _ => false) (fun _ => true)
           (fun log => log) (fun message log => message :: log)
           (fun _ log => log) (fun _ log => log) (fun _ log => log)
           (fun _ log => log) (fun log => log) "TankRepeater" (fun _ _ => false)
           installed_example).
  discriminate.
Defined.

(** ** Correct rounding, over the real numbers *)

(** [round_ratio] is [SFdiv]'s rounding of a quotient of integers. The
    lemmas of this section relate it to the real value of the quotient: the
    Number depends on that value only, and a value close enough to a Number
    is rounded to it. *)

Section Rounding.
Import JS.
Local Open Scope R_scope.

(** *** Powers of two *)

Lemma bpow_pos : forall e : Z, 0 < bpow e.
Proof. intros e. apply powerRZ_lt. lra. Qed.

Lemma bpow_add : forall a b : Z, bpow (a + b) = bpow a * bpow b.
Proof. intros a b. apply powerRZ_add. lra. Qed.

Lemma bpow_1 : bpow 1 = 2.
Proof. apply powerRZ_1. Qed.

Lemma bpow_0 : bpow 0 = 1.
Proof. reflexivity. Qed.

Lemma bpow_succ : forall e : Z, bpow (e + 1) = 2 * bpow e.
Proof. intros e. rewrite bpow_add, bpow_1. lra. Qed.

Lemma bpow_pred : forall e : Z, bpow (e - 1) = bpow e / 2.
Proof.
  intros e. replace e with ((e - 1) + 1)%Z at 2 by lia. rewrite bpow_succ. lra.
Qed.

Lemma bpow_opp : forall e : Z, bpow (- e) * bpow e = 1.
Proof.
  intros e. rewrite <- bpow_add. replace (- e + e)%Z with 0%Z by lia. reflexivity.
Qed.

Lemma bpow_IZR : forall k : Z, (0 <= k)%Z -> bpow k = IZR (2 ^ k).
Proof.
  intros k Hk. unfold bpow.
  rewrite <- (Z2Nat.id k Hk) at 1. rewrite <- pow_powerRZ.
  rewrite pow_IZR. rewrite Z2Nat.id by exact Hk. reflexivity.
Qed.

Lemma bpow_ge_1 : forall k : Z, (0 <= k)%Z -> 1 <= bpow k.
Proof.
  intros k Hk. rewrite (bpow_IZR k Hk). apply IZR_le.
  pose proof (Z.pow_pos_nonneg 2 k ltac:(lia) Hk). lia.
Qed.

Lemma bpow_le : forall a b : Z, (a <= b)%Z -> bpow a <= bpow b.
Proof.
  intros a b H. replace b with (a + (b - a))%Z by lia. rewrite bpow_add.
  pose proof (bpow_pos a). pose proof (bpow_ge_1 (b - a) ltac:(lia)). nra.
Qed.

Lemma bpow_lt : forall a b : Z, (a < b)%Z -> bpow a < bpow b.
Proof.
  intros a b H. apply Rlt_le_trans with (bpow (a + 1)).
  - rewrite bpow_succ. pose proof (bpow_pos a). lra.
  - apply bpow_le. lia.
Qed.

Lemma bpow_lt_inv : forall a b : Z, bpow a < bpow b -> (a < b)%Z.
Proof.
  intros a b H. destruct (Z_lt_le_dec a b) as [Hlt|Hge]; [exact Hlt|].
  pose proof (bpow_le b a Hge). lra.
Qed.

(** The binade of a positive number is unique. *)
Lemma binade_unique :
  forall (v : R) (a b : Z),
    bpow (a - 1) <= v < bpow a -> bpow (b - 1) <= v < bpow b -> a = b.
Proof.
  intros v a b [Ha1 Ha2] [Hb1 Hb2].
  assert (H1 : (a - 1 < b)%Z) by (apply bpow_lt_inv; lra).
  assert (H2 : (b - 1 < a)%Z) by (apply bpow_lt_inv; lra).
  lia.
Qed.

(** *** The number of binary digits *)

Lemma digits2_bounds :
  forall p : positive,
    (2 ^ (Zpos (digits2_pos p) - 1) <= Zpos p < 2 ^ Zpos (digits2_pos p))%Z.
Proof.
  induction p as [p IH|p IH|]; cbn [digits2_pos].
  - rewrite Pos2Z.inj_succ.
    replace (Z.succ (Zpos (digits2_pos p)) - 1)%Z
      with (Z.succ (Zpos (digits2_pos p) - 1)) by lia.
    rewrite !Z.pow_succ_r by lia. lia.
  - rewrite Pos2Z.inj_succ.
    replace (Z.succ (Zpos (digits2_pos p)) - 1)%Z
      with (Z.succ (Zpos (digits2_pos p) - 1)) by lia.
    rewrite !Z.pow_succ_r by lia. lia.
  - cbn. lia.
Qed.

Lemma digits2_bpow :
  forall p : positive,
    bpow (Zpos (digits2_pos p) - 1) <= IZR (Zpos p) < bpow (Zpos (digits2_pos p)).
Proof.
  intros p. destruct (digits2_bounds p) as [H1 H2].
  rewrite !bpow_IZR by lia. split; [apply IZR_le|apply IZR_lt]; assumption.
Qed.

(** *** What a shift record stands for *)

Lemma inbits_unique :
  forall (y : R) (m m' : Z) (r s r' s' : bool),
    inbits y m r s -> inbits y m' r' s' -> m = m' /\ r = r' /\ s = s'.
Proof.
  intros y m m' r s r' s' (_ & [H1 H2] & Hb) (_ & [H1' H2'] & Hb').
  assert (Hm : m = m').
  { assert (IZR m < IZR m' + 1) by lra. assert (IZR m' < IZR m + 1) by lra.
    rewrite <- plus_IZR in *. apply lt_IZR in H, H0. lia. }
  subst m'. split; [reflexivity|].
  destruct r, s, r', s'; split; try reflexivity; exfalso; lra.
Qed.

Lemma stands_unique :
  forall (v : R) (E : Z) (a b : shr_record), stands v E a -> stands v E b -> a = b.
Proof.
  intros v E [m r s] [m' r' s'] Ha Hb. unfold stands in *. cbn [shr_m shr_r shr_s] in *.
  destruct (inbits_unique _ _ _ _ _ _ _ Ha Hb) as (-> & -> & ->). reflexivity.
Qed.

Lemma stands_shr_1 :
  forall (v : R) (E : Z) (mrs : shr_record),
    stands v E mrs -> stands v (E + 1) (shr_1 mrs).
Proof.
  intros v E [m r s]. unfold stands. cbn [shr_m shr_r shr_s].
  replace (- (E + 1))%Z with (- E - 1)%Z by lia. rewrite bpow_pred.
  set (y := v * bpow (- E)). replace (v * (bpow (- E) / 2)) with (y / 2) by (unfold y; lra).
  clearbody y. intros (Hm & [H1 H2] & Hb). unfold shr_1.
  destruct m as [|[p|p|]|p]; [| | | |lia]; cbn [shr_m shr_r shr_s].
  - unfold inbits. split; [lia|]. destruct r, s; cbn [orb]; lra.
  - unfold inbits. split; [lia|]. rewrite Pos2Z.inj_xI, plus_IZR, mult_IZR in *.
    destruct r, s; cbn [orb]; lra.
  - unfold inbits. split; [lia|]. rewrite Pos2Z.inj_xO, mult_IZR in *.
    destruct r, s; cbn [orb]; lra.
  - unfold inbits. split; [lia|]. destruct r, s; cbn [orb]; lra.
Qed.

Lemma stands_iter :
  forall (p : positive) (v : R) (E : Z) (mrs : shr_record),
    stands v E mrs -> stands v (E + Zpos p) (SpecFloat.iter_pos shr_1 p mrs).
Proof.
  induction p as [p IH|p IH|]; intros v E mrs H; cbn [SpecFloat.iter_pos].
  - replace (E + Zpos p~1)%Z with (E + 1 + Zpos p + Zpos p)%Z by lia.
    apply IH, IH, stands_shr_1, H.
  - replace (E + Zpos p~0)%Z with (E + Zpos p + Zpos p)%Z by lia.
    apply IH, IH, H.
  - apply stands_shr_1, H.
Qed.

Lemma stands_shr :
  forall (v : R) (E n : Z) (mrs : shr_record),
    stands v E mrs -> (0 <= n)%Z ->
    stands v (E + n) (fst (shr mrs E n)) /\ snd (shr mrs E n) = (E + n)%Z.
Proof.
  intros v E n mrs H Hn. unfold shr. destruct n as [|p|p]; [| |lia]; cbn [fst snd].
  - rewrite Z.add_0_r. split; [exact H|reflexivity].
  - split; [apply stands_iter; exact H|reflexivity].
Qed.

Lemma stands_of_loc :
  forall (v : R) (E m : Z) (l : location),
    stands v E (shr_record_of_loc m l) ->
    shr_m (shr_record_of_loc m l) = m
    /\ loc_of_shr_record (shr_record_of_loc m l) = l.
Proof. intros v E m l _. destruct l as [|[]]; split; reflexivity. Qed.

(** *** The quotient and its location *)

Lemma new_location_spec :
  forall d r : Z,
    (0 < d)%Z -> (0 <= r < d)%Z ->
    new_location d r
    = if (r =? 0)%Z then loc_Exact else loc_Inexact (2 * r ?= d)%Z.
Proof.
  intros d r Hd Hr. unfold new_location, new_location_even, new_location_odd.
  destruct (Z.even d) eqn:He; [reflexivity|].
  destruct (Z.eqb_spec r 0) as [_|Hnz]; [reflexivity|]. f_equal.
  assert (Hodd : Z.odd d = true) by (rewrite <- Z.negb_even, He; reflexivity).
  apply Z.odd_spec in Hodd as [k Hk].
  destruct (Z.compare_spec (2 * r + 1) d); destruct (Z.compare_spec (2 * r) d);
    try reflexivity; lia.
Qed.

Lemma fexp_values :
  forall z : Z, fexp prec emax z = Z.max (z - 53) (-1074).
Proof. reflexivity. Qed.

Lemma div_core_stands :
  forall n d : positive,
    exists (q e : Z) (l : location),
      SFdiv_core_binary prec emax (Zpos n) 0 (Zpos d) 0 = (q, e, l)
      /\ stands (IZR (Zpos n) / IZR (Zpos d)) e (shr_record_of_loc q l)
      /\ (e <= fexp prec emax (Zdigits2 q + e))%Z.
Proof.
  intros n d. unfold SFdiv_core_binary.
  cbn [Zdigits2]. rewrite !Z.add_0_r, Z.sub_0_r.
  set (d1 := Zpos (digits2_pos n)). set (d2 := Zpos (digits2_pos d)).
  set (e := Z.min (fexp prec emax (d1 - d2)) 0).
  assert (He0 : (e <= 0)%Z) by (unfold e; lia).
  set (m' := match (0 - e)%Z with
             | 0%Z => Zpos n
             | Zpos _ => Z.shiftl (Zpos n) (0 - e)
             | Zneg _ => 0%Z
             end).
  assert (Hm' : m' = (Zpos n * 2 ^ (- e))%Z).
  { unfold m'. replace (0 - e)%Z with (- e)%Z by lia.
    destruct (- e)%Z as [|p|p] eqn:Hs; [lia| |lia].
    rewrite Z.shiftl_mul_pow2 by lia. reflexivity. }
  rewrite div_eucl_pair.
  exists (m' / Zpos d)%Z, e, (new_location (Zpos d) (m' mod Zpos d)).
  split; [reflexivity|].
  set (q := (m' / Zpos d)%Z). set (r := (m' mod Zpos d)%Z).
  assert (Hdiv : m' = (Zpos d * q + r)%Z) by (apply Z.div_mod; lia).
  assert (Hr : (0 <= r < Zpos d)%Z) by (apply Z.mod_pos_bound; lia).
  assert (Hm0 : (0 <= m')%Z) by (rewrite Hm'; apply Z.mul_nonneg_nonneg;
                                 [lia|apply Z.pow_nonneg; lia]).
  assert (Hq : (0 <= q)%Z) by (apply Z.div_pos; lia).
  set (v := IZR (Zpos n) / IZR (Zpos d)).
  assert (HD : 0 < IZR (Zpos d)) by (apply IZR_lt; lia).
  assert (Hy : v * bpow (- e) * IZR (Zpos d) = IZR (Zpos d) * IZR q + IZR r).
  { rewrite <- mult_IZR, <- plus_IZR, <- Hdiv, Hm', mult_IZR.
    rewrite <- (bpow_IZR (- e)) by lia. unfold v. field. lra. }
  assert (Hstands : stands v e (shr_record_of_loc q (new_location (Zpos d) r))).
  { unfold stands. set (y := v * bpow (- e)) in *. clearbody y.
    assert (Hr0 : 0 <= IZR r) by (apply IZR_le; lia).
    assert (Hr1 : IZR r < IZR (Zpos d)) by (apply IZR_lt; lia).
    rewrite (new_location_spec (Zpos d) r ltac:(lia) Hr).
    destruct (Z.eqb_spec r 0) as [Hrz|Hrnz].
    - cbn [shr_record_of_loc shr_m shr_r shr_s]. unfold inbits.
      rewrite Hrz in Hy. split; [exact Hq|]. split; nra.
    - assert (Hrpos : 0 < IZR r) by (apply IZR_lt; lia).
      destruct (Z.compare_spec (2 * r) (Zpos d)) as [Hc|Hc|Hc];
        cbn [shr_record_of_loc shr_m shr_r shr_s]; unfold inbits;
        (split; [exact Hq|]).
      + apply (f_equal IZR) in Hc. rewrite mult_IZR in Hc. split; nra.
      + apply IZR_lt in Hc. rewrite mult_IZR in Hc. split; nra.
      + apply IZR_lt in Hc. rewrite mult_IZR in Hc. split; nra. }
  split; [exact Hstands|].
  (* the exponent is not above the target *)
  destruct (digits2_bpow n) as [Hn1 Hn2]. destruct (digits2_bpow d) as [Hd1 Hd2].
  fold d1 in Hn1, Hn2. fold d2 in Hd1, Hd2.
  assert (Hv : bpow (d1 - d2 - 1) < v).
  { unfold v. replace (d1 - d2 - 1)%Z with ((d1 - 1) + - d2)%Z by lia.
    rewrite bpow_add. pose proof (bpow_opp d2). pose proof (bpow_pos d2).
    pose proof (bpow_pos (- d2)). pose proof (bpow_pos (d1 - 1)).
    apply Rlt_le_trans with (bpow (d1 - 1) / IZR (Zpos d)).
    - unfold Rdiv. apply Rmult_lt_compat_l; [assumption|].
      apply Rmult_lt_reg_r with (IZR (Zpos d)); [assumption|].
      rewrite Rinv_l by lra. nra.
    - unfold Rdiv. apply Rmult_le_compat_r; [|assumption].
      apply Rlt_le, Rinv_0_lt_compat. assumption. }
  destruct Hstands as (_ & [Hy1 Hy2] & _).
  assert (Hsq : shr_m (shr_record_of_loc q (new_location (Zpos d) r)) = q)
    by (destruct (new_location (Zpos d) r) as [|[]]; reflexivity).
  rewrite Hsq in Hy1, Hy2.
  rewrite !fexp_values. pose proof (fexp_values (d1 - d2)) as Hf.
  destruct q as [|qp|qp]; [| |lia]; cbn [Zdigits2].
  - (* the quotient is zero: the value is below the least exponent *)
    assert (Hve : v < bpow e).
    { pose proof (bpow_opp e). pose proof (bpow_pos e). pose proof (bpow_pos (- e)).
      apply Rmult_lt_reg_r with (bpow (- e)); [assumption|]. nra. }
    assert (Hlt : (d1 - d2 - 1 < e)%Z) by (apply bpow_lt_inv; lra).
    unfold e in *. lia.
  - destruct (digits2_bpow qp) as [Hq1 Hq2].
    set (dq := Zpos (digits2_pos qp)) in *.
    assert (Hve : v < bpow (dq + e)).
    { rewrite bpow_add. pose proof (bpow_opp e). pose proof (bpow_pos e).
      pose proof (bpow_pos (- e)).
      assert (Hq3 : IZR (Zpos qp) + 1 <= bpow dq).
      { rewrite bpow_IZR by (unfold dq; lia). rewrite <- plus_IZR. apply IZR_le.
        pose proof (digits2_bounds qp) as Hb. fold dq in Hb.
        rewrite Z.add_1_r. apply Z.le_succ_l, Hb. }
      apply Rmult_lt_reg_r with (bpow (- e)); [assumption|].
      replace (bpow dq * bpow e * bpow (- e)) with (bpow dq)
        by (rewrite Rmult_assoc, (Rmult_comm (bpow e)), H; ring).
      lra. }
    assert (Hlt : (d1 - d2 - 1 < dq + e)%Z) by (apply bpow_lt_inv; lra).
    unfold e in *. lia.
Qed.

(** *** Rounding as a relation on the value *)

Lemma binary_round_aux_finish :
  forall (sx : bool) (m e : Z) (l : location),
    binary_round_aux prec emax sx m e l
    = finish sx (fst (shr_fexp prec emax m e l)) (snd (shr_fexp prec emax m e l)).
Proof.
  intros sx m e l. unfold binary_round_aux, finish.
  destruct (shr_fexp prec emax m e l). reflexivity.
Qed.

Lemma target_unique :
  forall (v : R) (t1 t2 : Z), target v t1 -> target v t2 -> t1 = t2.
Proof.
  intros v t1 t2 [[H1 ->]|(L1 & H1 & ->)] [[H2 ->]|(L2 & H2 & ->)].
  - reflexivity.
  - assert (L2 - 1 < -1074)%Z by (apply bpow_lt_inv; lra).
    rewrite fexp_values. lia.
  - assert (L1 - 1 < -1074)%Z by (apply bpow_lt_inv; lra).
    rewrite fexp_values. lia.
  - rewrite (binade_unique v L1 L2 H1 H2). reflexivity.
Qed.

Lemma rounds_unique :
  forall (v : R) (neg : bool) (x y : float),
    rounds v neg x -> rounds v neg y -> x = y.
Proof.
  intros v neg x y (t1 & m1 & Ht1 & Hs1 & ->) (t2 & m2 & Ht2 & Hs2 & ->).
  rewrite (target_unique v t1 t2 Ht1 Ht2) in *.
  rewrite (stands_unique v t2 m1 m2 Hs1 Hs2). reflexivity.
Qed.

Lemma round_ratio_rounds :
  forall (neg : bool) (n d : positive),
    rounds (IZR (Zpos n) / IZR (Zpos d)) neg (round_ratio neg n d).
Proof.
  intros neg n d. destruct (div_core_stands n d) as (q & e & l & Hcore & Hst & Hle).
  unfold round_ratio. rewrite Hcore, binary_round_aux_finish.
  set (v := IZR (Zpos n) / IZR (Zpos d)) in *.
  set (t := fexp prec emax (Zdigits2 q + e)) in *.
  assert (Hshift : stands v t (fst (shr_fexp prec emax q e l))
                   /\ snd (shr_fexp prec emax q e l) = t).
  { unfold shr_fexp. fold t.
    destruct (stands_shr v e (t - e) (shr_record_of_loc q l) Hst ltac:(lia))
      as [H1 H2].
    replace (e + (t - e))%Z with t in H1, H2 by lia. split; assumption. }
  destruct Hshift as [Hs1 Hs2]. rewrite Hs2.
  exists t, (fst (shr_fexp prec emax q e l)).
  split; [|split; [exact Hs1|reflexivity]].
  destruct (stands_of_loc v e q l Hst) as [Hm _].
  destruct Hst as (Hq0 & [Hy1 Hy2] & _). rewrite Hm in Hq0, Hy1, Hy2.
  pose proof (bpow_opp e) as Hinv. pose proof (bpow_pos e) as Hpe.
  pose proof (bpow_pos (- e)) as Hpne.
  assert (Hv : v = v * bpow (- e) * bpow e)
    by (rewrite Rmult_assoc, Hinv; ring).
  destruct q as [|qp|qp]; [| |lia].
  - left. unfold t in *. cbn [Zdigits2] in *. rewrite fexp_values in *.
    assert (He : (e <= -1074)%Z) by lia.
    split; [|lia].
    apply Rlt_le_trans with (bpow e); [|apply bpow_le; exact He].
    rewrite Hv. nra.
  - right. exists (Zpos (digits2_pos qp) + e)%Z. split; [|reflexivity].
    destruct (digits2_bpow qp) as [Hq1 Hq2].
    assert (Hq3 : IZR (Zpos qp) + 1 <= bpow (Zpos (digits2_pos qp))).
    { rewrite bpow_IZR by lia. rewrite <- plus_IZR. apply IZR_le.
      rewrite Z.add_1_r. apply Z.le_succ_l, digits2_bounds. }
    replace (Zpos (digits2_pos qp) + e - 1)%Z
      with ((Zpos (digits2_pos qp) - 1) + e)%Z by lia.
    rewrite !bpow_add. pose proof (bpow_pos (Zpos (digits2_pos qp) - 1)).
    rewrite Hv. split.
    + apply Rmult_le_compat_r; lra.
    + apply Rmult_lt_compat_r; lra.
Qed.

(** The Number value of a quotient depends on the value of the quotient
    only. *)
Lemma round_ratio_ext :
  forall (neg : bool) (n1 d1 n2 d2 : positive),
    (Zpos n1 * Zpos d2 = Zpos n2 * Zpos d1)%Z ->
    round_ratio neg n1 d1 = round_ratio neg n2 d2.
Proof.
  intros neg n1 d1 n2 d2 H.
  apply (rounds_unique (IZR (Zpos n1) / IZR (Zpos d1)) neg).
  - apply round_ratio_rounds.
  - replace (IZR (Zpos n1) / IZR (Zpos d1)) with (IZR (Zpos n2) / IZR (Zpos d2)).
    + apply round_ratio_rounds.
    + apply (f_equal IZR) in H. rewrite !mult_IZR in H.
      assert (0 < IZR (Zpos d1)) by (apply IZR_lt; lia).
      assert (0 < IZR (Zpos d2)) by (apply IZR_lt; lia).
      field_simplify_eq; [|lra]. lra.
Qed.

Lemma finish_opp :
  forall (mrs : shr_record) (t : Z),
    SF2Prim (finish true mrs t) = (- SF2Prim (finish false mrs t))%float.
Proof.
  intros mrs t. unfold finish.
  destruct (shr_fexp prec emax _ t loc_Exact) as [mrs'' e''].
  destruct (shr_m mrs'') as [|m|m]; [reflexivity| |reflexivity].
  destruct (e'' <=? emax - prec)%Z; reflexivity.
Qed.

Lemma round_ratio_opp :
  forall n d : positive,
    round_ratio true n d = (- round_ratio false n d)%float.
Proof.
  intros n d. unfold round_ratio.
  destruct (SFdiv_core_binary prec emax (Zpos n) 0 (Zpos d) 0) as [[q e] l].
  rewrite !binary_round_aux_finish. apply finish_opp.
Qed.

Lemma of_decimal_opp :
  forall (m : N) (e : Z), of_decimal true m e = (- of_decimal false m e)%float.
Proof.
  intros [|p] e; [reflexivity|]. unfold of_decimal.
  destruct e; apply round_ratio_opp.
Qed.

(** *** A value close enough to a number rounds to it *)

Lemma shr_fexp_bounded :
  forall (mx : positive) (ex : Z),
    SpecFloat.bounded prec emax mx ex = true ->
    shr_fexp prec emax (Zpos mx) ex loc_Exact
    = ({| shr_m := Zpos mx; shr_r := false; shr_s := false |}, ex).
Proof.
  intros mx ex Hb. destruct (bounded_facts mx ex Hb) as [Hf _].
  unfold shr_fexp. cbn [Zdigits2]. rewrite Hf, Z.sub_diag. reflexivity.
Qed.

Lemma finish_exact :
  forall (sx : bool) (v : R) (mx : positive) (ex : Z) (mrs : shr_record),
    SpecFloat.bounded prec emax mx ex = true ->
    stands v ex mrs ->
    IZR (Zpos mx) - / 2 < v * bpow (- ex) < IZR (Zpos mx) + / 2 ->
    finish sx mrs ex = S754_finite sx mx ex.
Proof.
  intros sx v mx ex [m r s] Hb Hst [Hy1 Hy2].
  destruct (bounded_facts mx ex Hb) as [_ Hemax].
  unfold stands in Hst. cbn [shr_m shr_r shr_s] in Hst.
  set (y := v * bpow (- ex)) in *. clearbody y.
  destruct Hst as (Hm & [H1 H2] & Hbits).
  assert (Hlt : (m < Zpos mx + 1)%Z) by (apply lt_IZR; rewrite plus_IZR; lra).
  assert (Hgt : (Zpos mx - 2 < m)%Z) by (apply lt_IZR; rewrite minus_IZR; lra).
  assert (Hcases : m = Zpos mx \/ m = (Zpos mx - 1)%Z) by lia.
  assert (Hend : finish sx {| shr_m := Zpos mx; shr_r := false; shr_s := false |} ex
                 = S754_finite sx mx ex).
  { unfold finish. cbn [shr_m loc_of_shr_record round_nearest_even].
    rewrite (shr_fexp_bounded mx ex Hb). cbn [shr_m].
    destruct (Z.leb_spec ex (emax - prec)) as [_|Hn]; [reflexivity|].
    exfalso. apply (Z.lt_irrefl ex). eapply Z.le_lt_trans; eassumption. }
  destruct Hcases as [-> | ->].
  - destruct r, s; try (exfalso; lra);
      unfold finish in *; cbn [shr_m loc_of_shr_record round_nearest_even] in *;
      exact Hend.
  - rewrite minus_IZR in *.
    destruct r, s; try (exfalso; lra).
    unfold finish in *. cbn [shr_m loc_of_shr_record round_nearest_even] in *.
    replace (Zpos mx - 1 + 1)%Z with (Zpos mx) by lia. exact Hend.
Qed.

Lemma finish_carry :
  forall (sx : bool) (v : R) (t : Z) (mrs : shr_record),
    (-1074 <= t)%Z -> (t + 1 <= 971)%Z ->
    stands v t mrs ->
    bpow 53 - / 2 < v * bpow (- t) < bpow 53 ->
    finish sx mrs t = S754_finite sx (Z.to_pos (2 ^ 52)) (t + 1).
Proof.
  intros sx v t [m r s] Ht1 Ht2 Hst [Hy1 Hy2].
  unfold stands in Hst. cbn [shr_m shr_r shr_s] in Hst.
  set (y := v * bpow (- t)) in *. clearbody y.
  destruct Hst as (Hm & [H1 H2] & Hbits).
  rewrite (bpow_IZR 53) in Hy1, Hy2 by lia.
  assert (Hlt : (m < 2 ^ 53)%Z) by (apply lt_IZR; lra).
  assert (Hgt : (2 ^ 53 - 2 < m)%Z) by (apply lt_IZR; rewrite minus_IZR; lra).
  assert (Hmv : m = (2 ^ 53 - 1)%Z) by lia. subst m.
  rewrite minus_IZR in *.
  destruct r, s; try (exfalso; lra).
  unfold finish. cbn [shr_m loc_of_shr_record round_nearest_even].
  replace (2 ^ 53 - 1 + 1)%Z with (2 ^ 53)%Z by lia.
  unfold shr_fexp.
  replace (Zdigits2 (2 ^ 53)) with 54%Z by reflexivity.
  rewrite fexp_values.
  replace (Z.max (54 + t - 53) (-1074) - t)%Z with 1%Z by lia.
  cbn -[Z.add]. 
  destruct (Z.leb_spec (t + 1) (emax - prec)) as [_|Hn]; [reflexivity|].
  exfalso. change (emax - prec)%Z with 971%Z in Hn. lia.
Qed.

Lemma near_target :
  forall (v : R) (mx : positive) (ex t : Z),
    SpecFloat.bounded prec emax mx ex = true ->
    IZR (Zpos mx) - IZR (Zpos mx) * bpow (-54) < v * bpow (- ex)
      < IZR (Zpos mx) + IZR (Zpos mx) * bpow (-54) ->
    target v t ->
    t = ex
    \/ (t = (ex - 1)%Z /\ (-1074 <= t)%Z /\ Zpos mx = (2 ^ 52)%Z
        /\ bpow 53 - / 2 < v * bpow (- t) < bpow 53).
Proof.
  intros v mx ex t Hb [Hy1 Hy2] Ht.
  destruct (bounded_facts mx ex Hb) as [Hf Hemax].
  rewrite fexp_values in Hf.
  set (D := Zpos (digits2_pos mx)) in *.
  assert (HD0 : (1 <= D)%Z) by (unfold D; lia).
  destruct (digits2_bpow mx) as [HM1 HM2]. fold D in HM1, HM2.
  assert (HM3 : IZR (Zpos mx) + 1 <= bpow D).
  { rewrite bpow_IZR by lia. rewrite <- plus_IZR. apply IZR_le.
    rewrite Z.add_1_r. apply Z.le_succ_l, digits2_bounds. }
  set (M := IZR (Zpos mx)) in *.
  assert (HM0 : 1 <= M) by (apply IZR_le; lia).
  pose proof (bpow_pos ex) as HB. pose proof (bpow_pos (- ex)) as HB'.
  pose proof (bpow_opp ex) as Hinv.
  set (y := v * bpow (- ex)) in *.
  assert (Hv : v = y * bpow ex) by (unfold y; rewrite Rmult_assoc, Hinv; ring).
  assert (Heps : M * bpow (-54) < / 2).
  { apply Rlt_le_trans with (bpow D * bpow (-54)).
    - apply Rmult_lt_compat_r; [apply bpow_pos|exact HM2].
    - rewrite <- bpow_add. replace (/ 2) with (bpow (-1)).
      + apply bpow_le. lia.
      + change (-1)%Z with (0 - 1)%Z. rewrite bpow_pred, bpow_0. lra. }
  assert (Heps2 : 4 * bpow (-54) < 1).
  { replace 4 with (bpow 2) by (rewrite (bpow_IZR 2) by lia; reflexivity).
    rewrite <- bpow_add. replace 1 with (bpow 0) by reflexivity.
    apply bpow_lt. lia. }
  pose proof (bpow_pos (-54)) as He54.
  assert (Hup : v < bpow (D + ex)).
  { rewrite Hv, bpow_add. apply Rmult_lt_compat_r; lra. }
  assert (Hlow : bpow (D + ex - 2) < v).
  { replace (D + ex - 2)%Z with ((D - 1 - 1) + ex)%Z by lia.
    rewrite Hv, bpow_add, bpow_pred. apply Rmult_lt_compat_r; [exact HB|]. nra. }
  destruct Ht as [[Hsmall ->]|(L & [HL1 HL2] & ->)].
  - left.
    assert (Hlt : (D + ex - 2 < -1074)%Z) by (apply bpow_lt_inv; lra).
    lia.
  - assert (HLa : (L - 1 < D + ex)%Z) by (apply bpow_lt_inv; lra).
    assert (HLb : (D + ex - 2 < L)%Z) by (apply bpow_lt_inv; lra).
    rewrite fexp_values.
    destruct (Z.eq_dec L (D + ex)%Z) as [->|Hne]; [left; lia|].
    assert (HL : L = (D + ex - 1)%Z) by lia. subst L.
    destruct (Z.eq_dec ex (-1074)%Z) as [He|He]; [left; lia|].
    assert (HD : D = 53%Z) by lia.
    replace (Z.max (D + ex - 1 - 53) (-1074)) with (ex - 1)%Z by lia.
    right. split; [reflexivity|]. split; [lia|].
    rewrite HD in *.
    assert (Hy52 : y < bpow 52).
    { apply Rmult_lt_reg_r with (bpow ex); [exact HB|].
      rewrite <- Hv, <- bpow_add.
      replace (52 + ex)%Z with (53 + ex - 1)%Z by lia. exact HL2. }
    assert (HM52 : M = bpow 52).
    { apply Rle_antisym; [|exact HM1].
      rewrite (bpow_IZR 52) in * by lia. unfold M. apply IZR_le.
      assert (Hlt : (Zpos mx < 2 ^ 52 + 1)%Z)
        by (apply lt_IZR; rewrite plus_IZR; fold M; lra).
      lia. }
    split.
    { apply eq_IZR. fold M. rewrite HM52. apply bpow_IZR. lia. }
    replace (- (ex - 1))%Z with (- ex + 1)%Z by lia.
    rewrite bpow_succ.
    replace (v * (2 * bpow (- ex))) with (2 * y) by (unfold y; ring).
    replace (bpow 53) with (2 * bpow 52)
      by (change 53%Z with (52 + 1)%Z; rewrite bpow_succ; reflexivity).
    rewrite HM52 in Hy1.
    assert (Hq : bpow 52 * bpow (-54) = / 4).
    { rewrite <- bpow_add. change (52 + -54)%Z with (0 - 1 - 1)%Z.
      rewrite !bpow_pred, bpow_0. lra. }
    rewrite Hq in Hy1. split; lra.
Qed.

(** A positive value within [2^-54] of a number, relatively, rounds to it. *)
Lemma rounds_near :
  forall (v : R) (neg : bool) (mx : positive) (ex : Z) (x : float),
    SpecFloat.bounded prec emax mx ex = true ->
    IZR (Zpos mx) - IZR (Zpos mx) * bpow (-54) < v * bpow (- ex)
      < IZR (Zpos mx) + IZR (Zpos mx) * bpow (-54) ->
    rounds v neg x ->
    x = SF2Prim (S754_finite neg mx ex).
Proof.
  intros v neg mx ex x Hb Hy (t & mrs & Ht & Hst & ->). f_equal.
  destruct (bounded_facts mx ex Hb) as [Hf Hemax].
  destruct (near_target v mx ex t Hb Hy Ht) as [->|(-> & Hmin & Hmx & Hc)].
  - apply (finish_exact neg v mx ex mrs Hb Hst).
    destruct (digits2_bpow mx) as [_ HM2].
    rewrite fexp_values in Hf.
    assert (Heps : IZR (Zpos mx) * bpow (-54) < / 2).
    { apply Rlt_le_trans with (bpow (Zpos (digits2_pos mx)) * bpow (-54)).
      - apply Rmult_lt_compat_r; [apply bpow_pos|exact HM2].
      - rewrite <- bpow_add. replace (/ 2) with (bpow (-1)).
        + apply bpow_le. lia.
        + change (-1)%Z with (0 - 1)%Z. rewrite bpow_pred, bpow_0. lra. }
    lra.
  - change (emax - prec)%Z with 971%Z in Hemax.
    rewrite (finish_carry neg v (ex - 1) mrs Hmin ltac:(lia) Hst Hc).
    replace (ex - 1 + 1)%Z with ex by lia.
    f_equal. rewrite <- Hmx. reflexivity.
Qed.

End Rounding.

(** ** Decimal digits *)

Section Decimals.
Import JS.

Lemma digit_value_bound :
  forall c : ascii, is_digit c = true -> (digit_value c <= 9)%N.
Proof.
  intros c H. unfold is_digit in H. unfold digit_value.
  apply andb_true_iff in H as [H1 H2].
  apply Nat.leb_le in H1, H2. lia.
Qed.

Lemma read_digits_app :
  forall (ds rest : string) (acc : N) (cnt : nat),
    all_digits ds = true ->
    read_digits (ds ++ rest) acc cnt
    = read_digits rest (horner ds acc) (cnt + String.length ds).
Proof.
  induction ds as [|c ds IH]; intros rest acc cnt H.
  - cbn. rewrite Nat.add_0_r. reflexivity.
  - cbn [all_digits] in H. apply andb_true_iff in H as [Hc Hds].
    change (String c ds ++ rest)%string with (String c (ds ++ rest)).
    cbn [read_digits horner String.length]. rewrite Hc, IH by exact Hds.
    f_equal. lia.
Qed.

Lemma append_empty : forall s : string, (s ++ "")%string = s.
Proof.
  induction s as [|c s IH]; [reflexivity|].
  rewrite append_cons, IH. reflexivity.
Qed.

Lemma read_digits_all :
  forall (ds : string) (acc : N) (cnt : nat),
    all_digits ds = true ->
    read_digits ds acc cnt = (horner ds acc, (cnt + String.length ds)%nat, ""%string).
Proof.
  intros ds acc cnt H. pose proof (read_digits_app ds "" acc cnt H) as E.
  rewrite append_empty in E. exact E.
Qed.

Lemma horner_app :
  forall (a b : string) (acc : N), horner (a ++ b) acc = horner b (horner a acc).
Proof.
  induction a as [|c a IH]; intros b acc; [reflexivity|].
  change (String c a ++ b)%string with (String c (a ++ b)).
  cbn [horner]. apply IH.
Qed.

Lemma all_digits_app :
  forall a b : string, all_digits (a ++ b) = all_digits a && all_digits b.
Proof.
  induction a as [|c a IH]; intros b; [reflexivity|].
  change (String c a ++ b)%string with (String c (a ++ b)).
  cbn [all_digits]. rewrite IH, andb_assoc. reflexivity.
Qed.

Lemma length_app :
  forall a b : string,
    String.length (a ++ b) = (String.length a + String.length b)%nat.
Proof.
  induction a as [|c a IH]; intros b; [reflexivity|].
  change (String c a ++ b)%string with (String c (a ++ b)).
  cbn [String.length]. rewrite IH. reflexivity.
Qed.

Lemma horner_acc :
  forall (s : string) (acc : N),
    horner s acc = (acc * 10 ^ N.of_nat (String.length s) + horner s 0)%N.
Proof.
  induction s as [|c s IH]; intros acc.
  - cbn. lia.
  - cbn [horner String.length]. rewrite IH, (IH (0 * 10 + digit_value c)%N).
    rewrite Nat2N.inj_succ, N.pow_succ_r'. lia.
Qed.

Lemma horner_lt :
  forall s : string,
    all_digits s = true -> (horner s 0 < 10 ^ N.of_nat (String.length s))%N.
Proof.
  induction s as [|c s IH]; intros H.
  - cbn. lia.
  - cbn [all_digits] in H. apply andb_true_iff in H as [Hc Hs].
    cbn [horner String.length]. rewrite horner_acc.
    rewrite Nat2N.inj_succ, N.pow_succ_r'.
    pose proof (digit_value_bound c Hc). specialize (IH Hs).
    nia.
Qed.

Lemma horner_uint_acc :
  forall (d : Decimal.uint) (acc : positive),
    Npos (Pos.of_uint_acc d acc) = horner (NilEmpty.string_of_uint d) (Npos acc).
Proof.
  induction d; intros acc; cbn [Pos.of_uint_acc NilEmpty.string_of_uint horner];
    [reflexivity
    |rewrite IHd; f_equal;
     match goal with
     | |- context [digit_value ?c] =>
         let v := eval vm_compute in (digit_value c) in
         change (digit_value c) with v
     end; lia ..].
Qed.

Lemma horner_uint :
  forall d : Decimal.uint, N.of_uint d = horner (NilEmpty.string_of_uint d) 0.
Proof.
  unfold N.of_uint.
  induction d; cbn [Pos.of_uint NilEmpty.string_of_uint horner];
    [reflexivity|exact IHd|rewrite horner_uint_acc; reflexivity ..].
Qed.

Lemma digits_of_uint :
  forall n : N, digits_of n = NilEmpty.string_of_uint (N.to_uint n).
Proof.
  intros [|p]; [reflexivity|]. unfold digits_of, NilZero.string_of_uint.
  pose proof (DecimalPos.Unsigned.to_uint_nonnil p) as H. cbn [N.to_uint].
  destruct (Pos.to_uint p); [contradiction|reflexivity ..].
Qed.

Lemma horner_digits_of : forall n : N, horner (digits_of n) 0 = n.
Proof.
  intros n. rewrite digits_of_uint, <- horner_uint.
  apply DecimalN.Unsigned.of_to.
Qed.

Lemma all_digits_uint :
  forall d : Decimal.uint, all_digits (NilEmpty.string_of_uint d) = true.
Proof.
  induction d; cbn [NilEmpty.string_of_uint all_digits];
    [reflexivity|rewrite IHd; reflexivity ..].
Qed.

Lemma all_digits_digits_of : forall n : N, all_digits (digits_of n) = true.
Proof. intros n. rewrite digits_of_uint. apply all_digits_uint. Qed.

(** The text of a positive integer starts with a digit other than 0. *)
Lemma digits_of_head :
  forall p : positive,
    exists (c : ascii) (s : string),
      digits_of (Npos p) = String c s
      /\ (1 <= digit_value c)%N /\ is_digit c = true /\ c <> "0"%char.
Proof.
  intros p. rewrite digits_of_uint. cbn [N.to_uint].
  pose proof (DecimalPos.Unsigned.to_of (Pos.to_uint p)) as H.
  rewrite DecimalPos.Unsigned.of_to in H. cbn [N.to_uint] in H.
  pose proof (DecimalPos.Unsigned.to_uint_nonzero p) as Hnz.
  pose proof (DecimalFacts.nzhead_nonzero (Pos.to_uint p)) as Hhead.
  unfold Decimal.unorm in H.
  destruct (Decimal.nzhead (Pos.to_uint p)) eqn:E;
    [rewrite H in Hnz; contradiction
    |exfalso; apply (Hhead u); reflexivity
    |rewrite H; cbn [NilEmpty.string_of_uint];
     eexists; eexists; split; [reflexivity|];
     split; [vm_compute; discriminate|split; [reflexivity|discriminate]] ..].
Qed.

Lemma digits_of_bounds :
  forall p : positive,
    (1 <= String.length (digits_of (Npos p)))%nat
    /\ (10 ^ N.of_nat (String.length (digits_of (Npos p)) - 1) <= Npos p
        < 10 ^ N.of_nat (String.length (digits_of (Npos p))))%N.
Proof.
  intros p. pose proof (horner_digits_of (Npos p)) as Hv.
  pose proof (all_digits_digits_of (Npos p)) as Hd.
  pose proof (horner_lt _ Hd) as Hlt. rewrite Hv in Hlt.
  destruct (digits_of_head p) as (c & s & Hcs & Hc & _).
  rewrite Hcs in *. cbn [String.length]. split; [lia|]. split; [|exact Hlt].
  cbn [horner] in Hv. rewrite horner_acc in Hv.
  replace (S (String.length s) - 1)%nat with (String.length s) by lia.
  nia.
Qed.

Lemma digits_of_length :
  forall (p : positive) (k : nat),
    (10 ^ N.of_nat (k - 1) <= Npos p < 10 ^ N.of_nat k)%N ->
    String.length (digits_of (Npos p)) = k.
Proof.
  intros p k [H1 H2]. destruct (digits_of_bounds p) as (Hk & H3 & H4).
  set (k' := String.length (digits_of (Npos p))) in *.
  assert (Ha : (N.of_nat (k - 1) < N.of_nat k')%N).
  { apply (N.pow_lt_mono_r_iff 10); lia. }
  assert (Hb : (N.of_nat (k' - 1) < N.of_nat k)%N).
  { apply (N.pow_lt_mono_r_iff 10); lia. }
  lia.
Qed.

End Decimals.

(** ** The digits [ToString] chooses *)

Section Shortest.
Import JS.
Local Open Scope R_scope.

(** *** Powers of ten *)

Lemma p10_pos : forall e : Z, 0 < p10 e.
Proof. intros e. apply powerRZ_lt. lra. Qed.

Lemma p10_add : forall a b : Z, p10 (a + b) = p10 a * p10 b.
Proof. intros a b. apply powerRZ_add. lra. Qed.

Lemma p10_0 : p10 0 = 1.
Proof. reflexivity. Qed.

Lemma p10_1 : p10 1 = 10.
Proof. apply powerRZ_1. Qed.

Lemma p10_opp : forall e : Z, p10 (- e) * p10 e = 1.
Proof.
  intros e. rewrite <- p10_add. replace (- e + e)%Z with 0%Z by lia. reflexivity.
Qed.

Lemma p10_IZR : forall k : Z, (0 <= k)%Z -> p10 k = IZR (10 ^ k).
Proof.
  intros k Hk. unfold p10.
  rewrite <- (Z2Nat.id k Hk) at 1. rewrite <- pow_powerRZ.
  rewrite pow_IZR. rewrite Z2Nat.id by exact Hk. reflexivity.
Qed.

Lemma pow10_Z : forall z : Z, (0 <= z)%Z -> Zpos (pow10 z) = (10 ^ z)%Z.
Proof.
  intros [|p|p] H; [reflexivity| |lia]. unfold pow10.
  rewrite Pos2Z.inj_pow. reflexivity.
Qed.

Lemma pow10_neg : forall z : Z, (z <= 0)%Z -> pow10 z = 1%positive.
Proof. intros [|p|p] H; [reflexivity|lia|reflexivity]. Qed.

(** [pow10 z / pow10 (- z)] is [10^z], whatever the sign of [z]. *)
Lemma pow10_ratio :
  forall z : Z, IZR (Zpos (pow10 z)) = p10 z * IZR (Zpos (pow10 (- z))).
Proof.
  intros z. destruct (Z.le_gt_cases 0 z) as [H|H].
  - rewrite (pow10_neg (- z)) by lia. rewrite pow10_Z, p10_IZR by lia. lra.
  - rewrite (pow10_neg z) by lia. rewrite (pow10_Z (- z)) by lia.
    rewrite <- p10_IZR by lia. rewrite Rmult_comm, p10_opp. reflexivity.
Qed.

(** *** The value a decimal is rounded from *)

Lemma of_decimal_rounds :
  forall (neg : bool) (p : positive) (e : Z),
    rounds (IZR (Zpos p) * p10 e) neg (of_decimal neg (Npos p) e).
Proof.
  intros neg p e. unfold of_decimal. destruct e as [|q|q].
  - replace (IZR (Zpos p) * p10 0) with (IZR (Zpos p) / IZR (Zpos 1))
      by (rewrite p10_0; lra).
    apply round_ratio_rounds.
  - replace (IZR (Zpos p) * p10 (Zpos q))
      with (IZR (Zpos (p * 10 ^ q)) / IZR (Zpos 1)).
    + apply round_ratio_rounds.
    + rewrite Pos2Z.inj_mul, Pos2Z.inj_pow, mult_IZR, p10_IZR by lia. lra.
  - replace (IZR (Zpos p) * p10 (Zneg q))
      with (IZR (Zpos p) / IZR (Zpos (10 ^ q))).
    + apply round_ratio_rounds.
    + rewrite Pos2Z.inj_pow, <- p10_IZR by lia.
      pose proof (p10_opp (Zpos q)) as H. pose proof (p10_pos (Zpos q)) as Hp.
      change (- Zpos q)%Z with (Zneg q) in H.
      apply Rmult_eq_reg_r with (p10 (Zpos q)); [|lra].
      unfold Rdiv. rewrite !Rmult_assoc, H, Rinv_l by lra. reflexivity.
Qed.

Lemma of_decimal_ext :
  forall (neg : bool) (p1 p2 : positive) (e1 e2 : Z),
    IZR (Zpos p1) * p10 e1 = IZR (Zpos p2) * p10 e2 ->
    of_decimal neg (Npos p1) e1 = of_decimal neg (Npos p2) e2.
Proof.
  intros neg p1 p2 e1 e2 H.
  apply (rounds_unique (IZR (Zpos p1) * p10 e1) neg).
  - apply of_decimal_rounds.
  - rewrite H. apply of_decimal_rounds.
Qed.

(** *** The exact fraction of a finite number *)

Lemma pos_shiftl_Z :
  forall m q : positive,
    Zpos (Pos.shiftl m (Npos q)) = (Zpos m * 2 ^ Zpos q)%Z.
Proof.
  intros m q. rewrite <- Z.shiftl_mul_pow2 by lia.
  cbn [Pos.shiftl Z.shiftl].
  apply (Pos.iter_swap_gen _ _ Zpos xO (Z.mul 2)). reflexivity.
Qed.

Lemma exact_fraction_finite :
  forall (x : float) (s : bool) (m : positive) (e : Z),
    Prim2SF x = S754_finite s m e ->
    exists num den : positive,
      exact_fraction x = Some (num, den)
      /\ IZR (Zpos num) = IZR (Zpos m) * bpow e * IZR (Zpos den).
Proof.
  intros x s m e H. unfold exact_fraction. rewrite H.
  destruct e as [|q|q].
  - exists m, 1%positive. split; [reflexivity|]. rewrite bpow_0. lra.
  - exists (Pos.shiftl m (Npos q)), 1%positive. split; [reflexivity|].
    rewrite pos_shiftl_Z, mult_IZR, bpow_IZR by lia. lra.
  - exists m, (Pos.shiftl 1 (Npos q)). split; [reflexivity|].
    rewrite pos_shiftl_Z, mult_IZR, <- bpow_IZR by lia.
    pose proof (bpow_opp (Zpos q)) as Hq. change (- Zpos q)%Z with (Zneg q) in Hq.
    replace (IZR (Zpos m) * bpow (Zneg q) * (1 * bpow (Zpos q)))
      with (IZR (Zpos m) * (bpow (Zneg q) * bpow (Zpos q))) by ring.
    rewrite Hq. ring.
Qed.

(** *** The decimal exponent *)

Lemma digits_of_bounds_Z :
  forall p : positive,
    let k := Z.of_nat (String.length (digits_of (Npos p))) in
    (1 <= k)%Z /\ (10 ^ (k - 1) <= Zpos p < 10 ^ k)%Z.
Proof.
  intros p k. destruct (digits_of_bounds p) as (Hk & H1 & H2). fold k.
  set (k' := String.length (digits_of (Npos p))) in *.
  split; [unfold k; lia|].
  apply N2Z.inj_le in H1. apply N2Z.inj_lt in H2.
  rewrite N2Z.inj_pow, nat_N_Z in H1, H2.
  replace (Z.of_nat (k' - 1)) with (k - 1)%Z in H1 by (unfold k; lia).
  exact (conj H1 H2).
Qed.

Lemma decimal_exponent_spec :
  forall num den : positive, inDecade num den (decimal_exponent num den).
Proof.
  intros num den. unfold inDecade, decimal_exponent.
  destruct (Pos.leb_spec den num) as [Hle|Hlt].
  - assert (Hq : (1 <= Npos num / Npos den)%N).
    { apply N.div_le_lower_bound; lia. }
    destruct (Npos num / Npos den)%N as [|qp] eqn:E; [lia|].
    destruct (digits_of_bounds_Z qp) as (Hk & H1 & H2).
    set (k := Z.of_nat (String.length (digits_of (Npos qp)))) in *.
    clearbody k.
    assert (Hd1 : (Zpos den * Zpos qp <= Zpos num)%Z).
    { pose proof (N.Div0.mul_div_le (Npos num) (Npos den)) as H.
      rewrite E in H. lia. }
    assert (Hd2 : (Zpos num < Zpos den * (Zpos qp + 1))%Z).
    { pose proof (N.mul_succ_div_gt (Npos num) (Npos den) ltac:(lia)) as H.
      rewrite E in H. lia. }
    rewrite !p10_IZR by lia. rewrite <- !mult_IZR.
    split; [apply IZR_le|apply IZR_lt]; nia.
  - destruct (digits_of_bounds_Z num) as (Hn & Hn1 & Hn2).
    destruct (digits_of_bounds_Z den) as (Hd & Hd1 & Hd2).
    set (ln := Z.of_nat (String.length (digits_of (Npos num)))) in *.
    set (ld := Z.of_nat (String.length (digits_of (Npos den)))) in *.
    clearbody ln ld.
    set (j := (ld - ln)%Z).
    assert (Hj : (0 <= j)%Z).
    { assert (ln - 1 < ld)%Z; [|lia].
      apply (Z.pow_lt_mono_r_iff 10); lia. }
    assert (Hld : (10 ^ ld = 10 ^ ln * 10 ^ j)%Z).
    { rewrite <- Z.pow_add_r by lia. f_equal. lia. }
    assert (Hln' : (10 ^ ln = 10 * 10 ^ (ln - 1))%Z).
    { rewrite <- Z.pow_succ_r by lia. f_equal. lia. }
    assert (Hld' : (10 ^ ld = 10 * 10 ^ (ld - 1))%Z).
    { rewrite <- Z.pow_succ_r by lia. f_equal. lia. }
    clearbody j.
    assert (HT : (0 < 10 ^ j)%Z) by (apply Z.pow_pos_nonneg; lia).
    pose proof (p10_opp j) as HTT. pose proof (p10_pos (- j)) as HT'.
    assert (HA : IZR (Zpos num) * p10 j * p10 (- j) = IZR (Zpos num))
      by (rewrite Rmult_assoc, (Rmult_comm (p10 j)), HTT; ring).
    destruct (Pos.leb_spec den (num * pow10 j)) as [Ht|Ht].
    + apply Pos2Z.pos_le_pos in Ht. rewrite Pos2Z.inj_mul, pow10_Z in Ht by lia.
      assert (Ht2 : (Zpos num * 10 ^ j < 10 * Zpos den)%Z) by nia.
      apply IZR_le in Ht. apply IZR_lt in Ht2.
      rewrite !mult_IZR in Ht. rewrite !mult_IZR in Ht2.
      rewrite <- p10_IZR in Ht by exact Hj. rewrite <- p10_IZR in Ht2 by exact Hj.
      set (A := IZR (Zpos num)) in *. set (D := IZR (Zpos den)) in *.
      replace (1 - j - 1)%Z with (- j)%Z by lia.
      replace (1 - j)%Z with (1 + - j)%Z by lia. rewrite p10_add, p10_1.
      assert (D * p10 (- j) <= A * p10 j * p10 (- j))
        by (apply Rmult_le_compat_r; lra).
      assert (A * p10 j * p10 (- j) < 10 * D * p10 (- j))
        by (apply Rmult_lt_compat_r; lra).
      split; lra.
    + apply Pos2Z.pos_lt_pos in Ht. rewrite Pos2Z.inj_mul, pow10_Z in Ht by lia.
      assert (Ht2 : (Zpos den < 10 * (Zpos num * 10 ^ j))%Z) by nia.
      apply IZR_lt in Ht. apply IZR_lt in Ht2.
      rewrite !mult_IZR in Ht. rewrite !mult_IZR in Ht2.
      rewrite <- p10_IZR in Ht by exact Hj. rewrite <- p10_IZR in Ht2 by exact Hj.
      replace (- j - 1)%Z with (- j + - (1))%Z by lia. rewrite p10_add.
      set (A := IZR (Zpos num)) in *. set (D := IZR (Zpos den)) in *.
      pose proof (p10_opp 1) as H1. rewrite p10_1 in H1.
      assert (D * p10 (- j) < 10 * (A * p10 j) * p10 (- j))
        by (apply Rmult_lt_compat_r; lra).
      assert (A * p10 j * p10 (- j) < D * p10 (- j))
        by (apply Rmult_lt_compat_r; lra).
      split; [|lra].
      apply Rmult_le_reg_r with 10; [lra|].
      rewrite !Rmult_assoc, H1. lra.
Qed.

(** *** The candidates of a given length *)

Lemma scaled_bounds :
  forall (num den : positive) (n0 k : Z),
    inDecade num den n0 -> (1 <= k)%Z ->
    IZR (Zpos (num * pow10 (k - n0))) * IZR (Zpos den)
    = IZR (Zpos num) * p10 (k - n0) * IZR (Zpos (den * pow10 (n0 - k)))
    /\ (Zpos (den * pow10 (n0 - k)) * 10 ^ (k - 1) <= Zpos (num * pow10 (k - n0))
        < Zpos (den * pow10 (n0 - k)) * 10 ^ k)%Z.
Proof.
  intros num den n0 k [H1 H2] Hk.
  replace (n0 - k)%Z with (- (k - n0))%Z by lia.
  set (z := (k - n0)%Z).
  rewrite !Pos2Z.inj_mul, !mult_IZR. rewrite (pow10_ratio z).
  set (Q := IZR (Zpos (pow10 (- z)))).
  assert (HQ : 0 < Q) by (apply IZR_lt; lia).
  pose proof (p10_pos z) as Hz.
  split; [ring|].
  assert (Ha : IZR (Zpos num) * (p10 z * Q) = IZR (Zpos num * Zpos (pow10 z))).
  { rewrite mult_IZR, (pow10_ratio z). reflexivity. }
  assert (HW : 0 < p10 z * Q) by (apply Rmult_lt_0_compat; assumption).
  split; [apply le_IZR|apply lt_IZR];
    rewrite <- Ha, !mult_IZR, <- p10_IZR by lia; fold Q.
  - replace (k - 1)%Z with ((n0 - 1) + z)%Z by (unfold z; lia).
    rewrite p10_add.
    replace (IZR (Zpos den) * Q * (p10 (n0 - 1) * p10 z))
      with (IZR (Zpos den) * p10 (n0 - 1) * (p10 z * Q)) by ring.
    apply Rmult_le_compat_r; lra.
  - replace (p10 k) with (p10 n0 * p10 z)
      by (rewrite <- p10_add; f_equal; unfold z; lia).
    replace (IZR (Zpos den) * Q * (p10 n0 * p10 z))
      with (IZR (Zpos den) * p10 n0 * (p10 z * Q)) by ring.
    apply Rmult_lt_compat_r; lra.
Qed.

Lemma floor_bounds :
  forall a b : positive,
    (Npos a = Npos b * (Npos a / Npos b) + Npos a mod Npos b)%N
    /\ (Npos a mod Npos b < Npos b)%N.
Proof.
  intros a b. split; [apply N.div_mod; discriminate|apply N.mod_lt; discriminate].
Qed.

Lemma candidate_sound :
  forall (x : number) (num den : positive) (n0 k : Z) (r : N * Z),
    inDecade num den n0 -> (1 <= k)%Z ->
    candidate x num den n0 k = Some r -> reads x k r.
Proof.
  intros x num den n0 k res Hdec Hk H.
  destruct (scaled_bounds num den n0 k Hdec Hk) as [_ [Hb1 Hb2]].
  unfold candidate in H. cbv zeta in H.
  set (a := (num * pow10 (k - n0))%positive) in *.
  set (b := (den * pow10 (n0 - k))%positive) in *.
  destruct (floor_bounds a b) as [Hdiv Hmod].
  set (lo := (Npos a / Npos b)%N) in *. set (r := (Npos a mod Npos b)%N) in *.
  clearbody lo r. clearbody a b.
  assert (Hp : (0 < 10 ^ (k - 1))%Z) by (apply Z.pow_pos_nonneg; lia).
  assert (Hpk : (10 ^ k = 10 * 10 ^ (k - 1))%Z).
  { rewrite <- Z.pow_succ_r by lia. f_equal. lia. }
  assert (Hlo1 : (10 ^ (k - 1) <= Z.of_N lo)%Z) by nia.
  assert (Hlo2 : (Z.of_N lo < 10 ^ k)%Z) by nia.
  assert (Hlo : Leibniz.eqb (of_decimal false lo (n0 - k)) x = true ->
                reads x k (lo, n0)).
  { intros E. apply FloatAxioms.Leibniz.eqb_spec in E.
    split; [exact E|split; assumption]. }
  assert (Hup : Leibniz.eqb (of_decimal false (lo + 1) (n0 - k)) x = true ->
                reads x k (if (lo + 1 =? Npos (pow10 k))%N
                           then (Npos (pow10 (k - 1)), (n0 + 1)%Z)
                           else ((lo + 1)%N, n0))).
  { intros E. apply FloatAxioms.Leibniz.eqb_spec in E.
    destruct (N.eqb_spec (lo + 1) (Npos (pow10 k))) as [Heq|Hne].
    - split; cbn [fst snd].
      + rewrite <- E, Heq. apply of_decimal_ext.
        rewrite !pow10_Z by lia. rewrite <- !p10_IZR by lia.
        rewrite <- !p10_add. f_equal. lia.
      + rewrite N2Z.inj_pos, pow10_Z by lia. lia.
    - split; cbn [fst snd]; [exact E|].
      assert (Z.of_N (lo + 1) <> 10 ^ k)%Z.
      { intros Hc. apply Hne. apply N2Z.inj.
        rewrite N2Z.inj_pos, pow10_Z by lia. exact Hc. }
      lia. }
  destruct (Leibniz.eqb (of_decimal false lo (n0 - k)) x);
    destruct (Leibniz.eqb (of_decimal false (lo + 1) (n0 - k)) x);
    try discriminate H;
    repeat match type of H with
           | match ?c with _ => _ end = _ => destruct c
           | (if ?c then _ else _) = _ => destruct c
           end;
    injection H as <-; auto.
Qed.

(** *** Seventeen digits are enough *)

Lemma decimal_near :
  forall (neg : bool) (mx sp : positive) (ex e : Z) (Y : R),
    SpecFloat.bounded prec emax mx ex = true ->
    IZR (Zpos mx) = Y * (p10 e * bpow (- ex)) ->
    IZR (10 ^ 16) <= Y ->
    IZR (Zpos sp) - / 2 <= Y <= IZR (Zpos sp) + / 2 ->
    of_decimal neg (Npos sp) e = SF2Prim (S754_finite neg mx ex).
Proof.
  intros neg mx sp ex e Y Hb HM HY [Hs1 Hs2].
  apply (rounds_near (IZR (Zpos sp) * p10 e) neg mx ex _ Hb);
    [|apply of_decimal_rounds].
  rewrite HM.
  pose proof (p10_pos e) as Hp. pose proof (bpow_pos (- ex)) as Hq.
  pose proof (bpow_pos (-54)) as He.
  pose proof (bpow_opp 54) as Hinv. rewrite (bpow_IZR 54) in Hinv by lia.
  change (bpow (Z.opp 54)) with (bpow (-54)) in Hinv.
  change (IZR (2 ^ 54)) with 18014398509481984 in Hinv.
  change (IZR (10 ^ 16)) with 10000000000000000 in HY.
  set (eps := bpow (-54)) in *. clearbody eps.
  assert (Heps : / 2 < Y * eps).
  { apply Rlt_le_trans with (10000000000000000 * eps); [lra|].
    apply Rmult_le_compat_r; lra. }
  assert (Hu : 0 < p10 e * bpow (- ex)) by (apply Rmult_lt_0_compat; assumption).
  set (u := p10 e * bpow (- ex)) in *.
  replace (IZR (Zpos sp) * p10 e * bpow (- ex)) with (IZR (Zpos sp) * u)
    by (unfold u; ring).
  clearbody u.
  assert (H1 : 0 < (IZR (Zpos sp) - Y + Y * eps) * u)
    by (apply Rmult_lt_0_compat; lra).
  assert (H2 : 0 < (Y + Y * eps - IZR (Zpos sp)) * u)
    by (apply Rmult_lt_0_compat; lra).
  split; lra.
Qed.

Lemma candidate_complete :
  forall (mx : positive) (ex : Z) (num den : positive) (n0 : Z),
    SpecFloat.bounded prec emax mx ex = true ->
    IZR (Zpos num) = IZR (Zpos mx) * bpow ex * IZR (Zpos den) ->
    inDecade num den n0 ->
    candidate (SF2Prim (S754_finite false mx ex)) num den n0 17 <> None.
Proof.
  intros mx ex num den n0 Hb Hfrac Hdec.
  destruct (scaled_bounds num den n0 17 Hdec ltac:(lia)) as [Hs1 [Hb1 Hb2]].
  unfold candidate. cbv zeta.
  set (a := (num * pow10 (17 - n0))%positive) in *.
  set (b := (den * pow10 (n0 - 17))%positive) in *.
  destruct (floor_bounds a b) as [Hdiv Hmod].
  set (lo := (Npos a / Npos b)%N) in *. set (r := (Npos a mod Npos b)%N) in *.
  clearbody lo r. clearbody a b.
  change (17 - 1)%Z with 16%Z in Hb1.
  assert (Hlo1 : (10 ^ 16 <= Z.of_N lo)%Z) by nia.
  destruct lo as [|lp]; [exfalso; cbn in Hlo1; lia|].
  (* the value between the two candidates *)
  set (Y := IZR (Zpos a) / IZR (Zpos b)).
  assert (HB : 0 < IZR (Zpos b)) by (apply IZR_lt; lia).
  assert (HD : 0 < IZR (Zpos den)) by (apply IZR_lt; lia).
  assert (HYB : Y * IZR (Zpos b) = IZR (Zpos a)) by (unfold Y; field; lra).
  assert (HM : IZR (Zpos mx) = Y * (p10 (n0 - 17) * bpow (- ex))).
  { assert (HY2 : Y = IZR (Zpos mx) * bpow ex * p10 (17 - n0)).
    { apply Rmult_eq_reg_r with (IZR (Zpos b) * IZR (Zpos den)); [|nra].
      replace (Y * (IZR (Zpos b) * IZR (Zpos den)))
        with (Y * IZR (Zpos b) * IZR (Zpos den)) by ring.
      rewrite HYB, Hs1, Hfrac. ring. }
    rewrite HY2.
    pose proof (bpow_opp ex) as H1. pose proof (p10_opp (17 - n0)) as H2.
    replace (- (17 - n0))%Z with (n0 - 17)%Z in H2 by lia.
    replace (IZR (Zpos mx) * bpow ex * p10 (17 - n0)
             * (p10 (n0 - 17) * bpow (- ex)))
      with (IZR (Zpos mx) * (bpow (- ex) * bpow ex)
            * (p10 (n0 - 17) * p10 (17 - n0))) by ring.
    rewrite H1, H2. ring. }
  assert (HY16 : IZR (10 ^ 16) <= Y).
  { apply Rmult_le_reg_r with (IZR (Zpos b)); [exact HB|].
    rewrite HYB, <- mult_IZR. apply IZR_le. lia. }
  assert (HdivR : IZR (Zpos a)
                  = IZR (Zpos b) * IZR (Zpos lp) + IZR (Z.of_N r)).
  { rewrite <- mult_IZR, <- plus_IZR. f_equal. lia. }
  assert (Hr0 : 0 <= IZR (Z.of_N r)) by (apply IZR_le; lia).
  assert (Hcase :
            Leibniz.eqb (of_decimal false (Npos lp) (n0 - 17))
              (SF2Prim (S754_finite false mx ex)) = true
            \/ Leibniz.eqb (of_decimal false (Npos lp + 1) (n0 - 17))
                 (SF2Prim (S754_finite false mx ex)) = true).
  { destruct (Z.le_gt_cases (2 * Z.of_N r) (Zpos b)) as [Hle|Hgt].
    - left. apply FloatAxioms.Leibniz.eqb_spec.
      apply (decimal_near false mx lp ex (n0 - 17) Y Hb HM HY16).
      apply IZR_le in Hle. rewrite mult_IZR in Hle.
      split; (apply Rmult_le_reg_r with (IZR (Zpos b)); [exact HB|]);
        rewrite HYB; lra.
    - right. apply FloatAxioms.Leibniz.eqb_spec.
      change (Npos lp + 1)%N with (Npos (lp + 1)).
      apply (decimal_near false mx (lp + 1) ex (n0 - 17) Y Hb HM HY16).
      apply IZR_lt in Hgt. rewrite mult_IZR in Hgt.
      assert (Hrb : IZR (Z.of_N r) < IZR (Zpos b)) by (apply IZR_lt; lia).
      rewrite Pos2Z.inj_add, plus_IZR.
      split; (apply Rmult_le_reg_r with (IZR (Zpos b)); [exact HB|]);
        rewrite HYB; lra. }
  destruct Hcase as [E|E]; rewrite E.
  - destruct (Leibniz.eqb (of_decimal false (Npos lp + 1) (n0 - 17)) _);
      [|discriminate].
    destruct (2 * r ?= Npos b)%N; try discriminate.
    destruct (N.even (Npos lp)); discriminate.
  - destruct (Leibniz.eqb (of_decimal false (Npos lp) (n0 - 17)) _);
      [|discriminate].
    destruct (2 * r ?= Npos b)%N; try discriminate.
    destruct (N.even (Npos lp)); discriminate.
Qed.

(** *** The search for the shortest text *)

Lemma shortest_found :
  forall (fuel : nat) (x : number) (num den : positive) (n0 k : Z),
    (exists j : nat,
        (j < fuel)%nat /\ candidate x num den n0 (k + Z.of_nat j) <> None) ->
    exists j : nat,
      (j < fuel)%nat
      /\ candidate x num den n0 (k + Z.of_nat j)
         = Some (shortest fuel x num den n0 k).
Proof.
  induction fuel as [|fuel IH]; intros x num den n0 k (j & Hj & Hc); [lia|].
  cbn [shortest]. destruct (candidate x num den n0 k) as [r|] eqn:E.
  - exists 0%nat. rewrite Z.add_0_r. split; [lia|exact E].
  - destruct j as [|j]; [rewrite Z.add_0_r in Hc; contradiction|].
    destruct (IH x num den n0 (k + 1)%Z) as (j' & Hj' & Hc').
    + exists j. split; [lia|].
      replace (k + 1 + Z.of_nat j)%Z with (k + Z.of_nat (S j))%Z by lia.
      exact Hc.
    + exists (S j'). split; [lia|].
      replace (k + Z.of_nat (S j'))%Z with (k + 1 + Z.of_nat j')%Z by lia.
      exact Hc'.
Qed.

(** *** The text of a finite number *)

Lemma ltb_zero_finite :
  forall (x : float) (s : bool) (m : positive) (e : Z),
    Prim2SF x = S754_finite s m e -> (x <? 0)%float = s.
Proof.
  intros x s m e H. rewrite FloatAxioms.ltb_spec, H.
  change (Prim2SF 0%float) with (S754_zero false).
  destruct s; reflexivity.
Qed.

Lemma abs_finite :
  forall (x : float) (s : bool) (m : positive) (e : Z),
    Prim2SF x = S754_finite s m e -> abs x = SF2Prim (S754_finite false m e).
Proof.
  intros x s m e H. rewrite <- (SF2Prim_Prim2SF (abs x)).
  rewrite FloatAxioms.abs_spec, H. reflexivity.
Qed.

Lemma toString_finite :
  forall (x : float) (s : bool) (m : positive) (e : Z),
    Prim2SF x = S754_finite s m e ->
    exists (d : positive) (n k : Z),
      toString x
      = ((if s then "-" else "") ++ format_digits (digits_of (Npos d)) n)%string
      /\ (1 <= k <= 17)%Z
      /\ (10 ^ (k - 1) <= Zpos d < 10 ^ k)%Z
      /\ of_decimal false (Npos d) (n - k) = abs x.
Proof.
  intros x s m e H. unfold toString.
  assert (Hnan : is_nan x = false).
  { destruct (is_nan x) eqn:E; [|reflexivity].
    apply is_nan_spec in E. rewrite E in H. discriminate H. }
  assert (Hzero : (x =? 0)%float = false).
  { destruct (x =? 0)%float eqn:E; [|reflexivity].
    apply is_zero_spec in E as [z E]. rewrite E in H. discriminate H. }
  rewrite Hnan, Hzero, (ltb_zero_finite x s m e H).
  destruct (exact_fraction_finite x s m e H) as (num & den & Hfrac & Hval).
  rewrite Hfrac, (abs_finite x s m e H).
  assert (Hb : SpecFloat.bounded prec emax m e = true).
  { pose proof (Prim2SF_valid x) as Hv. rewrite H in Hv. exact Hv. }
  pose proof (decimal_exponent_spec num den) as Hdec.
  set (n0 := decimal_exponent num den) in *. clearbody n0.
  destruct (shortest_found 17 (SF2Prim (S754_finite false m e)) num den n0 1)
    as (j & Hj & Hc).
  { exists 16%nat. split; [lia|].
    apply (candidate_complete m e num den n0 Hb Hval Hdec). }
  apply candidate_sound in Hc; [|exact Hdec|lia].
  destruct (shortest 17 (SF2Prim (S754_finite false m e)) num den n0 1)
    as [d n].
  destruct Hc as [Hread [Hd1 Hd2]]. cbn [fst snd] in *.
  assert (Hp : (0 < 10 ^ (1 + Z.of_nat j - 1))%Z) by (apply Z.pow_pos_nonneg; lia).
  destruct d as [|d]; [exfalso; cbn in Hd1; lia|].
  exists d, n, (1 + Z.of_nat j)%Z.
  split; [reflexivity|]. split; [lia|]. split; [split; assumption|exact Hread].
Qed.

End Shortest.

(** ** [ToNumber] on the texts of [ToString] *)

Section Parsing.
Import JS.

(** *** Texts without blanks *)

Lemma numeric_cases :
  forall c : ascii,
    occurs c numeric = true ->
    In c ["0"; "1"; "2"; "3"; "4"; "5"; "6"; "7"; "8"; "9"; "."; "e"; "+";
          "-"; "N"; "a"; "I"; "n"; "f"; "i"; "t"; "y"]%char.
Proof.
  intros c H. unfold numeric in H. cbn [occurs] in H.
  repeat (apply orb_true_iff in H as [H|H];
          [apply Ascii.eqb_eq in H; subst c; cbn; tauto|]).
  discriminate H.
Qed.

Lemma numeric_not_space :
  forall c : ascii, occurs c numeric = true -> is_space c = false.
Proof.
  intros c H. apply numeric_cases in H. cbn [In] in H.
  repeat (destruct H as [<-|H]; [reflexivity|]). contradiction.
Qed.

Lemma rev_string_twice :
  forall s acc acc' : string,
    rev_string (rev_string s acc) acc' = rev_string acc (s ++ acc').
Proof.
  induction s as [|c s IH]; intros acc acc'; [reflexivity|].
  cbn [rev_string]. rewrite IH. reflexivity.
Qed.

Lemma over_rev_string :
  forall (alphabet s acc : string),
    over alphabet s = true -> over alphabet acc = true ->
    over alphabet (rev_string s acc) = true.
Proof.
  intros alphabet. induction s as [|c s IH]; intros acc Hs Hacc; [exact Hacc|].
  cbn [over] in Hs. apply andb_true_iff in Hs as [Hc Hs].
  cbn [rev_string]. apply IH; [exact Hs|]. cbn [over]. rewrite Hc. exact Hacc.
Qed.

Lemma drop_spaces_numeric :
  forall s : string, over numeric s = true -> drop_spaces s = s.
Proof.
  intros [|c s] H; [reflexivity|]. cbn [over] in H.
  apply andb_true_iff in H as [Hc _]. cbn [drop_spaces].
  rewrite (numeric_not_space c Hc). reflexivity.
Qed.

Lemma trim_numeric :
  forall s : string, over numeric s = true -> trim s = s.
Proof.
  intros s H. unfold trim. rewrite (drop_spaces_numeric s H).
  rewrite drop_spaces_numeric by (apply over_rev_string; [exact H|reflexivity]).
  rewrite rev_string_twice. cbn [rev_string]. apply append_empty.
Qed.

Lemma toNumber_numeric :
  forall (c : ascii) (s : string),
    over numeric (String c s) = true ->
    toNumber (String c s) = read_decimal (String c s).
Proof.
  intros c s H. unfold toNumber. rewrite (trim_numeric _ H).
  destruct s as [|x h]; [destruct c as [[] [] [] [] [] [] [] []]; reflexivity|].
  assert (Hx : (Ascii.eqb x "x" || Ascii.eqb x "X")%bool = false).
  { cbn [over] in H. apply andb_true_iff in H as [_ H].
    apply andb_true_iff in H as [Hx _]. apply numeric_cases in Hx. cbn [In] in Hx.
    repeat (destruct Hx as [<-|Hx]; [reflexivity|]). contradiction. }
  destruct c as [[] [] [] [] [] [] [] []]; try reflexivity.
  rewrite Hx. reflexivity.
Qed.

(** *** Runs of zeros and pieces of a text *)

Lemma zeros_iter :
  forall n : nat,
    all_digits (Nat.iter n (String "0") "") = true
    /\ String.length (Nat.iter n (String "0") "") = n
    /\ forall acc : N,
         horner (Nat.iter n (String "0") "") acc = (acc * 10 ^ N.of_nat n)%N.
Proof.
  induction n as [|n (IH1 & IH2 & IH3)].
  - cbn. repeat split. intros acc. lia.
  - change (Nat.iter (S n) (String "0") "")
      with (String "0" (Nat.iter n (String "0") "")).
    cbn [all_digits String.length horner]. rewrite IH1, IH2.
    repeat split. intros acc. rewrite IH3.
    change (digit_value "0") with 0%N.
    rewrite Nat2N.inj_succ, N.pow_succ_r'. lia.
Qed.

Lemma substring_all :
  forall s : string, substring 0 (String.length s) s = s.
Proof.
  induction s as [|c s IH]; [reflexivity|].
  cbn [String.length substring]. rewrite IH. reflexivity.
Qed.

Lemma substring_pieces :
  forall (s : string) (n : nat),
    (n <= String.length s)%nat ->
    substring 0 n s ++ substring n (String.length s - n) s = s
    /\ String.length (substring 0 n s) = n
    /\ String.length (substring n (String.length s - n) s)
       = (String.length s - n)%nat.
Proof.
  induction s as [|c s IH]; intros n Hn.
  - cbn in Hn. assert (n = 0%nat) by lia. subst n. repeat split.
  - destruct n as [|n].
    + rewrite Nat.sub_0_r, substring_all. repeat split.
    + cbn [String.length] in *. cbn [substring Nat.sub].
      destruct (IH n ltac:(lia)) as (H1 & H2 & H3).
      rewrite append_cons, H1. cbn [String.length]. rewrite H2, H3.
      repeat split.
Qed.

Lemma digits_of_nonempty :
  forall n : N, (1 <= String.length (digits_of n))%nat.
Proof.
  intros [|p]; [cbn; lia|]. apply digits_of_bounds.
Qed.

(** *** Reading the parts of a numeral *)

Lemma read_digits_stop :
  forall (c : ascii) (s : string) (acc : N) (cnt : nat),
    is_digit c = false ->
    read_digits (String c s) acc cnt = (acc, cnt, String c s).
Proof. intros c s acc cnt H. cbn [read_digits]. rewrite H. reflexivity. Qed.

Lemma read_digits_before :
  forall (ds ex : string) (acc : N) (cnt : nat),
    all_digits ds = true -> exponentText ex ->
    read_digits (ds ++ ex) acc cnt
    = (horner ds acc, (cnt + String.length ds)%nat, ex).
Proof.
  intros ds ex acc cnt Hds [->|[t ->]].
  - rewrite append_empty. apply read_digits_all. exact Hds.
  - rewrite read_digits_app by exact Hds. apply read_digits_stop. reflexivity.
Qed.

Lemma read_exponent_text :
  forall e : Z,
    read_exponent
      ("e" ++ ((if (e <? 0)%Z then "-" else "+") ++ digits_of (Z.abs_N e)))
    = Some e.
Proof.
  intros e. pose proof (digits_of_nonempty (Z.abs_N e)) as Hlen.
  pose proof (read_digits_all (digits_of (Z.abs_N e)) 0 0
                (all_digits_digits_of _)) as Hread.
  rewrite horner_digits_of in Hread. cbn [Nat.add] in Hread.
  destruct (String.length (digits_of (Z.abs_N e))) as [|len] eqn:E; [lia|].
  rewrite append_cons, append_nil. cbn [read_exponent].
  change (Ascii.eqb "e" "e" || Ascii.eqb "e" "E")%bool with true. cbv iota.
  destruct (Z.ltb_spec e 0) as [Hneg|Hpos];
    rewrite append_cons, append_nil; cbv iota beta; rewrite Hread;
    f_equal; lia.
Qed.

Lemma read_unsigned_plain :
  forall (neg : bool) (ip ex : string) (e : Z),
    all_digits ip = true -> (1 <= String.length ip)%nat ->
    exponentText ex -> read_exponent ex = Some e ->
    read_unsigned_decimal neg (ip ++ ex) = of_decimal neg (horner ip 0) e.
Proof.
  intros neg ip ex e Hip Hlen Hex He. unfold read_unsigned_decimal.
  rewrite (read_digits_before ip ex 0 0 Hip Hex). cbn [Nat.add].
  assert (Hrest : match ex with
                  | String "." t => read_digits t (horner ip 0) 0
                  | _ => (horner ip 0, 0%nat, ex)
                  end = (horner ip 0, 0%nat, ex))
    by (destruct Hex as [->|[t ->]]; reflexivity).
  rewrite Hrest.
  destruct (String.length ip) as [|len]; [lia|]. cbn [Nat.add].
  rewrite He. f_equal. cbn. lia.
Qed.

Lemma read_unsigned_dotted :
  forall (neg : bool) (ip fp ex : string) (e : Z),
    all_digits ip = true -> all_digits fp = true ->
    (1 <= String.length ip)%nat ->
    exponentText ex -> read_exponent ex = Some e ->
    read_unsigned_decimal neg (ip ++ "." ++ fp ++ ex)
    = of_decimal neg (horner (ip ++ fp) 0) (e - Z.of_nat (String.length fp)).
Proof.
  intros neg ip fp ex e Hip Hfp Hlen Hex He. unfold read_unsigned_decimal.
  rewrite read_digits_app by exact Hip.
  rewrite append_cons, append_nil.
  rewrite read_digits_stop by reflexivity.
  rewrite (read_digits_before fp ex _ 0 Hfp Hex). cbn [Nat.add].
  destruct (String.length ip) as [|len]; [lia|]. cbn [Nat.add].
  rewrite He, horner_app. reflexivity.
Qed.

(** *** Reading the text of a number *)

Lemma exponentText_empty : exponentText "".
Proof. left. reflexivity. Qed.

Lemma is_digit_cases :
  forall c : ascii,
    is_digit c = true ->
    In c ["0"; "1"; "2"; "3"; "4"; "5"; "6"; "7"; "8"; "9"]%char.
Proof.
  intros [[] [] [] [] [] [] [] []] H; try discriminate H; cbn; tauto.
Qed.

Lemma read_decimal_signed :
  forall (neg : bool) (c : ascii) (s : string),
    is_digit c = true ->
    read_decimal ((if neg then "-" else "") ++ String c s)
    = read_unsigned_decimal neg (String c s).
Proof.
  intros neg c s Hc. apply is_digit_cases in Hc. cbn [In] in Hc.
  destruct neg; unfold read_decimal;
    repeat (destruct Hc as [<-|Hc]; [reflexivity|]); contradiction.
Qed.

Lemma read_format :
  forall (neg : bool) (d : positive) (n : Z),
    read_unsigned_decimal neg (format_digits (digits_of (Npos d)) n)
    = of_decimal neg (Npos d)
        (n - Z.of_nat (String.length (digits_of (Npos d)))).
Proof.
  intros neg d n. unfold format_digits.
  pose proof (all_digits_digits_of (Npos d)) as Hds.
  pose proof (horner_digits_of (Npos d)) as Hval.
  pose proof (digits_of_nonempty (Npos d)) as Hlen.
  set (ds := digits_of (Npos d)) in *. clearbody ds.
  set (k := Z.of_nat (String.length ds)).
  destruct ((k <=? n)%Z && (n <=? 21)%Z) eqn:E1.
  { (* the digits, then zeros *)
    apply andb_true_iff in E1 as [Hkn _]. apply Z.leb_le in Hkn.
    destruct (zeros_iter (Z.to_nat (n - k))) as (Hz1 & Hz2 & Hz3).
    fold (zeros (n - k)) in Hz1, Hz2, Hz3.
    rewrite <- (append_empty (ds ++ zeros (n - k))).
    rewrite (read_unsigned_plain neg (ds ++ zeros (n - k)) "" 0).
    - rewrite horner_app, Hz3, Hval.
      destruct (Z.to_nat (n - k)) as [|z] eqn:Ez.
      + replace (n - k)%Z with 0%Z by lia. f_equal. cbn. lia.
      + assert (Hpow : (Npos d * 10 ^ N.of_nat (S z))%N
                       = Npos (d * 10 ^ Pos.of_succ_nat z)).
        { cbn [N.of_nat]. reflexivity. }
        rewrite Hpow. apply of_decimal_ext.
        rewrite Pos2Z.inj_mul, Pos2Z.inj_pow, mult_IZR, p10_0.
        rewrite <- p10_IZR by lia. rewrite Rmult_1_r. do 2 f_equal. lia.
    - rewrite all_digits_app, Hds, Hz1. reflexivity.
    - rewrite length_app. lia.
    - apply exponentText_empty.
    - reflexivity. }
  destruct ((0 <? n)%Z && (n <=? 21)%Z) eqn:E2.
  { (* a point inside the digits *)
    apply andb_true_iff in E2 as [Hn0 Hn21].
    apply Z.ltb_lt in Hn0. apply Z.leb_le in Hn21.
    assert (Hnk : (n < k)%Z).
    { apply andb_false_iff in E1 as [E1|E1].
      - apply Z.leb_gt in E1. exact E1.
      - apply Z.leb_gt in E1. lia. }
    replace (Z.to_nat (k - n)) with (String.length ds - Z.to_nat n)%nat
      by (unfold k; lia).
    destruct (substring_pieces ds (Z.to_nat n) ltac:(unfold k in Hnk; lia))
      as (Hp & Hl1 & Hl2).
    set (p1 := substring 0 (Z.to_nat n) ds) in *.
    set (p2 := substring (Z.to_nat n) (String.length ds - Z.to_nat n) ds) in *.
    clearbody p1 p2.
    assert (Hall : all_digits p1 = true /\ all_digits p2 = true).
    { rewrite <- Hp, all_digits_app in Hds. apply andb_true_iff in Hds. exact Hds. }
    destruct Hall as [Ha1 Ha2].
    rewrite <- (append_empty p2).
    rewrite (read_unsigned_dotted neg p1 p2 "" 0 Ha1 Ha2 ltac:(lia)
               exponentText_empty eq_refl).
    rewrite Hp, Hval. f_equal. unfold k. lia. }
  destruct ((-6 <? n)%Z && (n <=? 0)%Z) eqn:E3.
  { (* zeros between the point and the digits *)
    apply andb_true_iff in E3 as [_ Hn0]. apply Z.leb_le in Hn0.
    destruct (zeros_iter (Z.to_nat (- n))) as (Hz1 & Hz2 & Hz3).
    fold (zeros (- n)) in Hz1, Hz2, Hz3.
    change ("0." ++ zeros (- n) ++ ds)
      with ("0" ++ "." ++ (zeros (- n) ++ ds)).
    rewrite <- (append_empty (zeros (- n) ++ ds)).
    rewrite (read_unsigned_dotted neg "0" (zeros (- n) ++ ds) "" 0 eq_refl).
    - change ("0" ++ (zeros (- n) ++ ds)) with (String "0" (zeros (- n) ++ ds)).
      cbn [horner]. change (0 * 10 + digit_value "0")%N with 0%N.
      rewrite horner_app, Hz3, N.mul_0_l, Hval, length_app, Hz2.
      f_equal. unfold k. lia.
    - rewrite all_digits_app, Hz1, Hds. reflexivity.
    - cbn. lia.
    - apply exponentText_empty.
    - reflexivity. }
  (* the exponent form *)
  set (es := (if (n - 1 <? 0)%Z then "-" else "+") ++ digits_of (Z.abs_N (n - 1))).
  pose proof (read_exponent_text (n - 1)) as Hexp. fold es in Hexp.
  assert (Hex : exponentText ("e" ++ es)) by (right; exists es; reflexivity).
  destruct (Z.eqb_spec k 1) as [Hk1|Hk1].
  - rewrite (read_unsigned_plain neg ds ("e" ++ es) (n - 1) Hds Hlen Hex Hexp).
    rewrite Hval. f_equal. unfold k in *. lia.
  - replace (Z.to_nat (k - 1)) with (String.length ds - 1)%nat by (unfold k; lia).
    destruct (substring_pieces ds 1 Hlen) as (Hp & Hl1 & Hl2).
    set (p1 := substring 0 1 ds) in *.
    set (p2 := substring 1 (String.length ds - 1) ds) in *.
    clearbody p1 p2.
    assert (Hall : all_digits p1 = true /\ all_digits p2 = true).
    { rewrite <- Hp, all_digits_app in Hds. apply andb_true_iff in Hds. exact Hds. }
    destruct Hall as [Ha1 Ha2].
    replace (p1 ++ "." ++ p2 ++ "e" ++ es) with (p1 ++ "." ++ p2 ++ ("e" ++ es))
      by reflexivity.
    rewrite (read_unsigned_dotted neg p1 p2 ("e" ++ es) (n - 1) Ha1 Ha2
               ltac:(lia) Hex Hexp).
    rewrite Hp, Hval. f_equal. unfold k. lia.
Qed.

Lemma format_head :
  forall (d : positive) (n : Z),
    exists (c : ascii) (s : string),
      format_digits (digits_of (Npos d)) n = String c s /\ is_digit c = true.
Proof.
  intros d n. destruct (digits_of_head d) as (c & s & Hcs & _ & Hc & _).
  unfold format_digits. rewrite Hcs. set (k := Z.of_nat (String.length (String c s))).
  destruct ((k <=? n)%Z && (n <=? 21)%Z); [exists c; eexists; split; [reflexivity|exact Hc]|].
  destruct ((0 <? n)%Z && (n <=? 21)%Z) eqn:E2.
  { apply andb_true_iff in E2 as [Hn0 _]. apply Z.ltb_lt in Hn0.
    destruct (Z.to_nat n) as [|m] eqn:Em; [lia|].
    exists c. eexists. split; [reflexivity|exact Hc]. }
  destruct ((-6 <? n)%Z && (n <=? 0)%Z);
    [exists "0"%char; eexists; split; reflexivity|].
  destruct (k =? 1)%Z; exists c; eexists; (split; [reflexivity|exact Hc]).
Qed.

(** The text of a decimal reads as the number of that decimal. *)
Lemma toNumber_format :
  forall (neg : bool) (d : positive) (n : Z),
    over numeric ((if neg then "-" else "") ++ format_digits (digits_of (Npos d)) n)
    = true ->
    toNumber ((if neg then "-" else "") ++ format_digits (digits_of (Npos d)) n)
    = of_decimal neg (Npos d)
        (n - Z.of_nat (String.length (digits_of (Npos d)))).
Proof.
  intros neg d n Hover. destruct (format_head d n) as (c & s & Hcs & Hc).
  rewrite <- read_format, Hcs in *.
  rewrite <- (read_decimal_signed neg c s Hc).
  destruct neg; apply toNumber_numeric; exact Hover.
Qed.

End Parsing.

(** ** Numbers and shapes read back from their texts *)

Section NumberTexts.
Import JS TankSensor.

Lemma digits_of_length_Z :
  forall (d : positive) (k : Z),
    (1 <= k)%Z -> (10 ^ (k - 1) <= Zpos d < 10 ^ k)%Z ->
    Z.of_nat (String.length (digits_of (Npos d))) = k.
Proof.
  intros d k Hk [H1 H2]. destruct (digits_of_bounds_Z d) as (Hk' & H3 & H4).
  set (k' := Z.of_nat (String.length (digits_of (Npos d)))) in *. clearbody k'.
  assert (k - 1 < k')%Z by (apply (Z.pow_lt_mono_r_iff 10); lia).
  assert (k' - 1 < k)%Z by (apply (Z.pow_lt_mono_r_iff 10); lia).
  lia.
Qed.

Lemma roundtrip_finite :
  forall (x : float) (s : bool) (m : positive) (e : Z),
    Prim2SF x = S754_finite s m e -> toNumber (toString x) = x.
Proof.
  intros x s m e H. pose proof (over_toString x) as Hover.
  destruct (toString_finite x s m e H) as (d & n & k & Htext & Hk & Hd & Hread).
  rewrite Htext in *. rewrite (toNumber_format s d n Hover).
  rewrite (digits_of_length_Z d k ltac:(lia) Hd).
  rewrite <- (SF2Prim_Prim2SF x) at 1. rewrite H.
  rewrite (abs_finite x s m e H) in Hread.
  destruct s.
  - rewrite of_decimal_opp, Hread. reflexivity.
  - exact Hread.
Qed.

(** Every number is read back from its text, but for the sign of a zero. *)
Lemma roundtrip_number :
  forall x : number, toNumber (toString x) = unsignedZero x.
Proof.
  intros x. unfold unsignedZero.
  destruct (Prim2SF x) as [s|s| |s m e] eqn:H.
  - assert (Hz : (x =? 0)%float = true) by (apply is_zero_spec; exists s; exact H).
    rewrite Hz. rewrite <- (SF2Prim_Prim2SF x), H.
    destruct s; vm_compute; reflexivity.
  - assert (Hz : (x =? 0)%float = false).
    { destruct (x =? 0)%float eqn:E; [|reflexivity].
      apply is_zero_spec in E as [z E]. rewrite E in H. discriminate H. }
    rewrite Hz. rewrite <- (SF2Prim_Prim2SF x), H.
    destruct s; vm_compute; reflexivity.
  - assert (Hz : (x =? 0)%float = false).
    { destruct (x =? 0)%float eqn:E; [|reflexivity].
      apply is_zero_spec in E as [z E]. rewrite E in H. discriminate H. }
    rewrite Hz. rewrite <- (SF2Prim_Prim2SF x), H. vm_compute. reflexivity.
  - assert (Hz : (x =? 0)%float = false).
    { destruct (x =? 0)%float eqn:E; [|reflexivity].
      apply is_zero_spec in E as [z E]. rewrite E in H. discriminate H. }
    rewrite Hz. apply (roundtrip_finite x s m e H).
Qed.







End NumberTexts.

(** ** [toFixed] and the volume texts *)

Section FixedNotation.
Import JS TankSensor.

Lemma decimalInteger_digits_of : forall n : N, decimalInteger (digits_of n).
Proof.
  intros n. split; [apply all_digits_digits_of|].
  destruct n as [|p]; [left; reflexivity|].
  destruct (digits_of_head p) as (c & s & Hcs & _ & _ & Hc).
  right. exists c, s. split; assumption.
Qed.

Lemma zeros_succ :
  forall z : Z, (1 <= z)%Z -> zeros z = String "0" (zeros (z - 1)).
Proof.
  intros z Hz. unfold zeros.
  replace (Z.to_nat z) with (S (Z.to_nat (z - 1))) by lia. reflexivity.
Qed.

(** The integer and the fraction digits that [toFixed] cuts the digits of
    [n] into. *)
Lemma fixed_pieces :
  forall (n : N) (f : nat),
    (1 <= f)%nat ->
    let m := digits_of n in
    let k := String.length m in
    let m' := if (k <=? f)%nat then zeros (Z.of_nat (f + 1 - k)) ++ m else m in
    let k' := String.length m' in
    decimalInteger (substring 0 (k' - f) m')
    /\ all_digits (substring (k' - f) f m') = true
    /\ String.length (substring (k' - f) f m') = f
    /\ horner (substring 0 (k' - f) m' ++ substring (k' - f) f m') 0 = n.
Proof.
  intros n f Hf m k m' k'.
  pose proof (all_digits_digits_of n) as Hm. fold m in Hm.
  pose proof (horner_digits_of n) as Hv. fold m in Hv.
  pose proof (digits_of_nonempty n) as Hk. fold m in Hk. fold k in Hk.
  destruct (zeros_iter (Z.to_nat (Z.of_nat (f + 1 - k)))) as (Hz1 & Hz2 & Hz3).
  fold (zeros (Z.of_nat (f + 1 - k))) in Hz1, Hz2, Hz3.
  assert (Hm' : all_digits m' = true /\ horner m' 0 = n /\ (f + 1 <= k')%nat).
  { unfold k', m'. destruct (Nat.leb_spec k f) as [Hle|Hgt].
    - rewrite all_digits_app, Hz1, Hm, horner_app, Hz3, N.mul_0_l, Hv.
      rewrite length_app, Hz2. fold k. repeat split. lia.
    - fold k. repeat split; [exact Hm|exact Hv|lia]. }
  destruct Hm' as (Ha & Hh & Hlen).
  destruct (substring_pieces m' (k' - f) ltac:(unfold k'; lia)) as (Hp & Hl1 & Hl2).
  fold k' in Hp, Hl2. replace (k' - (k' - f))%nat with f in Hp, Hl2 by lia.
  assert (Hall : all_digits (substring 0 (k' - f) m') = true
                 /\ all_digits (substring (k' - f) f m') = true).
  { rewrite <- Hp, all_digits_app in Ha. apply andb_true_iff in Ha. exact Ha. }
  destruct Hall as [Ha1 Ha2].
  split; [|split; [exact Ha2|split; [exact Hl2|rewrite Hp; exact Hh]]].
  split; [exact Ha1|].
  unfold k', m' in *. destruct (Nat.leb_spec k f) as [Hle|Hgt].
  - left. rewrite length_app, Hz2. fold k.
    replace (Z.to_nat (Z.of_nat (f + 1 - k)) + k - f)%nat with 1%nat by lia.
    rewrite zeros_succ by lia. rewrite append_cons. cbn [substring].
    destruct (zeros (Z.of_nat (f + 1 - k) - 1) ++ m); reflexivity.
  - right. fold k. destruct n as [|p]; [cbn in k; lia|].
    destruct (digits_of_head p) as (c & s & Hcs & _ & _ & Hc).
    unfold m. rewrite Hcs. destruct (k - f)%nat as [|j] eqn:Ej; [lia|].
    exists c. eexists. split; [reflexivity|exact Hc].
Qed.

Lemma fixed_nearest :
  forall (m : positive) (e : Z) (num den : positive) (f : nat),
    IZR (Zpos num) = (IZR (Zpos m) * bpow e * IZR (Zpos den))%R ->
    let n := ((2 * Npos (num * 10 ^ Pos.of_succ_nat f) + 10 * Npos den)
              / (20 * Npos den))%N in
    (IZR (Z.of_N n) - / 2 <= IZR (Zpos m) * bpow e * 10 ^ f
     < IZR (Z.of_N n) + / 2)%R.
Proof.
  intros m e num den f Hval n.
  pose proof (N.Div0.mul_div_le
                (2 * Npos (num * 10 ^ Pos.of_succ_nat f) + 10 * Npos den)
                (20 * Npos den)) as H1.
  pose proof (N.mul_succ_div_gt
                (2 * Npos (num * 10 ^ Pos.of_succ_nat f) + 10 * Npos den)
                (20 * Npos den) ltac:(discriminate)) as H2.
  fold n in H1, H2. clearbody n.
  assert (Hpow : Zpos (num * 10 ^ Pos.of_succ_nat f)
                 = (Zpos num * (10 * 10 ^ Z.of_nat f))%Z).
  { rewrite Pos2Z.inj_mul, Pos2Z.inj_pow, Zpos_P_of_succ_nat.
    rewrite Z.pow_succ_r by lia. reflexivity. }
  assert (H1' : (20 * Zpos den * Z.of_N n
                 <= 2 * (Zpos num * (10 * 10 ^ Z.of_nat f)) + 10 * Zpos den)%Z).
  { rewrite <- Hpow. lia. }
  assert (H2' : (2 * (Zpos num * (10 * 10 ^ Z.of_nat f)) + 10 * Zpos den
                 < 20 * Zpos den * (Z.of_N n + 1))%Z).
  { rewrite <- Hpow. lia. }
  apply IZR_le in H1'. apply IZR_lt in H2'.
  repeat rewrite ?plus_IZR, ?mult_IZR in H1'.
  repeat rewrite ?plus_IZR, ?mult_IZR in H2'.
  rewrite <- pow_IZR in H1', H2'. rewrite Hval in H1', H2'.
  assert (HD : (0 < IZR (Zpos den))%R) by (apply IZR_lt; lia).
  set (D := IZR (Zpos den)) in *. set (X := (IZR (Zpos m) * bpow e)%R) in *.
  set (T := (10 ^ f)%R) in *. clearbody D X T.
  split.
  - apply Rmult_le_reg_r with (20 * D)%R; lra.
  - apply Rmult_lt_reg_r with (20 * D)%R; lra.
Qed.

Lemma valueOf_finite :
  forall (x : number) (s : bool) (m : positive) (e : Z),
    Prim2SF x = S754_finite s m e ->
    Rabs (valueOf x) = (IZR (Zpos m) * bpow e)%R.
Proof.
  intros x s m e H. unfold valueOf. rewrite H.
  assert (Hpos : (0 <= IZR (Zpos m) * bpow e)%R).
  { apply Rmult_le_pos; [apply IZR_le; lia|apply Rlt_le, bpow_pos]. }
  destruct s.
  - replace (- IZR (Zpos m) * bpow e)%R with (- (IZR (Zpos m) * bpow e))%R by ring.
    rewrite Rabs_Ropp. apply Rabs_pos_eq. exact Hpos.
  - apply Rabs_pos_eq. exact Hpos.
Qed.

(** [toFixed] of a number below 1e21: the nearest decimal with [f] digits
    after the point, of two nearest ones the larger. *)
Lemma toFixed_nearest :
  forall (x : number) (f : nat),
    is_nan x = false -> (1e21 <=? abs x)%float = false ->
    exists ip fp : string,
      toFixed x f
      = (if (x <? 0)%float then "-" else "")
        ++ ip ++ match f with O => "" | S _ => "." ++ fp end
      /\ decimalInteger ip
      /\ all_digits fp = true
      /\ String.length fp = f
      /\ (IZR (Z.of_N (horner (ip ++ fp) 0)) - / 2
          <= Rabs (valueOf x) * 10 ^ f
          < IZR (Z.of_N (horner (ip ++ fp) 0)) + / 2)%R.
Proof.
  intros x f Hnan Hbig. unfold toFixed. rewrite Hnan, Hbig.
  set (sign := if (x <? 0)%float then "-" else "").
  set (n := match exact_fraction (abs x) with
            | Some (num, den) =>
                ((2 * Npos (num * 10 ^ Pos.of_succ_nat f) + 10 * Npos den)
                   / (20 * Npos den))%N
            | None => 0%N
            end).
  assert (Hn : (IZR (Z.of_N n) - / 2 <= Rabs (valueOf x) * 10 ^ f
                < IZR (Z.of_N n) + / 2)%R).
  { pose proof (FloatAxioms.abs_spec x) as Habs.
    destruct (Prim2SF x) as [s|s| |s m e] eqn:H.
    - unfold n, exact_fraction. rewrite Habs. cbn [SFabs].
      unfold valueOf. rewrite H, Rabs_R0. cbn [Z.of_N]. lra.
    - exfalso. rewrite FloatAxioms.leb_spec, Habs in Hbig.
      vm_compute in Hbig. discriminate Hbig.
    - exfalso. apply is_nan_spec in H. rewrite H in Hnan. discriminate Hnan.
    - cbn [SFabs] in Habs.
      destruct (exact_fraction_finite (abs x) false m e Habs)
        as (num & den & Hfrac & Hval).
      unfold n. rewrite Hfrac, (valueOf_finite x s m e H).
      apply fixed_nearest. exact Hval. }
  clearbody n. destruct f as [|f].
  - exists (digits_of n), "". rewrite !append_empty, horner_digits_of.
    split; [reflexivity|]. split; [apply decimalInteger_digits_of|].
    split; [reflexivity|]. split; [reflexivity|exact Hn].
  - destruct (fixed_pieces n (S f) ltac:(lia)) as (H1 & H2 & H3 & H4).
    eexists. eexists. split; [reflexivity|].
    split; [exact H1|]. split; [exact H2|]. split; [exact H3|].
    rewrite H4. exact Hn.
Qed.

Lemma large_not_zero :
  forall x : number,
    (1e21 <=? x)%float = true -> unsignedZero x = x.
Proof.
  intros x H. unfold unsignedZero.
  destruct (x =? 0)%float eqn:E; [|reflexivity].
  apply is_zero_spec in E as [s E].
  rewrite FloatAxioms.leb_spec, E in H. destruct s; vm_compute in H; discriminate H.
Qed.

(** C10, as the code has it. [formatVolume] gives the two dashes for an
    undefined volume. Otherwise, with [x] the volume times the unit's factor:
    when [x] is [NaN] the text is "NaN" and the unit's symbol; when [x] is
    1e21 or more in magnitude it is the sign, the text [ToString] gives
    the magnitude (one that reads back as it), and the symbol, whatever the
    precision; and below 1e21 it is the sign, the digits of an integer part,
    as many fraction digits as the unit's precision (after a point, when
    there are any) and the symbol, the decimal so written being the nearest
    one to the magnitude of [x], of two nearest ones the larger. *)
Theorem formatVolume_spec :
  forall u : Z,
    formatVolume u None = "--"
    /\ forall v : number,
         let fmt := getVolumeFormat u in
         let x := (v * fmt.(factor))%float in
         let sign := if (x <? 0)%float then "-" else "" in
         (is_nan x = true -> formatVolume u (Some v) = "NaN" ++ fmt.(unit))
         /\ (is_nan x = false -> (1e21 <=? abs x)%float = true ->
             formatVolume u (Some v) = (sign ++ toString (abs x)) ++ fmt.(unit)
             /\ toNumber (toString (abs x)) = abs x)
         /\ (is_nan x = false -> (1e21 <=? abs x)%float = false ->
             exists ip fp : string,
               formatVolume u (Some v)
               = (sign ++ ip
                  ++ match fmt.(precision) with O => "" | S _ => "." ++ fp end)
                 ++ fmt.(unit)
               /\ decimalInteger ip
               /\ all_digits fp = true
               /\ String.length fp = fmt.(precision)
               /\ (IZR (Z.of_N (horner (ip ++ fp) 0)) - / 2
                   <= Rabs (valueOf x) * 10 ^ fmt.(precision)
                   < IZR (Z.of_N (horner (ip ++ fp) 0)) + / 2)%R).
Proof.
  intros u. split; [reflexivity|]. intros v fmt x sign.
  assert (Hf : formatVolume u (Some v) = toFixed x fmt.(precision) ++ fmt.(unit))
    by reflexivity.
  rewrite Hf. split; [|split].
  - intros Hnan. unfold toFixed. rewrite Hnan. reflexivity.
  - intros Hnan Hbig. split.
    + unfold toFixed. rewrite Hnan, Hbig. reflexivity.
    + rewrite roundtrip_number. apply large_not_zero. exact Hbig.
  - intros Hnan Hbig.
    destruct (toFixed_nearest x fmt.(precision) Hnan Hbig)
      as (ip & fp & Htext & Hip & Hfp & Hlen & Hval).
    exists ip, fp. rewrite Htext. repeat split; assumption || apply Hip || apply Hval.
Qed.

(** C10, counterexample: 1e21 cubic metres are written in the exponent
    notation, without the three decimals of the unit, an undefined product
    as "NaN", and 1e18 cubic metres in litres without regard to the
    precision either. *)
Lemma formatVolume_large_or_nan :
  formatVolume 0 (Some 1e21%float) = "1e+21m<sup>3</sup>"
  /\ formatVolume 0 (Some nan) = "NaNm<sup>3</sup>"
  /\ formatVolume 1 (Some 1e18%float) = "1e+21L"
  /\ formatVolume 1 (Some infinity) = "InfinityL".
Proof. repeat split; vm_compute; reflexivity. Qed.

Lemma formatVolume_spec_witness :
  exists ip fp : string,
    formatVolume 0 (Some 0.05%float)
    = (ip ++ "." ++ fp) ++ "m<sup>3</sup>"
    /\ String.length fp = 3%nat.
Proof.
  destruct (formatVolume_spec 0) as [_ H].
  destruct (H 0.05%float) as (_ & _ & H3).
  destruct H3 as (ip & fp & Htext & _ & _ & Hlen & _);
    [vm_compute; reflexivity|vm_compute; reflexivity|].
  exists ip, fp. split; [exact Htext|exact Hlen].
Defined.

End FixedNotation.
